(** * Temperature logger: bounded sample lists, chronological merge,
      decimation and ordered multi-locking

    Shallow embedding of [app/src/temperature-logger.c] and of the lock
    macros of [app/lock.h], with the periodic sampling task that drives
    them, the clock helper of [app/src/time.c] and the string checks of
    [app/src/string.c].

    Conventions of the embedding.
    - C integers are [Z] (or [nat] for [size_t] indices that the code keeps
      inside the array bounds); wrap-around is written out with [wrap_u32]
      and [wrap_s16].
    - Objects that the C code reaches through pointers live in a heap, a
      finite map from addresses to list objects.  A function that the C code
      calls with pointers takes addresses here, so that aliasing between the
      arguments is visible.
    - Behaviour that C leaves undefined (reading or writing outside an
      array, dereferencing [NULL] or a dangling pointer, dividing by zero,
      casting a float that is out of the range of [s16_of_f32]) is the
      outcome [Undefined]; a loop that has used up its iteration budget is
      the outcome [OutOfFuel].
    - The mutexes guarding single lists are Zephyr [k_mutex] objects, which
      are reentrant; the sequential embedding leaves the lock/unlock
      brackets of the list operations out and treats the ordering macros
      [TRIPLE_LOCK]/[TRIPLE_UNLOCK] on their own in [Module Lock]. *)

From Stdlib Require Import ZArith List Lia Bool.
From Stdlib Require Import Sorting.Sorted Sorting.Permutation.
From Stdlib Require Import Floats.SpecFloat.
From stdpp Require Import base option list gmap.

Local Open Scope Z_scope.

(** ** Outcomes of running a piece of C *)

Inductive outcome (A : Type) : Type :=
| Done (a : A)
| Undefined
| OutOfFuel.
Arguments Done {A} a.
Arguments Undefined {A}.
Arguments OutOfFuel {A}.

#[global] Instance outcome_ret : MRet outcome := fun A a => Done a.
#[global] Instance outcome_bind : MBind outcome := fun A B f x =>
  match x with
  | Done a => f a
  | Undefined => Undefined
  | OutOfFuel => OutOfFuel
  end.

(** A partial access: [None] is an access that C leaves undefined. *)
Definition access {A : Type} (o : option A) : outcome A :=
  match o with
  | Some a => Done a
  | None => Undefined
  end.

(** ** Machine integers *)

Definition wrap_u32 (z : Z) : Z := z mod 2 ^ 32.
Definition wrap_s16 (z : Z) : Z := (z + 2 ^ 15) mod 2 ^ 16 - 2 ^ 15.

Definition in_u32 (z : Z) : Prop := 0 <= z < 2 ^ 32.
Definition in_s16 (z : Z) : Prop := - 2 ^ 15 <= z < 2 ^ 15.

(** ** Single-precision floats

    IEEE-754 binary32 through the executable specification of the standard
    library: 24 bits of precision, exponent bound 128, rounding to nearest
    with ties to even. *)

Definition f32_of_Z (z : Z) : spec_float := binary_normalize 24 128 z 0 false.
Definition f32_mul : spec_float -> spec_float -> spec_float := SFmul 24 128.
Definition f32_div : spec_float -> spec_float -> spec_float := SFdiv 24 128.

(** Conversion to an integer, truncating toward zero. *)
Definition Z_of_f32 (f : spec_float) : Z :=
  match f with
  | S754_finite s m e => cond_Zopp s (Z.shiftl (Zpos m) e)
  | _ => 0
  end.

(** The cast [(int16_t)f].  C defines it only when the truncated value fits
    the target type.  The compilers of the firmware's targets convert to a
    32-bit integer and keep the low 16 bits, which is taken as the result
    whenever the truncated value fits [int32_t]; for a value beyond that,
    an infinity or a NaN no result is defined. *)
Definition s16_of_f32 (f : spec_float) : outcome Z :=
  match f with
  | S754_zero _ | S754_finite _ _ _ =>
    let z := Z_of_f32 f in
    if (- 2 ^ 31 <=? z) && (z <? 2 ^ 31) then Done (wrap_s16 z) else Undefined
  | _ => Undefined
  end.

(** ** Error codes ([app/error.h]) *)

Inductive error_e : Set :=
| E_SUCCESS | E_ERROR | E_PERM | E_NOENT | E_SRCH | E_INTR | E_IO | E_NXIO
| E_2BIG | E_NOEXEC | E_BADF | E_CHILD | E_AGAIN | E_NOMEM | E_ACCES
| E_FAULT | E_NOTBLK | E_BUSY | E_EXIST | E_XDEV | E_NODEV | E_NOTDIR
| E_ISDIR | E_INVAL | E_NFILE | E_MFILE | E_NOTTY | E_TXTBSY | E_FBIG
| E_NOSPC | E_SPIPE | E_ROFS | E_MLINK | E_PIPE | E_DOM | E_RANGE
| E_DEADLOCK | E_WOULDBLOCK | E_NODATA | E_TIME | E_NOBUFS
| E_NULL_PTR | E_END_OF_ITER | E_IN_PROGRESS | E_ALREADY_DONE | E_TIMEOUT
| E_WIFI_LOGINS_NOT_SET | E_WIFI_LOGINS_INVALID.

(** ** Data model ([app/temperature-logger.h]) *)

(** [int16_t]: 1 sign bit, 11 whole bits, 4 fractional bits. *)
Definition temperature_t : Set := Z.

(** Modelled from the spec: [sys_minutes_t] is declared in [app/time.h],
    which is not among the sources.  The spec calls a timestamp an unsigned
    integer count of minutes since boot, and [interpolate] converts
    differences of timestamps to [uint32_t]; it is taken as [uint32_t]. *)
Definition sys_minutes_t : Set := Z.

Record temperature_sample_t : Set := {
  temperature : temperature_t;
  uptime : sys_minutes_t
}.

(** [data] has [CONFIG_TEMPERATURE_LOGGER_BUFFER_SIZE] cells; [length] is
    the number of cells in use. *)
Record temperature_list_t : Set := {
  data : list temperature_sample_t;
  length : nat
}.

Definition ptr := Z.
Definition NULL : ptr := 0.

(** A pointer to a cell of the [data] array of a list object. *)
Definition sample_ptr : Set := (ptr * nat)%type.
Definition NULL_sample : sample_ptr := (NULL, 0%nat).

Record merge_iterator_t : Set := {
  src1 : ptr;
  src2 : ptr;
  current_list : ptr;
  current_index : nat;
  next_src1_index : nat;
  next_src2_index : nat
}.

(** The all-zero sample, as [memset] leaves it. *)
Definition zero_sample : temperature_sample_t :=
  {| temperature := 0; uptime := 0 |}.

(** [enum nvs_key_e] ([app/nvs.h]) and [ENOENT] ([errno.h]). *)
Definition NVS_KEY_CONFIG_SETTINGS : Z := 1.
Definition NVS_KEY_TEMPERATURE_DATA : Z := 2.
Definition ENOENT : Z := 2.

(** The interface of the persistent store. *)
Class NvsStore (nvs_fs : Type) : Type := {
  nvs_read : nvs_fs -> Z -> temperature_list_t -> Z -> Z * temperature_list_t;
  nvs_write : nvs_fs -> Z -> temperature_list_t -> Z -> Z * nvs_fs
}.

Section Logger.

(** [CONFIG_TEMPERATURE_LOGGER_BUFFER_SIZE], a build-time constant. *)
Variable N : nat.

(** [offsetof(struct temperature_list_t, lock)], the size in bytes of the
    persisted region of a list object. *)
Variable offsetof_lock : Z.

Context {nvs_fs : Type} `{!NvsStore nvs_fs}.

(** *** Heap accesses *)

Definition read_list (h : gmap Z temperature_list_t) (p : ptr)
  : outcome temperature_list_t :=
  if p =? NULL then Undefined else access (h !! p).

Definition read_sample (h : gmap Z temperature_list_t) (s : sample_ptr)
  : outcome temperature_sample_t :=
  l ← read_list h s.1; access (data l !! s.2).

(** [memmove(dst, src, n * sizeof(struct temperature_sample_t))] *)
Definition memmove_samples (dst src : list temperature_sample_t) (n : nat)
  : list temperature_sample_t :=
  take n src ++ drop n dst.

(** *** BoundedSampleList *)

Definition reset_temperature_list (h : gmap Z temperature_list_t) (t : ptr)
  : outcome (error_e * gmap Z temperature_list_t) :=
  if t =? NULL then Done (E_NULL_PTR, h)
  else
    _ ← read_list h t;
    Done (E_SUCCESS, <[t := {| data := replicate N zero_sample; length := 0 |}]> h).

Definition append_temperature_sample (h : gmap Z temperature_list_t)
    (list : ptr) (sample : temperature_sample_t)
  : outcome (error_e * gmap Z temperature_list_t) :=
  if list =? NULL then Done (E_NULL_PTR, h)
  else
    l ← read_list h list;
    if (length l =? N)%nat then Done (E_NOBUFS, h)
    else if (length l <? N)%nat then
      Done (E_SUCCESS,
            <[list := {| data := <[length l := sample]> (data l);
                         length := S (length l) |}]> h)
    else Undefined.

(** *** Persistence

    The non-volatile store is Zephyr's NVS, which is not part of the
    repository; it is an interface here.  [nvs_read fs id buf len] returns
    the C return value (the byte count, or a negated [errno]) and the
    destination region as the read leaves it; [nvs_write fs id buf len]
    returns the C return value and the store afterwards.  The region that
    is read and written is the list object up to its [lock] field, that is
    [data] followed by [length]. *)

Definition load_temperature_list (fs : nvs_fs)
    (h : gmap Z temperature_list_t) (t : ptr)
  : outcome (error_e * gmap Z temperature_list_t * nvs_fs) :=
  if t =? NULL then Done (E_NULL_PTR, h, fs)
  else
    buf ← read_list h t;
    let '(bytes_read, buf) :=
      nvs_read fs NVS_KEY_TEMPERATURE_DATA buf offsetof_lock in
    let h := <[t := buf]> h in
    if bytes_read =? - ENOENT then
      '(_, h) ← reset_temperature_list h t;
      buf ← read_list h t;
      let '(_, fs) :=
        nvs_write fs NVS_KEY_TEMPERATURE_DATA buf offsetof_lock in
      Done (E_SUCCESS, h, fs)
    else if negb (bytes_read =? offsetof_lock) then
      Done (E_ERROR, h, fs)
    else
      Done (E_SUCCESS, h, fs).

Definition store_temperature_list (fs : nvs_fs)
    (h : gmap Z temperature_list_t) (t : ptr)
  : outcome (error_e * nvs_fs) :=
  if t =? NULL then Done (E_NULL_PTR, fs)
  else
    buf ← read_list h t;
    let '(bytes_written, fs) :=
      nvs_write fs NVS_KEY_TEMPERATURE_DATA buf offsetof_lock in
    Done (if (bytes_written =? offsetof_lock) || (bytes_written =? 0)
          then E_SUCCESS else E_ERROR,
          fs).

(** *** Interpolator *)

(** [(float)d_temp * (float)d_uptime_to_result / (float)d_uptime] is
    computed in IEEE-754 binary32 with round-to-nearest-even; the cast to
    [int16_t] is [s16_of_f32], so the call has no defined result when the
    quotient is out of its range.  The sums of two values are those of
    [int]; their narrowing to [int16_t] keeps the low 16 bits. *)
Definition interpolate (t1 t2 : temperature_sample_t) (uptime' : Z)
  : outcome temperature_sample_t :=
  if uptime t1 =? uptime t2 then
    Done {| temperature := wrap_s16 ((temperature t1 + temperature t2) ÷ 2);
            uptime := uptime' |}
  else
    let earlier := if uptime t1 <? uptime t2 then t1 else t2 in
    let later := if uptime t1 <? uptime t2 then t2 else t1 in
    let d_temp := temperature t2 - temperature t1 in
    let d_uptime := wrap_u32 (uptime later - uptime earlier) in
    let d_uptime_to_result := wrap_u32 (uptime' - uptime earlier) in
    d_temp_to_result ←
      s16_of_f32 (f32_div (f32_mul (f32_of_Z d_temp)
                                   (f32_of_Z d_uptime_to_result))
                          (f32_of_Z d_uptime));
    Done {| temperature := wrap_s16 (temperature earlier + d_temp_to_result);
            uptime := uptime' |}.

(** *** ChronologicalMergeIterator *)

Definition set_current (m : merge_iterator_t) (l : ptr) (i : nat)
  : merge_iterator_t :=
  {| src1 := src1 m; src2 := src2 m; current_list := l; current_index := i;
     next_src1_index := next_src1_index m;
     next_src2_index := next_src2_index m |}.

Definition set_next (m : merge_iterator_t) (n1 n2 : nat) : merge_iterator_t :=
  {| src1 := src1 m; src2 := src2 m; current_list := current_list m;
     current_index := current_index m;
     next_src1_index := n1; next_src2_index := n2 |}.

(** [m] is the iterator object as the caller left it: the branch for two
    empty lists does not write the two [next_] fields. *)
Definition init_merge_iterator (h : gmap Z temperature_list_t)
    (m : merge_iterator_t) (src1' src2' : ptr) : outcome merge_iterator_t :=
  let m := {| src1 := src1'; src2 := src2'; current_list := current_list m;
              current_index := 0;
              next_src1_index := next_src1_index m;
              next_src2_index := next_src2_index m |} in
  l1 ← read_list h src1';
  l2 ← read_list h src2';
  if (length l1 =? 0)%nat && (length l2 =? 0)%nat then
    Done (set_current m NULL 0)
  else if (length l1 =? 0)%nat then
    Done (set_next (set_current m src2' 0) 0 1)
  else if (length l2 =? 0)%nat then
    Done (set_next (set_current m src1' 0) 1 0)
  else
    s1 ← access (data l1 !! 0%nat);
    s2 ← access (data l2 !! 0%nat);
    if uptime s1 <? uptime s2 then
      Done (set_next (set_current m src1' 0) 1 0)
    else
      Done (set_next (set_current m src2' 0) 0 1).

(** Returns the error code, the iterator afterwards and the value of
    [*sample] afterwards ([sample] is left alone at the end of the
    iteration). *)
Definition merge_iterate (h : gmap Z temperature_list_t)
    (m : merge_iterator_t) (sample : sample_ptr)
  : outcome (error_e * merge_iterator_t * sample_ptr) :=
  if current_list m =? NULL then Done (E_END_OF_ITER, m, sample)
  else
    let sample := (current_list m, current_index m) in
    l1 ← read_list h (src1 m);
    l2 ← read_list h (src2 m);
    let at_src1_end := (next_src1_index m =? length l1)%nat in
    let at_src2_end := (next_src2_index m =? length l2)%nat in
    if at_src1_end && at_src2_end then
      Done (E_SUCCESS, set_current m NULL (current_index m), sample)
    else if at_src1_end then
      Done (E_SUCCESS,
            set_next (set_current m (src2 m) (next_src2_index m))
                     (next_src1_index m) (S (next_src2_index m)),
            sample)
    else if at_src2_end then
      Done (E_SUCCESS,
            set_next (set_current m (src1 m) (next_src1_index m))
                     (S (next_src1_index m)) (next_src2_index m),
            sample)
    else
      s1 ← access (data l1 !! next_src1_index m);
      s2 ← access (data l2 !! next_src2_index m);
      if uptime s1 <? uptime s2 then
        Done (E_SUCCESS,
              set_next (set_current m (src1 m) (next_src1_index m))
                       (S (next_src1_index m)) (next_src2_index m),
              sample)
      else
        Done (E_SUCCESS,
              set_next (set_current m (src2 m) (next_src2_index m))
                       (next_src1_index m) (S (next_src2_index m)),
              sample).

(** *** CompactionEngine *)

(** The local array [merged] and the local iterator are not initialised by
    the C code; no cell or field is read before it is written, so the
    embedding starts them from zeroes. *)
Definition merged_init : list temperature_sample_t := replicate N zero_sample.
Definition iterator_init : merge_iterator_t :=
  {| src1 := NULL; src2 := NULL; current_list := NULL; current_index := 0;
     next_src1_index := 0; next_src2_index := 0 |}.

(** The [while (true)] loop of [merge_without_decimation]. *)
Fixpoint drain_loop (fuel : nat) (h : gmap Z temperature_list_t) (dest : ptr)
    (iterator : merge_iterator_t) (sample : sample_ptr)
    (merged : list temperature_sample_t) (index : nat)
  : outcome (error_e * gmap Z temperature_list_t) :=
  match fuel with
  | O => OutOfFuel
  | S fuel =>
    '(err, iterator, sample) ← merge_iterate h iterator sample;
    match err with
    | E_END_OF_ITER =>
      d ← read_list h dest;
      if (index <=? N)%nat then
        Done (E_SUCCESS,
              <[dest := {| data := memmove_samples (data d) merged index;
                           length := index |}]> h)
      else Undefined
    | E_SUCCESS =>
      s ← read_sample h sample;
      if (index <? N)%nat then
        drain_loop fuel h dest iterator sample (<[index := s]> merged) (S index)
      else Undefined
    | _ => Done (E_ERROR, h)
    end
  end.

Definition merge_without_decimation (fuel : nat)
    (h : gmap Z temperature_list_t) (src1' src2' dest : ptr)
  : outcome (error_e * gmap Z temperature_list_t) :=
  if (src1' =? NULL) || (src2' =? NULL) || (dest =? NULL) then
    Done (E_NULL_PTR, h)
  else
    iterator ← init_merge_iterator h iterator_init src1' src2';
    drain_loop fuel h dest iterator NULL_sample merged_init 0.

(** The [while (merge_index < CONFIG_TEMPERATURE_LOGGER_BUFFER_SIZE)] loop
    of [merge_with_decimation]. *)
Fixpoint decimation_loop (fuel : nat) (h : gmap Z temperature_list_t)
    (dest : ptr) (sample_base_period long_periods_needed : Z)
    (iterator : merge_iterator_t) (prev current : sample_ptr)
    (merged : list temperature_sample_t) (merge_index : nat)
    (merge_uptime : Z)
  : outcome (error_e * gmap Z temperature_list_t) :=
  match fuel with
  | O => OutOfFuel
  | S fuel =>
    if (merge_index <? N)%nat then
      p ← read_sample h prev;
      in_range ← (if uptime p <=? merge_uptime then
                    c ← read_sample h current;
                    Done (merge_uptime <=? uptime c)
                  else Done false);
      if in_range : bool then
        p ← read_sample h prev;
        c ← read_sample h current;
        sample ← interpolate p c merge_uptime;
        let merged := <[merge_index := sample]> merged in
        let merge_index := S merge_index in
        let merge_uptime :=
          wrap_u32 (merge_uptime +
                    wrap_u32 (sample_base_period +
                              (if Z.of_nat merge_index <=? long_periods_needed
                               then 1 else 0))) in
        decimation_loop fuel h dest sample_base_period long_periods_needed
          iterator prev current merged merge_index merge_uptime
      else
        let prev := current in
        '(err, iterator, current) ← merge_iterate h iterator current;
        match err with
        | E_SUCCESS =>
          decimation_loop fuel h dest sample_base_period long_periods_needed
            iterator prev current merged merge_index merge_uptime
        | _ => Done (E_ERROR, h)
        end
    else
      d ← read_list h dest;
      Done (E_SUCCESS,
            <[dest := {| data := memmove_samples (data d) merged N;
                         length := N |}]> h)
  end.

(** [src->data[src->length - 1]]: the index is computed in [size_t], so an
    empty list reads far outside the array. *)
Definition last_sample (l : temperature_list_t) : outcome temperature_sample_t :=
  match length l with
  | O => Undefined
  | S k => access (data l !! k)
  end.

Definition merge_with_decimation (fuel : nat)
    (h : gmap Z temperature_list_t) (src1' src2' dest : ptr)
  : outcome (error_e * gmap Z temperature_list_t) :=
  if (src1' =? NULL) || (src2' =? NULL) || (dest =? NULL) then
    Done (E_NULL_PTR, h)
  else
    l1 ← read_list h src1';
    l2 ← read_list h src2';
    f1 ← access (data l1 !! 0%nat);
    f2 ← access (data l2 !! 0%nat);
    let start_uptime := Z.min (uptime f1) (uptime f2) in
    e1 ← last_sample l1;
    e2 ← last_sample l2;
    let end_uptime := Z.max (uptime e1) (uptime e2) in
    let merge_duration := wrap_u32 (end_uptime - start_uptime) in
    let divisor := wrap_u32 (Z.of_nat N - 1) in
    if divisor =? 0 then Undefined
    else
      let sample_base_period := merge_duration / divisor in
      let long_periods_needed := merge_duration mod divisor in
      iterator ← init_merge_iterator h iterator_init src1' src2';
      '(_, iterator, prev) ← merge_iterate h iterator NULL_sample;
      '(_, iterator, current) ← merge_iterate h iterator NULL_sample;
      decimation_loop fuel h dest sample_base_period long_periods_needed
        iterator prev current merged_init 0 start_uptime.

(** The dispatcher.  [TRIPLE_LOCK] and [TRIPLE_UNLOCK] bracket the body;
    see [Module Lock] for the order in which they take the three mutexes. *)
Definition merge_temperature_lists (fuel : nat)
    (h : gmap Z temperature_list_t) (src1' src2' dest : ptr)
  : outcome (error_e * gmap Z temperature_list_t) :=
  if (src1' =? NULL) || (src2' =? NULL) || (dest =? NULL) then
    Done (E_NULL_PTR, h)
  else
    l1 ← read_list h src1';
    l2 ← read_list h src2';
    if (length l1 + length l2 <=? N)%nat then
      merge_without_decimation fuel h src1' src2' dest
    else
      merge_with_decimation fuel h src1' src2' dest.

End Logger.

(** ** Ordered multi-lock ([app/lock.h]) *)

Module Lock.

(** A mutex is identified by its address, [(uintptr_t)lock]. *)
Inductive event : Set :=
| k_mutex_lock (lock : Z)
| k_mutex_unlock (lock : Z).

Definition DOUBLE_LOCK (lock1 lock2 : Z) : list event :=
  if lock1 <? lock2 then [k_mutex_lock lock1; k_mutex_lock lock2]
  else [k_mutex_lock lock2; k_mutex_lock lock1].

Definition DOUBLE_UNLOCK (lock1 lock2 : Z) : list event :=
  if lock1 <? lock2 then [k_mutex_unlock lock2; k_mutex_unlock lock1]
  else [k_mutex_unlock lock1; k_mutex_unlock lock2].

(** The body of the inner loop: swap [locks[j]] and [locks[j + 1]] when
    they are out of order. *)
Definition compare_swap (locks : list Z) (j : nat) : list Z :=
  match locks !! j, locks !! S j with
  | Some a, Some b =>
    if a >? b then <[S j := a]> (<[j := b]> locks) else locks
  | _, _ => locks
  end.

(** [for (i = 0; i < 2; i++) for (j = 0; j < 2 - i; j++) ...] *)
Definition bubble_sort (locks : list Z) : list Z :=
  foldl (fun locks i => foldl compare_swap locks (seq 0 (2 - i)))
        locks (seq 0 2).

Definition TRIPLE_LOCK (lock1 lock2 lock3 : Z) : list event :=
  match bubble_sort [lock1; lock2; lock3] with
  | [l0; l1; l2] => [k_mutex_lock l0; k_mutex_lock l1; k_mutex_lock l2]
  | _ => []
  end.

Definition TRIPLE_UNLOCK (lock1 lock2 lock3 : Z) : list event :=
  match bubble_sort [lock1; lock2; lock3] with
  | [l0; l1; l2] => [k_mutex_unlock l2; k_mutex_unlock l1; k_mutex_unlock l0]
  | _ => []
  end.

End Lock.

(** ** Vocabulary of the statements *)

(** The cells of a list that are in use. *)
Definition samples (l : temperature_list_t) : list temperature_sample_t :=
  take (length l) (data l).

Definition by_uptime (a b : temperature_sample_t) : Prop :=
  uptime a <= uptime b.

(** The values that the C types of a sample can hold. *)
Definition typed_sample (s : temperature_sample_t) : Prop :=
  in_s16 (temperature s) /\ in_u32 (uptime s).

(** A list object of capacity [N]: the array has [N] cells of the right
    types and [length] does not exceed the capacity. *)
Definition wf_list (N : nat) (l : temperature_list_t) : Prop :=
  List.length (data l) = N /\ (length l <= N)%nat /\
  Forall typed_sample (data l).

(** [p] is a valid, non-null pointer to the list object [l]. *)
Definition points_to (h : gmap Z temperature_list_t) (p : ptr)
    (l : temperature_list_t) : Prop :=
  p <> NULL /\ h !! p = Some l.

(** Two-way merge by a key; the second list wins ties. *)
Fixpoint merge_by {A : Type} (key : A -> Z) (xs : list A) : list A -> list A :=
  fix merge_right (ys : list A) : list A :=
    match xs, ys with
    | [], _ => ys
    | _, [] => xs
    | x :: xs', y :: ys' =>
      if key x <? key y then x :: merge_by key xs' ys
      else y :: merge_right ys'
    end.

(** The cells of [xs] paired with their addresses, [k] being the index of
    the first. *)
Fixpoint cells_from (p : ptr) (xs : list temperature_sample_t) (k : nat)
  : list (sample_ptr * temperature_sample_t) :=
  match xs with
  | [] => []
  | x :: xs => ((p, k), x) :: cells_from p xs (S k)
  end.

(** The cells in use of the list object at [p], from index [k] on. *)
Definition cells (p : ptr) (l : temperature_list_t) (k : nat)
  : list (sample_ptr * temperature_sample_t) :=
  cells_from p (drop k (samples l)) k.

Definition cell_uptime (c : sample_ptr * temperature_sample_t) : Z :=
  uptime c.2.

(** The float [f] is the normal single-precision representation of the
    non-zero integer [z], which has fewer than 24 bits: a 24-bit mantissa
    [m] and an exponent [e] between -23 and 0 with [m * 2^e = |z|]. *)
Definition f32_holds (f : spec_float) (z : Z) : Prop :=
  match f with
  | S754_finite s m e =>
    s = (z <? 0) /\ Zpos (digits2_pos m) = 24 /\ -23 <= e <= 0 /\
    Zpos m = Z.abs z * 2 ^ (- e)
  | _ => False
  end.

(** [f] is a normal float: a finite value with a full 24-bit mantissa and
    an exponent between [lo] and [hi]. *)
Definition f32_normal (f : spec_float) (lo hi : Z) : Prop :=
  match f with
  | S754_finite s m e => Zpos (digits2_pos m) = 24 /\ lo <= e <= hi
  | _ => False
  end.

(** The iterator [m] over the list objects [l1] at [p1] and [l2] at [p2]
    has the cells [pending] left to hand out, in this order. *)
Definition iterator_pending (h : gmap Z temperature_list_t) (p1 p2 : ptr)
    (l1 l2 : temperature_list_t) (m : merge_iterator_t)
    (pending : list (sample_ptr * temperature_sample_t)) : Prop :=
  src1 m = p1 /\ src2 m = p2 /\
  match pending with
  | [] => current_list m = NULL
  | c :: rest =>
    current_list m <> NULL /\
    c.1 = (current_list m, current_index m) /\
    read_sample h c.1 = Done c.2 /\
    (next_src1_index m <= length l1)%nat /\
    (next_src2_index m <= length l2)%nat /\
    rest = merge_by cell_uptime (cells p1 l1 (next_src1_index m))
                                (cells p2 l2 (next_src2_index m))
  end.

(** The [k]-th target timestamp of a decimation. *)
Definition target (start_uptime sample_base_period long_periods_needed : Z)
    (k : nat) : Z :=
  start_uptime + Z.of_nat k * sample_base_period
  + Z.min (Z.of_nat k) long_periods_needed.

(** Calling [merge_iterate] until the end of the iteration and collecting
    the pointers it hands out. *)
Fixpoint drain_pointers (fuel : nat) (h : gmap Z temperature_list_t)
    (iterator : merge_iterator_t) : outcome (list sample_ptr) :=
  match fuel with
  | O => OutOfFuel
  | S fuel =>
    '(err, iterator, sample) ← merge_iterate h iterator NULL_sample;
    match err with
    | E_SUCCESS =>
      rest ← drain_pointers fuel h iterator;
      Done (sample :: rest)
    | _ => Done []
    end
  end.

(** A store that keeps one record per id and never fails, for examples. *)
#[global] Instance table_store : NvsStore (gmap Z temperature_list_t) := {
  nvs_read fs id buf len :=
    match fs !! id with
    | Some r => (len, r)
    | None => (- ENOENT, buf)
    end;
  nvs_write fs id buf len := (len, <[id := buf]> fs)
}.

(** A store that reads like [table_store] and has no room left: every
    write fails with [-ENOSPC] and changes nothing.  For examples. *)
Definition full_store : NvsStore (gmap Z temperature_list_t) := {|
  nvs_read fs id buf len :=
    match fs !! id with
    | Some r => (len, r)
    | None => (- ENOENT, buf)
    end;
  nvs_write fs id buf len := (-28, fs)
|}.

(** A store whose every access fails with [-EIO], for examples. *)
Definition failing_store : NvsStore unit := {|
  nvs_read fs id buf len := (-5, buf);
  nvs_write fs id buf len := (-5, fs)
|}.

(** ** The sampling task ([perform_sampling_task] and what it calls)

    The handler of the periodic work item belongs to the revision of
    [temperature-logger.c] in which the handler holds the two list mutexes
    for its whole run and the list operations take no locks themselves.
    The sequential embedding has no lock brackets in either revision, so
    [reset_temperature_list], [load_temperature_list],
    [store_temperature_list], [append_temperature_sample] and the three
    merge functions above are the embedding of both.  That revision's
    [init_merge_iterator] and [merge_iterate] also test the addresses of
    the caller's local iterator and cursor against [NULL], and its
    [interpolate] writes through a result pointer; the latter is embedded
    as [Revised.interpolate] below. *)

Definition f32_add : spec_float -> spec_float -> spec_float := SFadd 24 128.

(** [struct sensor_value] ([zephyr/drivers/sensor.h]): the integer part of
    a reading and its fractional part in millionths. *)
Record sensor_value : Set := {
  val1 : Z;
  val2 : Z
}.

(** What the sensor driver and the kernel clock answer during one call of
    [get_temperature_sample]: the return value of [sensor_sample_fetch],
    the milliseconds of [k_uptime_get], and the return value of
    [sensor_channel_get] with the reading it stores. *)
Record sensor_io : Set := {
  sensor_sample_fetch : Z;
  k_uptime_get : Z;
  sensor_channel_get : Z * sensor_value
}.

(** [get_uptime_in_minutes] ([app/src/time.c]),
    [(sys_minutes_t)(k_uptime_get() / 1000 / 60)]: the divisions are those
    of [int64_t], the cast narrows to the width of a timestamp. *)
Definition get_uptime_in_minutes (io : sensor_io) : sys_minutes_t :=
  wrap_u32 (k_uptime_get io ÷ 1000 ÷ 60).

(** The arithmetic is that of [float]; the cast to [temperature_t] is
    [s16_of_f32], as in [interpolate]. *)
Definition sensor_value_to_temperature (v : sensor_value)
  : outcome temperature_t :=
  let whole := f32_of_Z (val1 v) in
  let fractional := f32_div (f32_of_Z (val2 v)) (f32_of_Z 1000000) in
  let float_temperature := f32_add whole fractional in
  s16_of_f32 (f32_mul float_temperature (f32_of_Z 16)).

(** [t] is the sample object behind the pointer, [None] for [NULL]; the
    result carries the object as the call leaves it. *)
Definition get_temperature_sample (io : sensor_io)
    (t : option temperature_sample_t)
  : outcome (error_e * option temperature_sample_t) :=
  match t with
  | None => Done (E_NULL_PTR, None)
  | Some t =>
    let result := sensor_sample_fetch io in
    let t := {| temperature := temperature t;
                uptime := get_uptime_in_minutes io |} in
    if negb (result =? 0) then Done (E_ERROR, Some t)
    else
      let '(result, reading) := sensor_channel_get io in
      if negb (result =? 0) then Done (E_ERROR, Some t)
      else
        temperature' ← sensor_value_to_temperature reading;
        Done (E_SUCCESS,
              Some {| temperature := temperature'; uptime := uptime t |})
  end.

Module Revised.

(** [interpolate(t1, t2, result)]: the caller has set [result->uptime]. *)
Definition interpolate (t1 t2 result : option temperature_sample_t)
  : outcome (error_e * option temperature_sample_t) :=
  match t1, t2, result with
  | Some t1, Some t2, Some result =>
    if uptime t1 =? uptime t2 then
      Done (E_SUCCESS,
            Some {| temperature :=
                      wrap_s16 ((temperature t1 + temperature t2) ÷ 2);
                    uptime := uptime result |})
    else
      let earlier := if uptime t1 <? uptime t2 then t1 else t2 in
      let later := if uptime t1 <? uptime t2 then t2 else t1 in
      let d_temp := temperature t2 - temperature t1 in
      let d_uptime := wrap_u32 (uptime later - uptime earlier) in
      let d_uptime_to_result := wrap_u32 (uptime result - uptime earlier) in
      d_temp_to_result ←
        s16_of_f32 (f32_div (f32_mul (f32_of_Z d_temp)
                                     (f32_of_Z d_uptime_to_result))
                            (f32_of_Z d_uptime));
      Done (E_SUCCESS,
            Some {| temperature :=
                      wrap_s16 (temperature earlier + d_temp_to_result);
                    uptime := uptime result |})
  | _, _, _ => Done (E_NULL_PTR, result)
  end.

End Revised.

Section SamplingTask.

Variable N : nat.
Variable offsetof_lock : Z.
Context {nvs_fs : Type} `{!NvsStore nvs_fs}.

(** [&t_data.temperature_list] and [&t_data.scratch_temperature_list] *)
Variables temperature_list scratch_temperature_list : ptr.

Definition temperature_list_is_full (h : gmap Z temperature_list_t) (t : ptr)
  : outcome bool :=
  if t =? NULL then Done false
  else l ← read_list h t; Done (length l =? N)%nat.

(** The handler returns nothing; the embedding returns the last value of
    its local [err], which the handler logs when it is not [E_SUCCESS]
    ([E_SUCCESS] standing for the unset [err] of a run that skips the
    compaction).  [DOUBLE_LOCK]/[DOUBLE_UNLOCK] bracket the body and the
    work item is rescheduled 30 seconds later on every path; the local
    [sample] starts from zeroes, no field being read before it is
    written. *)
Definition perform_sampling_task (fuel : nat) (io : sensor_io) (fs : nvs_fs)
    (h : gmap Z temperature_list_t)
  : outcome (error_e * gmap Z temperature_list_t * nvs_fs) :=
  full ← temperature_list_is_full h temperature_list;
  '(err, h, fs) ←
    (if full : bool then
       '(err, h, fs) ←
         load_temperature_list N offsetof_lock fs h scratch_temperature_list;
       match err with
       | E_SUCCESS =>
         '(err, h) ←
           merge_temperature_lists N fuel h temperature_list
             scratch_temperature_list scratch_temperature_list;
         match err with
         | E_SUCCESS =>
           '(err, fs) ←
             store_temperature_list offsetof_lock fs h scratch_temperature_list;
           match err with
           | E_SUCCESS =>
             '(err, h) ← reset_temperature_list N h temperature_list;
             Done (err, h, fs)
           | _ => Done (err, h, fs)
           end
         | _ => Done (err, h, fs)
         end
       | _ => Done (err, h, fs)
       end
     else Done (E_SUCCESS, h, fs));
  match err with
  | E_SUCCESS =>
    sampled ← get_temperature_sample io (Some zero_sample);
    match sampled with
    | (E_SUCCESS, Some sample) =>
      '(err, h) ← append_temperature_sample N h temperature_list sample;
      Done (err, h, fs)
    | (err, _) => Done (err, h, fs)
    end
  | _ => Done (err, h, fs)
  end.

End SamplingTask.

(** Appending the samples [xs] one after the other, up to the first call
    that does not return [E_SUCCESS]. *)
Fixpoint append_samples (N : nat) (h : gmap Z temperature_list_t) (t : ptr)
    (xs : list temperature_sample_t)
  : outcome (error_e * gmap Z temperature_list_t) :=
  match xs with
  | [] => Done (E_SUCCESS, h)
  | x :: xs =>
    '(err, h) ← append_temperature_sample N h t x;
    match err with
    | E_SUCCESS => append_samples N h t xs
    | _ => Done (err, h)
    end
  end.

(** ** Printable strings ([app/src/string.c]) *)

(** [byte] is a [uint8_t]. *)
Definition is_printable_ascii_char (byte : Z) : bool :=
  (32 <=? byte) && (byte <=? 126).

(** The [for] loop of [is_printable_ascii_string], [i] being the index and
    [remaining] the number of indices left below [buffer_len]. *)
Fixpoint is_printable_ascii_string_loop (buffer : list Z) (i remaining : nat)
  : outcome bool :=
  match remaining with
  | O => Done false
  | S remaining =>
    b ← access (buffer !! i);
    if b =? 0 then Done true
    else if negb (is_printable_ascii_char b) then Done false
    else is_printable_ascii_string_loop buffer (S i) remaining
  end.

(** [buffer] is the array behind the pointer, [None] for [NULL]. *)
Definition is_printable_ascii_string (buffer : option (list Z))
    (buffer_len : nat) : outcome bool :=
  match buffer with
  | None => Done false
  | Some buffer => is_printable_ascii_string_loop buffer 0 buffer_len
  end.

(** * Verification *)

(** ** Running the outcome monad *)

Lemma bind_Done {A B : Type} (f : A -> outcome B) (a : A) :
  Done a ≫= f = f a.
Proof. reflexivity. Qed.

Lemma bind_Done_inv {A B : Type} (f : A -> outcome B) (x : outcome A) (b : B) :
  x ≫= f = Done b -> exists a, x = Done a /\ f a = Done b.
Proof. destruct x as [a| |]; simpl; intros E; try discriminate. eauto. Qed.

Lemma read_list_points_to h p l : points_to h p l -> read_list h p = Done l.
Proof.
  intros [Hp Hl]. unfold read_list.
  destruct (Z.eqb_spec p NULL) as [->|_]; [done|]. by rewrite Hl.
Qed.

Lemma points_to_not_null h p l : points_to h p l -> (p =? NULL) = false.
Proof. intros [Hp _]. by apply Z.eqb_neq. Qed.

(** ** BoundedSampleList *)

(** C6.  Appending to a list that holds [N] samples fails with [E_NOBUFS]
    and leaves the heap, hence the list, as it was; appending to a list
    that holds fewer samples succeeds, writes the sample at position
    [length], increments [length] by one and leaves every other cell and
    every other object alone. *)
Theorem append_temperature_sample_full_or_room
    (N : nat) (h : gmap Z temperature_list_t) (list : ptr)
    (l : temperature_list_t) (sample : temperature_sample_t) :
  points_to h list l -> wf_list N l ->
  (length l = N ->
   append_temperature_sample N h list sample = Done (E_NOBUFS, h)) /\
  ((length l < N)%nat ->
   exists l',
     append_temperature_sample N h list sample
       = Done (E_SUCCESS, <[list := l']> h) /\
     length l' = S (length l) /\
     data l' !! length l = Some sample /\
     (forall i, i <> length l -> data l' !! i = data l !! i) /\
     samples l' = samples l ++ [sample]).
Proof.
  intros Hp (Hlen & Hle & _). unfold append_temperature_sample.
  rewrite (points_to_not_null _ _ _ Hp), (read_list_points_to _ _ _ Hp).
  rewrite bind_Done. split.
  - intros ->. by rewrite Nat.eqb_refl.
  - intros Hlt.
    destruct (Nat.eqb_spec (length l) N) as [?|_]; [lia|].
    destruct (Nat.ltb_spec (length l) N) as [_|?]; [|lia].
    eexists. split; [reflexivity|]. simpl. split; [done|].
    split; [apply list_lookup_insert_eq; lia|].
    split; [intros i Hi; by apply list_lookup_insert_ne|].
    unfold samples; simpl.
    rewrite (take_S_r _ _ sample) by (apply list_lookup_insert_eq; lia).
    f_equal. apply take_insert_ge. lia.
Qed.

Lemma append_temperature_sample_full_or_room_witness :
  let l := {| data := [zero_sample; zero_sample]; length := 1 |} in
  let h : gmap Z temperature_list_t := <[16 := l]> ∅ in
  let s := {| temperature := 336; uptime := 7 |} in
  points_to h 16 l /\ wf_list 2 l /\
  (length l = 2%nat ->
   append_temperature_sample 2 h 16 s = Done (E_NOBUFS, h)) /\
  ((length l < 2)%nat ->
   exists l',
     append_temperature_sample 2 h 16 s = Done (E_SUCCESS, <[16 := l']> h) /\
     length l' = S (length l) /\
     data l' !! length l = Some s /\
     (forall i, i <> length l -> data l' !! i = data l !! i) /\
     samples l' = samples l ++ [s]).
Proof.
  intros l h s.
  assert (Hp : points_to h 16 l) by (split; [discriminate | reflexivity]).
  assert (Hw : wf_list 2 l).
  { split; [reflexivity|]. split; [simpl; lia|].
    repeat constructor; simpl; lia. }
  split; [exact Hp|]. split; [exact Hw|].
  exact (append_temperature_sample_full_or_room 2 h 16 l s Hp Hw).
Defined.

(** ** Ordered multi-lock *)

Lemma bubble_sort_three (a b c : Z) :
  exists x y z,
    Lock.bubble_sort [a; b; c] = [x; y; z] /\
    x <= y <= z /\ Permutation [x; y; z] [a; b; c].
Proof.
  unfold Lock.bubble_sort, Lock.compare_swap; simpl.
  destruct (Z.gtb_spec a b); simpl;
    repeat match goal with
           | |- context [?u >? ?v] => destruct (Z.gtb_spec u v); simpl
           end;
    do 3 eexists; (split; [reflexivity|]); (split; [lia|]);
    first [ reflexivity
          | apply perm_swap
          | apply perm_skip, perm_swap
          | (eapply perm_trans; [apply perm_swap|]; apply perm_skip, perm_swap)
          | (eapply perm_trans; [apply perm_skip, perm_swap|]; apply perm_swap)
          | (eapply perm_trans; [apply perm_swap|];
             eapply perm_trans; [apply perm_skip, perm_swap|]; apply perm_swap)
          | lia ].
Qed.

(** C9.  For three locks with distinct addresses, in whatever order they
    are passed, [TRIPLE_LOCK] takes them in strictly ascending order of
    address and [TRIPLE_UNLOCK] gives them back in the reverse order; the
    three locks taken are the three passed.  Hence the sequence does not
    depend on the order of the arguments, and of two locks of the triple
    the one with the smaller address is always taken first. *)
Theorem TRIPLE_LOCK_ascending (lock1 lock2 lock3 : Z) :
  lock1 <> lock2 -> lock1 <> lock3 -> lock2 <> lock3 ->
  exists a b c,
    a < b < c /\
    Permutation [a; b; c] [lock1; lock2; lock3] /\
    Lock.TRIPLE_LOCK lock1 lock2 lock3
      = [Lock.k_mutex_lock a; Lock.k_mutex_lock b; Lock.k_mutex_lock c] /\
    Lock.TRIPLE_UNLOCK lock1 lock2 lock3
      = [Lock.k_mutex_unlock c; Lock.k_mutex_unlock b; Lock.k_mutex_unlock a] /\
    (forall m1 m2 m3, Permutation [m1; m2; m3] [lock1; lock2; lock3] ->
       Lock.TRIPLE_LOCK m1 m2 m3 = Lock.TRIPLE_LOCK lock1 lock2 lock3 /\
       Lock.TRIPLE_UNLOCK m1 m2 m3 = Lock.TRIPLE_UNLOCK lock1 lock2 lock3) /\
    (forall (i j : nat) x y,
       Lock.TRIPLE_LOCK lock1 lock2 lock3 !! i = Some (Lock.k_mutex_lock x) ->
       Lock.TRIPLE_LOCK lock1 lock2 lock3 !! j = Some (Lock.k_mutex_lock y) ->
       x < y -> (i < j)%nat).
Proof.
  intros H12 H13 H23.
  destruct (bubble_sort_three lock1 lock2 lock3) as (a & b & c & E & Hle & HP).
  assert (Hnd : NoDup [a; b; c]).
  { rewrite HP. repeat constructor; rewrite ?elem_of_cons, ?elem_of_nil; tauto. }
  assert (Hlt : a < b < c).
  { apply NoDup_cons in Hnd as [Ha Hnd]. apply NoDup_cons in Hnd as [Hb _].
    rewrite !elem_of_cons in Ha, Hb. lia. }
  exists a, b, c. unfold Lock.TRIPLE_LOCK, Lock.TRIPLE_UNLOCK. rewrite E.
  split; [exact Hlt|]. split; [exact HP|]. split; [done|]. split; [done|].
  split.
  - intros m1 m2 m3 HP'.
    destruct (bubble_sort_three m1 m2 m3) as (x & y & z & E' & Hle' & HP2).
    rewrite E'.
    assert (HP3 : Permutation [x; y; z] [a; b; c]).
    { rewrite HP2, HP'. by symmetry. }
    assert (Hin : forall u, u ∈ [x; y; z] <-> u ∈ [a; b; c]).
    { intros u. by rewrite HP3. }
    pose proof (proj1 (Hin x)) as Hx. pose proof (proj1 (Hin z)) as Hz.
    pose proof (proj2 (Hin a)) as Ha. pose proof (proj2 (Hin b)) as Hb.
    pose proof (proj2 (Hin c)) as Hc.
    rewrite !elem_of_cons, elem_of_nil in Hx, Hz, Ha, Hb, Hc.
    assert (x = a) as -> by (clear Hz Hb Hc; lia).
    assert (z = c) as -> by (clear Hx Ha Hb; lia).
    assert (y = b) as -> by (clear Hx Hz Ha Hc; lia).
    done.
  - intros i j x y Hi Hj Hxy.
    destruct i as [|[|[|i]]]; destruct j as [|[|[|j]]];
      simpl in Hi, Hj; simplify_eq; lia.
Qed.

Lemma TRIPLE_LOCK_ascending_witness :
  exists a b c,
    a < b < c /\
    Permutation [a; b; c] [48; 16; 32] /\
    Lock.TRIPLE_LOCK 48 16 32
      = [Lock.k_mutex_lock a; Lock.k_mutex_lock b; Lock.k_mutex_lock c] /\
    Lock.TRIPLE_UNLOCK 48 16 32
      = [Lock.k_mutex_unlock c; Lock.k_mutex_unlock b; Lock.k_mutex_unlock a] /\
    (forall m1 m2 m3, Permutation [m1; m2; m3] [48; 16; 32] ->
       Lock.TRIPLE_LOCK m1 m2 m3 = Lock.TRIPLE_LOCK 48 16 32 /\
       Lock.TRIPLE_UNLOCK m1 m2 m3 = Lock.TRIPLE_UNLOCK 48 16 32) /\
    (forall (i j : nat) x y,
       Lock.TRIPLE_LOCK 48 16 32 !! i = Some (Lock.k_mutex_lock x) ->
       Lock.TRIPLE_LOCK 48 16 32 !! j = Some (Lock.k_mutex_lock y) ->
       x < y -> (i < j)%nat).
Proof. apply (TRIPLE_LOCK_ascending 48 16 32); lia. Defined.

(** ** Persistence *)

(** The cases of [load_temperature_list] on a valid list.  It reports
    [E_SUCCESS] in exactly two cases: the store read the whole persisted
    region ([offsetof_lock] bytes), and then the list is what was read; or
    the store answered [-ENOENT], and then the list is reset to the empty
    list and that empty record is passed to [nvs_write], whose answer is
    dropped: the store afterwards is the store after this write, in which
    the key is present when the store accepted the write and reads back
    what it accepts.  Every other answer of the read (short, long or
    failed) gives [E_ERROR] and leaves the store alone. *)
Lemma load_temperature_list_success_cases
    {nvs_fs : Type} `{!NvsStore nvs_fs} (N : nat) (offsetof_lock : Z)
    (fs : nvs_fs) (h : gmap Z temperature_list_t) (t : ptr)
    (buf : temperature_list_t) :
  points_to h t buf ->
  let answer := nvs_read fs NVS_KEY_TEMPERATURE_DATA buf offsetof_lock in
  let empty := {| data := replicate N zero_sample; length := 0 |} in
  let written := nvs_write fs NVS_KEY_TEMPERATURE_DATA empty offsetof_lock in
  exists err h' fs',
    load_temperature_list N offsetof_lock fs h t = Done (err, h', fs') /\
    (err = E_SUCCESS <-> answer.1 = offsetof_lock \/ answer.1 = - ENOENT) /\
    (err <> E_SUCCESS -> err = E_ERROR /\ fs' = fs) /\
    (answer.1 = - ENOENT ->
       h' = <[t := empty]> h /\ samples empty = [] /\ fs' = written.2 /\
       (forall buf',
          written.1 = offsetof_lock ->
          (forall fs0 id r len r',
             (nvs_write fs0 id r len).1 = len ->
             nvs_read (nvs_write fs0 id r len).2 id r' len = (len, r)) ->
          nvs_read fs' NVS_KEY_TEMPERATURE_DATA buf' offsetof_lock
            = (offsetof_lock, empty))) /\
    (answer.1 <> - ENOENT -> h' = <[t := answer.2]> h /\ fs' = fs).
Proof.
  intros Hp answer empty written. unfold load_temperature_list.
  rewrite (points_to_not_null _ _ _ Hp), (read_list_points_to _ _ _ Hp).
  rewrite bind_Done. fold answer. destruct answer as [bytes_read buf1] eqn:Ea.
  simpl.
  assert (Hp1 : points_to (<[t := buf1]> h) t buf1).
  { split; [apply Hp|]. apply lookup_insert_eq. }
  destruct (Z.eqb_spec bytes_read (- ENOENT)) as [->|Hne].
  - unfold reset_temperature_list.
    rewrite (points_to_not_null _ _ _ Hp1), (read_list_points_to _ _ _ Hp1).
    rewrite !bind_Done, insert_insert_eq. fold empty.
    assert (Hp2 : points_to (<[t := empty]> h) t empty).
    { split; [apply Hp|]. apply lookup_insert_eq. }
    rewrite (read_list_points_to _ _ _ Hp2), bind_Done. fold written.
    destruct written as [rc fs1] eqn:Ew. simpl.
    exists E_SUCCESS, (<[t := empty]> h), fs1.
    split; [done|]. split; [tauto|]. split; [done|]. split; [|done].
    intros _. split; [done|]. split; [done|]. split; [done|].
    intros buf' Hrc Hlaw.
    specialize (Hlaw fs NVS_KEY_TEMPERATURE_DATA empty offsetof_lock buf').
    fold written in Hlaw. rewrite Ew in Hlaw. simpl in Hlaw. by apply Hlaw.
  - destruct (Z.eqb_spec bytes_read offsetof_lock) as [->|Hne']; simpl.
    + exists E_SUCCESS, (<[t := buf1]> h), fs.
      split; [done|]. split; [tauto|]. split; [done|]. split; [done|]. done.
    + exists E_ERROR, (<[t := buf1]> h), fs.
      split; [done|]. split; [|split; [done|split; done]].
      split; [discriminate|]. intros [?|?]; done.
Qed.

(** On the example store, loading from an empty store succeeds with the
    empty list and leaves the key in the store; a second load reads it
    back. *)
Example load_temperature_list_first_use :
  let buf := {| data := [{| temperature := 5; uptime := 9 |}; zero_sample];
                length := 1 |} in
  let empty := {| data := replicate 2 zero_sample; length := 0 |} in
  let h : gmap Z temperature_list_t := <[16 := buf]> ∅ in
  load_temperature_list 2 20 (∅ : gmap Z temperature_list_t) h 16
  = Done (E_SUCCESS, <[16 := empty]> h,
          <[NVS_KEY_TEMPERATURE_DATA := empty]> ∅) /\
  load_temperature_list 2 20
    (<[NVS_KEY_TEMPERATURE_DATA := empty]> ∅ : gmap Z temperature_list_t) h 16
  = Done (E_SUCCESS, <[16 := empty]> h,
          <[NVS_KEY_TEMPERATURE_DATA := empty]> ∅).
Proof. split; vm_compute; reflexivity. Qed.

(** The example store reads back what it accepts. *)
Lemma table_store_read_after_write
    (fs0 : gmap Z temperature_list_t) id r len r' :
  (nvs_write fs0 id r len).1 = len ->
  nvs_read (nvs_write fs0 id r len).2 id r' len = (len, r).
Proof. intros _. simpl. by rewrite lookup_insert_eq. Qed.

(** C7.  A first load against a store that has no room left: the key is
    absent, the list is reset, the write of the empty record fails with
    [-ENOSPC], and [load_temperature_list] still reports [E_SUCCESS];
    the key is absent afterwards as it was before.  On the same state
    [store_temperature_list] reports the failed write as [E_ERROR]. *)
Theorem load_temperature_list_write_failure_unreported :
  let buf := {| data := [{| temperature := 5; uptime := 9 |}; zero_sample];
                length := 1 |} in
  let empty := {| data := replicate 2 zero_sample; length := 0 |} in
  let h : gmap Z temperature_list_t := <[16 := buf]> ∅ in
  let fs : gmap Z temperature_list_t := ∅ in
  @nvs_read _ full_store fs NVS_KEY_TEMPERATURE_DATA buf 20
    = (- ENOENT, buf) /\
  @nvs_write _ full_store fs NVS_KEY_TEMPERATURE_DATA empty 20 = (-28, fs) /\
  @load_temperature_list 2 20 _ full_store fs h 16
    = Done (E_SUCCESS, <[16 := empty]> h, fs) /\
  @nvs_read _ full_store fs NVS_KEY_TEMPERATURE_DATA empty 20
    = (- ENOENT, empty) /\
  @store_temperature_list 20 _ full_store fs (<[16 := empty]> h) 16
    = Done (E_ERROR, fs).
Proof. repeat split; vm_compute; reflexivity. Qed.

(** ** Interpolator *)

Lemma wrap_s16_id (z : Z) : in_s16 z -> wrap_s16 z = z.
Proof. unfold in_s16, wrap_s16. intros H. rewrite Z.mod_small; lia. Qed.

Lemma wrap_u32_id (z : Z) : in_u32 z -> wrap_u32 z = z.
Proof. unfold in_u32, wrap_u32. intros H. apply Z.mod_small. lia. Qed.

Lemma mean_in_s16 (x y : Z) : in_s16 x -> in_s16 y -> in_s16 ((x + y) ÷ 2).
Proof.
  unfold in_s16. intros Hx Hy.
  destruct (Z_le_gt_dec 0 (x + y)) as [Hs|Hs].
  - rewrite Z.quot_div_nonneg by lia.
    pose proof (Z.div_mod (x + y) 2 ltac:(lia)).
    pose proof (Z.mod_pos_bound (x + y) 2 ltac:(lia)). lia.
  - replace (x + y) with (- (- (x + y))) by lia.
    rewrite Z.quot_opp_l by lia. rewrite Z.quot_div_nonneg by lia.
    pose proof (Z.div_mod (- (x + y)) 2 ltac:(lia)).
    pose proof (Z.mod_pos_bound (- (x + y)) 2 ltac:(lia)). lia.
Qed.

(** A product with a zero factor, divided by anything, truncates to 0. *)
Lemma f32_zero_product_quotient (x y : spec_float) :
  Z_of_f32 (f32_div (f32_mul x (f32_of_Z 0)) y) = 0.
Proof.
  change (f32_of_Z 0) with (S754_zero false).
  destruct x as [sx|sx| |sx mx ex]; simpl;
    destruct y as [sy|sy| |sy my ey]; reflexivity.
Qed.

(** *** Single-precision arithmetic on small integers is exact *)

Lemma digits2_pos_bounds (m : positive) :
  2 ^ (Zpos (digits2_pos m) - 1) <= Zpos m < 2 ^ Zpos (digits2_pos m).
Proof.
  induction m as [m IH|m IH|]; simpl digits2_pos.
  - rewrite Pos2Z.inj_succ.
    replace (Z.succ (Zpos (digits2_pos m)) - 1) with (Z.succ (Zpos (digits2_pos m) - 1)) by lia.
    rewrite !Z.pow_succ_r by lia. lia.
  - rewrite Pos2Z.inj_succ.
    replace (Z.succ (Zpos (digits2_pos m)) - 1) with (Z.succ (Zpos (digits2_pos m) - 1)) by lia.
    rewrite !Z.pow_succ_r by lia. lia.
  - simpl. lia.
Qed.

Lemma digits2_pos_unique (m : positive) (d : Z) :
  2 ^ (d - 1) <= Zpos m < 2 ^ d -> Zpos (digits2_pos m) = d.
Proof.
  intros [Hlo Hhi]. pose proof (digits2_pos_bounds m) as [Blo Bhi].
  assert (0 < d).
  { destruct (Z_lt_le_dec 0 d); [done|].
    assert (2 ^ d <= 2 ^ 0) by (apply Z.pow_le_mono_r; lia). simpl in *. lia. }
  destruct (Z_lt_le_dec (Zpos (digits2_pos m)) d) as [Hlt|Hge].
  - assert (2 ^ Zpos (digits2_pos m) <= 2 ^ (d - 1)) by (apply Z.pow_le_mono_r; lia). lia.
  - destruct (Z_lt_le_dec d (Zpos (digits2_pos m))) as [Hlt|Hge']; [|lia].
    assert (2 ^ d <= 2 ^ (Zpos (digits2_pos m) - 1)) by (apply Z.pow_le_mono_r; lia). lia.
Qed.

Lemma pos_iter_xO (m d : positive) : Zpos (Pos.iter xO m d) = Zpos m * 2 ^ Zpos d.
Proof.
  induction d as [|d IH] using Pos.peano_ind.
  - simpl. lia.
  - rewrite Pos.iter_succ, Pos2Z.inj_xO, IH, Pos2Z.inj_succ, Z.pow_succ_r by lia. lia.
Qed.

Lemma iter_pos_Pos_iter {A : Type} (f : A -> A) (p : positive) (x : A) :
  SpecFloat.iter_pos f p x = Pos.iter f x p.
Proof.
  revert x. induction p as [p IH|p IH|]; intros x; simpl.
  - rewrite !IH. rewrite <- !Pos.iter_swap. done.
  - rewrite !IH. done.
  - done.
Qed.

Lemma shr_1_even (m : Z) : 0 <= m ->
  shr_1 {| shr_m := 2 * m; shr_r := false; shr_s := false |}
  = {| shr_m := m; shr_r := false; shr_s := false |}.
Proof. intros Hm. destruct m as [|p|p]; simpl; done || lia. Qed.

Lemma iter_shr_1_exact (m : Z) (n : positive) : 0 <= m ->
  SpecFloat.iter_pos shr_1 n {| shr_m := m * 2 ^ Zpos n; shr_r := false; shr_s := false |}
  = {| shr_m := m; shr_r := false; shr_s := false |}.
Proof.
  intros Hm. rewrite iter_pos_Pos_iter.
  revert m Hm. induction n as [|n IH] using Pos.peano_ind; intros m Hm.
  - simpl Pos.iter. replace (m * 2 ^ 1) with (2 * m) by lia. by apply shr_1_even.
  - rewrite Pos.iter_succ_r.
    rewrite Pos2Z.inj_succ, Z.pow_succ_r by lia.
    replace (m * (2 * 2 ^ Z.pos n)) with (2 * (m * 2 ^ Z.pos n)) by lia.
    rewrite shr_1_even by (apply Z.mul_nonneg_nonneg; lia). by apply IH.
Qed.

Lemma fexp_f32 (e : Z) : -125 <= e -> fexp 24 128 e = e - 24.
Proof. unfold fexp, emin. lia. Qed.

(** Rounding a mantissa that is a normal 24-bit mantissa followed by [k]
    zero bits is exact. *)
Lemma binary_round_aux_exact (s : bool) (M m' : positive) (e k : Z) :
  0 <= k -> Zpos M = Zpos m' * 2 ^ k -> Zpos (digits2_pos m') = 24 ->
  -149 <= e + k <= 104 ->
  binary_round_aux 24 128 s (Zpos M) e loc_Exact = S754_finite s m' (e + k).
Proof.
  intros Hk HM Hd He.
  pose proof (digits2_pos_bounds m') as Hm'. rewrite Hd in Hm'.
  assert (HdM : Zpos (digits2_pos M) = 24 + k).
  { apply digits2_pos_unique. rewrite HM.
    replace (24 + k - 1) with (23 + k) by lia.
    rewrite !Z.pow_add_r by lia.
    assert (0 < 2 ^ k) by (apply Z.pow_pos_nonneg; lia).
    simpl in Hm'. nia. }
  assert (Hnorm : shr_fexp 24 128 (Zpos m') (e + k) loc_Exact
                  = ({| shr_m := Zpos m'; shr_r := false; shr_s := false |}, e + k)).
  { unfold shr_fexp, shr. simpl Zdigits2. rewrite Hd, fexp_f32 by lia.
    replace (24 + (e + k) - 24 - (e + k)) with 0 by lia. done. }
  assert (Hfirst : shr_fexp 24 128 (Zpos M) e loc_Exact
                   = ({| shr_m := Zpos m'; shr_r := false; shr_s := false |}, e + k)).
  { unfold shr_fexp, shr. simpl Zdigits2. rewrite HdM, fexp_f32 by lia.
    replace (24 + k + e - 24 - e) with k by lia.
    destruct k as [|n|n]; [| |lia].
    - rewrite Z.add_0_r. simpl. f_equal. f_equal. rewrite HM. simpl. lia.
    - simpl shr_record_of_loc. rewrite HM. by rewrite iter_shr_1_exact. }
  unfold binary_round_aux. rewrite Hfirst. simpl. rewrite Hnorm. simpl.
  destruct (Z.leb_spec (e + k) (128 - 24)); [done|lia].
Qed.

Lemma f32_of_Z_holds (z : Z) :
  z <> 0 -> Z.abs z < 2 ^ 24 -> f32_holds (f32_of_Z z) z.
Proof.
  intros Hz Hlt.
  assert (Hgen : forall s a, Zpos a < 2 ^ 24 ->
            exists m e, binary_round 24 128 s a 0 = S754_finite s m e /\
                        Zpos (digits2_pos m) = 24 /\ -23 <= e <= 0 /\
                        Zpos m = Zpos a * 2 ^ (- e)).
  { intros s a Ha. unfold binary_round.
    pose proof (digits2_pos_bounds a) as Hb.
    set (d := Zpos (digits2_pos a)) in *.
    assert (Hd : 1 <= d <= 24).
    { split; [unfold d; lia|].
      destruct (Z_lt_le_dec 24 d); [|done].
      assert (2 ^ 24 <= 2 ^ (d - 1)) by (apply Z.pow_le_mono_r; lia). lia. }
    rewrite Z.add_0_r, fexp_f32 by lia.
    unfold shl_align. replace (d - 24 - 0) with (d - 24) by lia.
    destruct (d - 24) as [|c|c] eqn:Ec; [|lia|].
    - exists a, 0.
      rewrite (binary_round_aux_exact s a a 0 0) by (lia || (fold d; lia)).
      split; [done|]. fold d. repeat split; lia.
    - exists (Pos.iter xO a c), (Zneg c).
      assert (Hmz : Zpos (digits2_pos (Pos.iter xO a c)) = 24).
      { apply digits2_pos_unique. rewrite pos_iter_xO.
        replace (Zpos c) with (24 - d) by lia.
        assert (E1 : 2 ^ (24 - 1) = 2 ^ (d - 1) * 2 ^ (24 - d))
          by (rewrite <- Z.pow_add_r by lia; f_equal; lia).
        assert (E2 : 2 ^ 24 = 2 ^ d * 2 ^ (24 - d))
          by (rewrite <- Z.pow_add_r by lia; f_equal; lia).
        rewrite E1, E2.
        assert (0 < 2 ^ (24 - d)) by (apply Z.pow_pos_nonneg; lia). nia. }
      rewrite (binary_round_aux_exact s _ (Pos.iter xO a c) (Zneg c) 0)
        by (lia || done).
      rewrite Z.add_0_r. split; [done|]. split; [done|]. split; [lia|].
      rewrite pos_iter_xO. f_equal. }
  unfold f32_of_Z, binary_normalize. destruct z as [|a|a]; [done| |].
  - destruct (Hgen false a Hlt) as (m & e & -> & ? & ? & ?). simpl. done.
  - destruct (Hgen true a Hlt) as (m & e & -> & ? & ? & ?). simpl. done.
Qed.

Lemma f32_mul_holds (x y : spec_float) (a b : Z) :
  f32_holds x a -> f32_holds y b -> Z.abs (a * b) < 2 ^ 24 ->
  f32_holds (f32_mul x y) (a * b).
Proof.
  destruct x as [| | |sx mx ex]; try done. destruct y as [| | |sy my ey]; try done.
  intros (Hsx & Hdx & Hex & Hmx) (Hsy & Hdy & Hey & Hmy) Hlt.
  pose proof (digits2_pos_bounds mx) as Bx. rewrite Hdx in Bx.
  pose proof (digits2_pos_bounds my) as By. rewrite Hdy in By.
  assert (Ha : a <> 0) by (intros ->; simpl in Hmx; lia).
  assert (Hb : b <> 0) by (intros ->; simpl in Hmy; lia).
  remember (Z.abs (a * b)) as P eqn:EP.
  assert (HP : 0 < P) by (subst P; nia).
  destruct P as [|p|p]; try lia.
  pose proof (digits2_pos_bounds p) as Bp.
  set (dp := Zpos (digits2_pos p)) in *.
  assert (Hdp : 1 <= dp <= 24).
  { split; [unfold dp; lia|].
    destruct (Z_lt_le_dec 24 dp); [|done].
    assert (2 ^ 24 <= 2 ^ (dp - 1)) by (apply Z.pow_le_mono_r; lia). lia. }
  (* the product of the mantissas *)
  assert (HM : Zpos (mx * my) = Zpos p * 2 ^ (- ex - ey)).
  { rewrite Pos2Z.inj_mul, Hmx, Hmy.
    replace (- ex - ey) with (- ex + - ey) by lia.
    rewrite Z.pow_add_r by lia. rewrite EP, Z.abs_mul. lia. }
  assert (Hk : 47 <= dp - ex - ey).
  { destruct (Z_lt_le_dec (dp - ex - ey) 47); [|done].
    assert (Zpos p * 2 ^ (- ex - ey) < 2 ^ dp * 2 ^ (- ex - ey)).
    { apply Z.mul_lt_mono_pos_r; [apply Z.pow_pos_nonneg; lia|lia]. }
    rewrite <- Z.pow_add_r in H by lia.
    assert (2 ^ (dp + (- ex - ey)) <= 2 ^ 46) by (apply Z.pow_le_mono_r; lia).
    assert (2 ^ 46 <= Zpos (mx * my)).
    { rewrite Pos2Z.inj_mul. change (2 ^ 46) with (2 ^ 23 * 2 ^ 23).
      simpl in Bx, By. nia. }
    lia. }
  set (m' := Z.to_pos (Zpos p * 2 ^ (24 - dp))).
  assert (Hm' : Zpos m' = Zpos p * 2 ^ (24 - dp)).
  { unfold m'. rewrite Z2Pos.id; [done|].
    apply Z.mul_pos_pos; [lia|apply Z.pow_pos_nonneg; lia]. }
  assert (Hdm' : Zpos (digits2_pos m') = 24).
  { apply digits2_pos_unique. rewrite Hm'.
    assert (E1 : 2 ^ (24 - 1) = 2 ^ (dp - 1) * 2 ^ (24 - dp))
      by (rewrite <- Z.pow_add_r by lia; f_equal; lia).
    assert (E2 : 2 ^ 24 = 2 ^ dp * 2 ^ (24 - dp))
      by (rewrite <- Z.pow_add_r by lia; f_equal; lia).
    rewrite E1, E2.
    assert (0 < 2 ^ (24 - dp)) by (apply Z.pow_pos_nonneg; lia). nia. }
  unfold f32_mul, SFmul.
  rewrite (binary_round_aux_exact _ _ m' _ (dp - ex - ey - 24)).
  - simpl. repeat split.
    + rewrite Hsx, Hsy.
      destruct (Z.ltb_spec a 0); destruct (Z.ltb_spec b 0);
        destruct (Z.ltb_spec (a * b) 0); simpl; try done; nia.
    + done.
    + lia.
    + lia.
    + rewrite Hm', <- EP. f_equal. f_equal. lia.
  - lia.
  - rewrite HM, Hm', <- Z.mul_assoc, <- Z.pow_add_r by lia. f_equal. f_equal. lia.
  - done.
  - lia.
Qed.

Lemma new_location_up (nb k : Z) :
  new_location nb k = loc_Inexact Eq \/ new_location nb k = loc_Inexact Gt ->
  nb <= 2 * k.
Proof.
  unfold new_location, new_location_even, new_location_odd.
  destruct (Z.even nb); destruct (Z.eqb_spec k 0) as [->|Hk].
  - intros [?|?]; discriminate.
  - destruct (Z.compare_spec (2 * k) nb); intros [?|?]; try discriminate; lia.
  - intros [?|?]; discriminate.
  - destruct (Z.compare_spec (2 * k + 1) nb); intros [?|?]; try discriminate; lia.
Qed.

Lemma loc_of_shr_record_of_loc (m : Z) (l : location) :
  loc_of_shr_record (shr_record_of_loc m l) = l.
Proof. destruct l as [|[| |]]; reflexivity. Qed.

Lemma shr_m_shr_record_of_loc (m : Z) (l : location) :
  shr_m (shr_record_of_loc m l) = m.
Proof. destruct l as [|[| |]]; reflexivity. Qed.

Lemma round_nearest_even_cases (m : Z) (l : location) :
  round_nearest_even m l = m \/
  (round_nearest_even m l = m + 1 /\ (l = loc_Inexact Eq \/ l = loc_Inexact Gt)).
Proof.
  destruct l as [|[| |]]; simpl; auto. destruct (Z.even m); auto.
Qed.

Lemma shr_1_m (mrs : shr_record) :
  0 <= shr_m mrs -> shr_m (shr_1 mrs) = shr_m mrs / 2.
Proof.
  destruct mrs as [m r s]. simpl. intros Hm.
  destruct m as [|[p|p|]|p]; simpl; try done; try lia.
  - rewrite Pos2Z.inj_xI. apply (Z.div_unique _ _ _ 1); lia.
  - rewrite Pos2Z.inj_xO. apply (Z.div_unique _ _ _ 0); lia.
Qed.

Lemma shr_1_round_up (mrs : shr_record) :
  0 <= shr_m mrs ->
  loc_of_shr_record (shr_1 mrs) = loc_Inexact Eq \/
  loc_of_shr_record (shr_1 mrs) = loc_Inexact Gt ->
  Z.odd (shr_m mrs) = true.
Proof.
  destruct mrs as [m r s]. simpl. intros Hm.
  destruct m as [|[p|p|]|p]; simpl; try done;
    destruct (r || s); simpl; intros [?|?]; done.
Qed.

(** The second, renormalising step of [binary_round_aux]. *)
Lemma renormalise (s : bool) (m1 e1 : Z) :
  2 ^ 23 <= m1 <= 2 ^ 24 -> -125 <= e1 + 24 -> e1 + 1 <= 104 ->
  exists m'' e'',
    (let '(mrs'', e'') := shr_fexp 24 128 m1 e1 loc_Exact in
     match shr_m mrs'' with
     | Z0 => S754_zero s
     | Zpos m => if e'' <=? 128 - 24 then S754_finite s m e'' else S754_infinity s
     | Zneg _ => S754_nan
     end) = S754_finite s m'' e'' /\
    Z.shiftl (Zpos m'') e'' = Z.shiftl m1 e1.
Proof.
  intros Hm Hlo Hhi.
  destruct m1 as [|p|p]; [simpl in Hm; lia| |lia].
  destruct (Z_lt_le_dec (Zpos p) (2 ^ 24)) as [Hlt|Hge].
  - assert (Hd : Zpos (digits2_pos p) = 24)
      by (apply digits2_pos_unique; simpl in *; lia).
    unfold shr_fexp, shr. simpl Zdigits2. rewrite Hd, fexp_f32 by lia.
    replace (24 + e1 - 24 - e1) with 0 by lia. simpl.
    destruct (Z.leb_spec e1 (128 - 24)); [|lia]. eauto.
  - assert (Ep : p = 16777216%positive) by (simpl in *; lia). subst p.
    unfold shr_fexp, shr. change (Zdigits2 (Z.pos 16777216)) with 25.
    rewrite fexp_f32 by lia.
    replace (25 + e1 - 24 - e1) with 1 by lia. simpl.
    destruct (Z.leb_spec (e1 + 1) (128 - 24)); [|lia].
    eexists _, _. split; [reflexivity|].
    change (Z.pos 16777216) with (Z.shiftl 8388608 1).
    rewrite Z.shiftl_shiftl by lia. f_equal. lia.
Qed.

Lemma binary_round_aux_near (s : bool) (Q e : Z) (loc : location) :
  2 ^ 23 <= Q < 2 ^ 25 -> -125 <= e + 24 -> e + 2 <= 104 ->
  exists m'' e'' m1 e1,
    binary_round_aux 24 128 s Q e loc = S754_finite s m'' e'' /\
    Z.shiftl (Zpos m'') e'' = Z.shiftl m1 e1 /\
    ((Q < 2 ^ 24 /\ e1 = e /\
      (m1 = Q \/
       (m1 = Q + 1 /\ (loc = loc_Inexact Eq \/ loc = loc_Inexact Gt)))) \/
     (2 ^ 24 <= Q /\ e1 = e + 1 /\
      (m1 = Q / 2 \/ (m1 = Q / 2 + 1 /\ Z.odd Q = true)))).
Proof.
  intros HQ Hlo Hhi.
  destruct Q as [|q|q]; [simpl in HQ; lia| |lia].
  unfold binary_round_aux.
  destruct (Z_lt_le_dec (Zpos q) (2 ^ 24)) as [Hlt|Hge].
  - assert (Hd : Zpos (digits2_pos q) = 24)
      by (apply digits2_pos_unique; simpl in *; lia).
    assert (Hfirst : shr_fexp 24 128 (Zpos q) e loc
                     = (shr_record_of_loc (Zpos q) loc, e)).
    { unfold shr_fexp, shr. simpl Zdigits2. rewrite Hd, fexp_f32 by lia.
      by replace (24 + e - 24 - e) with 0 by lia. }
    rewrite Hfirst.
    rewrite loc_of_shr_record_of_loc, shr_m_shr_record_of_loc.
    set (m1 := round_nearest_even (Zpos q) loc).
    pose proof (round_nearest_even_cases (Zpos q) loc) as Hcases. fold m1 in Hcases.
    destruct (renormalise s m1 e) as (m'' & e'' & Hre & Hval); [lia|lia|lia|].
    exists m'', e'', m1, e. split; [exact Hre|]. split; [exact Hval|].
    left. split; [done|]. split; [done|]. tauto.
  - assert (Hd : Zpos (digits2_pos q) = 25)
      by (apply digits2_pos_unique; simpl in *; lia).
    assert (Hfirst : shr_fexp 24 128 (Zpos q) e loc
                     = (shr_1 (shr_record_of_loc (Zpos q) loc), e + 1)).
    { unfold shr_fexp, shr. simpl Zdigits2. rewrite Hd, fexp_f32 by lia.
      by replace (25 + e - 24 - e) with 1 by lia. }
    rewrite Hfirst.
    set (mrs := shr_1 (shr_record_of_loc (Zpos q) loc)).
    assert (Hm : shr_m mrs = Zpos q / 2).
    { unfold mrs. rewrite shr_1_m; rewrite shr_m_shr_record_of_loc; [done|lia]. }
    set (m1 := round_nearest_even (shr_m mrs) (loc_of_shr_record mrs)).
    pose proof (round_nearest_even_cases (shr_m mrs) (loc_of_shr_record mrs))
      as Hcases. fold m1 in Hcases. rewrite Hm in Hcases.
    assert (Hhalf : 2 ^ 23 <= Zpos q / 2 < 2 ^ 24).
    { split; [apply Z.div_le_lower_bound; simpl in *; lia|].
      apply Z.div_lt_upper_bound; simpl in *; lia. }
    destruct (renormalise s m1 (e + 1)) as (m'' & e'' & Hre & Hval);
      [lia|lia|lia|].
    exists m'', e'', m1, (e + 1). split; [exact Hre|]. split; [exact Hval|].
    right. split; [done|]. split; [done|].
    destruct Hcases as [?|[? Hup]]; [by left|right]. split; [done|].
    pose proof (shr_1_round_up (shr_record_of_loc (Zpos q) loc)) as Hodd.
    rewrite shr_m_shr_record_of_loc in Hodd. apply Hodd; [lia|done].
Qed.

(** Rounding the scaled quotient to the nearest integer and then
    truncating the scale away gives the truncated quotient, as long as the
    numerator has fewer than 24 bits. *)
Lemma round_then_trunc (P q G m1 : Z) :
  0 < q -> 0 < G -> 0 <= P < 2 ^ 24 -> 2 ^ 23 <= (P * G) / q ->
  m1 = (P * G) / q \/ (m1 = (P * G) / q + 1 /\ q <= 2 * ((P * G) mod q)) ->
  m1 / G = P / q.
Proof.
  intros Hq HG HP Hnorm Hm1.
  pose proof (Z.div_mod (P * G) q ltac:(lia)) as E1.
  pose proof (Z.mod_pos_bound (P * G) q Hq) as B1.
  pose proof (Z.div_mod P q ltac:(lia)) as E2.
  pose proof (Z.mod_pos_bound P q Hq) as B2.
  set (fl := (P * G) / q) in *. set (r := (P * G) mod q) in *.
  set (k := P / q) in *. set (t := P mod q) in *.
  assert (Hk : 0 <= k) by (apply Z.div_pos; lia).
  assert (Hlo : k * G <= fl).
  { assert (q * (k * G) < q * (fl + 1)) by nia.
    apply Z.mul_lt_mono_pos_l in H; lia. }
  assert (Hhi : fl < (k + 1) * G).
  { assert (q * fl < q * ((k + 1) * G)) by nia.
    apply Z.mul_lt_mono_pos_l in H; lia. }
  symmetry. apply (Z.div_unique_pos m1 G k (m1 - k * G)); [|lia].
  destruct Hm1 as [->|[-> Hup]]; [lia|].
  split; [lia|].
  destruct (Z_lt_le_dec (fl + 1 - k * G) G) as [?|Hbad]; [done|exfalso].
  assert (Efl : fl = (k + 1) * G - 1) by lia.
  assert (H1 : q * (2 * (k + 1) * G - 1) <= 2 * (P * G)) by nia.
  assert (H2 : 2 * (P * G) <= 2 * G * (q * (k + 1) - 1)) by nia.
  assert (H3 : 2 * G <= q) by nia.
  assert (H4 : 2 * G * (2 * (k + 1) * G - 1) <= 2 * G * P) by nia.
  apply Z.mul_le_mono_pos_l in H4; [|lia].
  simpl in *. lia.
Qed.

Lemma shiftl_neg_div (m e : Z) : e <= 0 -> Z.shiftl m e = m / 2 ^ (- e).
Proof.
  intros He. rewrite <- Z.shiftr_opp_r. apply Z.shiftr_div_pow2. lia.
Qed.

(** Dividing two floats that hold integers of fewer than 24 bits and
    truncating gives the truncated integer quotient. *)
Lemma f32_div_trunc (x y : spec_float) (p q : Z) :
  f32_holds x p -> f32_holds y q -> 0 < q ->
  Z_of_f32 (f32_div x y) = p ÷ q.
Proof.
  destruct x as [| | |sx mx ex]; try done. destruct y as [| | |sy my ey]; try done.
  intros (Hsx & Hdx & Hex & Hmx) (Hsy & Hdy & Hey & Hmy) Hq.
  pose proof (digits2_pos_bounds mx) as Bx. rewrite Hdx in Bx.
  pose proof (digits2_pos_bounds my) as By. rewrite Hdy in By.
  assert (Hp : p <> 0) by (intros ->; simpl in Hmx; lia).
  rewrite (Z.abs_eq q) in Hmy by lia.
  assert (HA : 0 < 2 ^ (- ex)) by (apply Z.pow_pos_nonneg; lia).
  assert (HB : 0 < 2 ^ (- ey)) by (apply Z.pow_pos_nonneg; lia).
  assert (HP24 : Z.abs p < 2 ^ 24) by (simpl in *; nia).
  (* the core division *)
  set (Nn := Zpos mx * 2 ^ 24).
  pose proof (Z.div_mod Nn (Zpos my) ltac:(lia)) as EN.
  pose proof (Z.mod_pos_bound Nn (Zpos my) ltac:(lia)) as BN.
  set (Q := Nn / Zpos my) in *. set (R := Nn mod Zpos my) in *.
  assert (Hcore : SFdiv_core_binary 24 128 (Zpos mx) ex (Zpos my) ey
                  = (Q, ex - ey - 24, new_location (Zpos my) R)).
  { unfold SFdiv_core_binary. simpl Zdigits2. rewrite Hdx, Hdy.
    rewrite fexp_f32 by lia.
    replace (24 + ex - (24 + ey) - 24) with (ex - ey - 24) by lia.
    rewrite Z.min_l by lia.
    replace (ex - ey - (ex - ey - 24)) with 24 by lia.
    cbv zeta. rewrite Z.shiftl_mul_pow2 by lia. fold Nn.
    unfold Q, R, Z.div, Z.modulo. by destruct (Z.div_eucl Nn (Zpos my)). }
  assert (HQ : 2 ^ 23 <= Q < 2 ^ 25).
  { unfold Nn in EN. simpl in *. split.
    - assert (Zpos my * 8388608 < Zpos my * (Q + 1)) by nia.
      apply Z.mul_lt_mono_pos_l in H; lia.
    - assert (Zpos my * Q < Zpos my * 33554432) by nia.
      apply Z.mul_lt_mono_pos_l in H; lia. }
  unfold f32_div, SFdiv. rewrite Hcore.
  destruct (binary_round_aux_near (xorb sx sy) Q (ex - ey - 24)
              (new_location (Zpos my) R))
    as (m'' & e'' & m1 & e1 & -> & Hval & Hshape); [done|lia|lia|].
  unfold Z_of_f32. rewrite Hval.
  (* the value *)
  assert (Hmag : Z.shiftl m1 e1 = Z.abs p / q).
  { destruct Hshape as [(HQlt & -> & Hm1)|(HQge & -> & Hm1)].
    - rewrite shiftl_neg_div by lia.
      set (G := 2 ^ (- (ex - ey - 24))).
      assert (HG : 0 < G) by (apply Z.pow_pos_nonneg; lia).
      assert (EG : G * 2 ^ (- ey) = 2 ^ 24 * 2 ^ (- ex)).
      { unfold G. rewrite <- !Z.pow_add_r by lia. f_equal. lia. }
      (* Q and R in terms of |p|, q and G *)
      assert (ER : Z.abs p * G * 2 ^ (- ey) = (q * Q) * 2 ^ (- ey) + R).
      { rewrite <- Z.mul_assoc, EG. unfold Nn in EN. nia. }
      set (R' := Z.abs p * G - q * Q).
      assert (ER' : R = R' * 2 ^ (- ey)) by (unfold R'; nia).
      assert (BR' : 0 <= R' < q) by nia.
      assert (EQ : Q = (Z.abs p * G) / q).
      { apply (Z.div_unique_pos _ _ _ R'); [done|unfold R'; lia]. }
      assert (EM : R' = (Z.abs p * G) mod q).
      { apply (Z.mod_unique_pos _ _ Q); [done|unfold R'; lia]. }
      apply round_then_trunc; [done|done|lia|by rewrite <- EQ; lia|].
      rewrite <- EQ, <- EM.
      destruct Hm1 as [?|[? Hup]]; [by left|right]. split; [done|].
      apply new_location_up in Hup. nia.
    - rewrite shiftl_neg_div by lia.
      set (G := 2 ^ (- (ex - ey - 24 + 1))).
      assert (HG : 0 < G) by (apply Z.pow_pos_nonneg; lia).
      assert (EG : 2 * G * 2 ^ (- ey) = 2 ^ 24 * 2 ^ (- ex)).
      { unfold G. change 2 with (2 ^ 1) at 1.
        rewrite <- !Z.pow_add_r by lia. f_equal. lia. }
      assert (ER : 2 * (Z.abs p * G) * 2 ^ (- ey) = (q * Q) * 2 ^ (- ey) + R).
      { unfold Nn in EN. nia. }
      set (R' := 2 * (Z.abs p * G) - q * Q).
      assert (ER' : R = R' * 2 ^ (- ey)) by (unfold R'; nia).
      assert (BR' : 0 <= R' < q) by nia.
      pose proof (Z.div_mod Q 2 ltac:(lia)) as EQ2.
      pose proof (Z.mod_pos_bound Q 2 ltac:(lia)) as BQ2.
      set (hq := Q / 2) in *. set (c := Q mod 2) in *.
      set (r := Z.abs p * G - q * hq).
      assert (Er : 2 * r = c * q + R') by (unfold r, R'; nia).
      assert (Br : 0 <= r < q) by nia.
      assert (EQ : hq = (Z.abs p * G) / q).
      { apply (Z.div_unique_pos _ _ _ r); [done|unfold r; lia]. }
      assert (EM : r = (Z.abs p * G) mod q).
      { apply (Z.mod_unique_pos _ _ hq); [done|unfold r; lia]. }
      apply round_then_trunc; [done|done|lia| |].
      + rewrite <- EQ. unfold hq. apply Z.div_le_lower_bound; simpl in *; lia.
      + rewrite <- EQ, <- EM.
        destruct Hm1 as [?|[? Hodd]]; [by left|right]. split; [done|].
        assert (c = 1).
        { unfold c. rewrite Zmod_odd, Hodd. done. }
        nia. }
  rewrite Hmag, Hsx, Hsy.
  destruct (Z.ltb_spec q 0) as [?|_]; [lia|]. rewrite xorb_false_r.
  destruct (Z.ltb_spec p 0) as [Hneg|Hpos]; simpl.
  - rewrite <- (Z.opp_involutive p) at 2. rewrite Z.quot_opp_l by lia.
    rewrite Z.quot_div_nonneg by lia. f_equal. f_equal. lia.
  - rewrite Z.quot_div_nonneg by lia. f_equal. lia.
Qed.

Lemma f32_zero_l_product_quotient (x y : spec_float) :
  Z_of_f32 (f32_div (f32_mul (f32_of_Z 0) x) y) = 0.
Proof.
  change (f32_of_Z 0) with (S754_zero false).
  destruct x as [sx|sx| |sx mx ex]; simpl;
    destruct y as [sy|sy| |sy my ey]; reflexivity.
Qed.

(** The computation of [interpolate] on small operands: the truncated
    quotient of the product. *)
Lemma f32_scaled_quotient (d t T : Z) :
  Z.abs (d * t) < 2 ^ 24 -> 0 < T < 2 ^ 24 ->
  Z_of_f32 (f32_div (f32_mul (f32_of_Z d) (f32_of_Z t)) (f32_of_Z T))
  = (d * t) ÷ T.
Proof.
  intros Hdt HT.
  destruct (Z.eq_dec d 0) as [->|Hd].
  { rewrite f32_zero_l_product_quotient. by rewrite Z.mul_0_l, Z.quot_0_l by lia. }
  destruct (Z.eq_dec t 0) as [->|Ht].
  { rewrite f32_zero_product_quotient. by rewrite Z.mul_0_r, Z.quot_0_l by lia. }
  rewrite Z.abs_mul in Hdt.
  apply f32_div_trunc; [|apply f32_of_Z_holds; lia|lia].
  apply f32_mul_holds; [apply f32_of_Z_holds|apply f32_of_Z_holds|];
    rewrite ?Z.abs_mul; nia.
Qed.

Lemma wrap_s16_add_wrap (u x : Z) : wrap_s16 (u + wrap_s16 x) = wrap_s16 (u + x).
Proof.
  unfold wrap_s16. f_equal.
  replace (u + ((x + 2 ^ 15) mod 2 ^ 16 - 2 ^ 15) + 2 ^ 15)
    with (u + (x + 2 ^ 15) mod 2 ^ 16) by lia.
  rewrite Zplus_mod_idemp_r. f_equal. lia.
Qed.

(** A fraction [dt / T] of a difference [d] lies between [0] and [d]. *)
Lemma quot_fraction_between (d dt T : Z) :
  0 < T -> 0 <= dt <= T ->
  (0 <= d -> 0 <= (d * dt) ÷ T <= d) /\ (d <= 0 -> d <= (d * dt) ÷ T <= 0).
Proof.
  intros HT Hdt. split; intros Hd.
  - rewrite Z.quot_div_nonneg by nia. split; [apply Z.div_pos; nia|].
    apply Z.div_le_upper_bound; nia.
  - replace (d * dt) with (- ((- d) * dt)) by lia.
    rewrite Z.quot_opp_l by lia. rewrite Z.quot_div_nonneg by nia.
    assert (0 <= (- d * dt) / T) by (apply Z.div_pos; nia).
    assert ((- d * dt) / T <= - d) by (apply Z.div_le_upper_bound; nia).
    lia.
Qed.

(** The mantissa after [n] right shifts. *)
Lemma iter_shr_1_m (n : positive) (mrs : shr_record) :
  0 <= shr_m mrs ->
  shr_m (SpecFloat.iter_pos shr_1 n mrs) = shr_m mrs / 2 ^ Zpos n.
Proof.
  intros Hm. rewrite iter_pos_Pos_iter.
  induction n as [|n IH] using Pos.peano_ind.
  - simpl Pos.iter. rewrite shr_1_m by done. done.
  - rewrite Pos.iter_succ, shr_1_m.
    + rewrite IH, Pos2Z.inj_succ, Z.pow_succ_r by lia.
      rewrite Z.div_div by (try apply Z.pow_pos_nonneg; lia).
      f_equal. lia.
    + rewrite IH. apply Z.div_pos; [done|]. apply Z.pow_pos_nonneg; lia.
Qed.

(** The renormalising step keeps a 24-bit mantissa. *)
Lemma renormalise_normal (s : bool) (m1 e1 : Z) :
  2 ^ 23 <= m1 <= 2 ^ 24 -> -125 <= e1 + 24 -> e1 + 1 <= 104 ->
  exists m'' e'',
    (let '(mrs'', e'') := shr_fexp 24 128 m1 e1 loc_Exact in
     match shr_m mrs'' with
     | Z0 => S754_zero s
     | Zpos m => if e'' <=? 128 - 24 then S754_finite s m e'' else S754_infinity s
     | Zneg _ => S754_nan
     end) = S754_finite s m'' e'' /\
    Zpos (digits2_pos m'') = 24 /\ e1 <= e'' <= e1 + 1.
Proof.
  intros Hm Hlo Hhi.
  destruct m1 as [|p|p]; [simpl in Hm; lia| |lia].
  destruct (Z_lt_le_dec (Zpos p) (2 ^ 24)) as [Hlt|Hge].
  - assert (Hd : Zpos (digits2_pos p) = 24)
      by (apply digits2_pos_unique; simpl in *; lia).
    unfold shr_fexp, shr. simpl Zdigits2. rewrite Hd, fexp_f32 by lia.
    replace (24 + e1 - 24 - e1) with 0 by lia. simpl.
    destruct (Z.leb_spec e1 (128 - 24)); [|lia].
    exists p, e1. split; [done|]. split; [done|lia].
  - assert (Ep : p = 16777216%positive) by (simpl in *; lia). subst p.
    unfold shr_fexp, shr. change (Zdigits2 (Z.pos 16777216)) with 25.
    rewrite fexp_f32 by lia.
    replace (25 + e1 - 24 - e1) with 1 by lia. simpl.
    destruct (Z.leb_spec (e1 + 1) (128 - 24)); [|lia].
    eexists _, _. split; [reflexivity|]. split; [reflexivity|lia].
Qed.

(** Rounding a mantissa of [D >= 24] bits gives a normal float whose
    exponent is the exponent of the leading 24 bits, or one more. *)
Lemma binary_round_aux_normal (s : bool) (mx : positive) (e D : Z)
    (loc : location) :
  Zpos (digits2_pos mx) = D -> 24 <= D ->
  -125 <= e + D -> e + D - 23 <= 104 ->
  f32_normal (binary_round_aux 24 128 s (Zpos mx) e loc)
             (e + D - 24) (e + D - 23) /\
  exists m'' e'', binary_round_aux 24 128 s (Zpos mx) e loc
                  = S754_finite s m'' e''.
Proof.
  intros Hd HD Hlo Hhi.
  pose proof (digits2_pos_bounds mx) as Bm. rewrite Hd in Bm.
  set (n := D - 24).
  assert (Hfirst : exists mrs,
            shr_fexp 24 128 (Zpos mx) e loc = (mrs, e + n) /\
            shr_m mrs = Zpos mx / 2 ^ n).
  { unfold shr_fexp, shr. simpl Zdigits2. rewrite Hd, fexp_f32 by lia.
    replace (D + e - 24 - e) with n by (unfold n; lia).
    destruct n as [|p|p] eqn:En; [| |lia].
    - eexists. split; [by rewrite Z.add_0_r|].
      rewrite shr_m_shr_record_of_loc. simpl. by rewrite Z.div_1_r.
    - eexists. split; [done|].
      rewrite iter_shr_1_m; rewrite shr_m_shr_record_of_loc; [done|lia]. }
  destruct Hfirst as (mrs & Hfirst & Hm).
  assert (Hn : 0 <= n) by (unfold n; lia).
  assert (Hnorm : 2 ^ 23 <= shr_m mrs < 2 ^ 24).
  { rewrite Hm.
    assert (E1 : 2 ^ (D - 1) = 2 ^ 23 * 2 ^ n)
      by (rewrite <- Z.pow_add_r by lia; f_equal; unfold n; lia).
    assert (E2 : 2 ^ D = 2 ^ 24 * 2 ^ n)
      by (rewrite <- Z.pow_add_r by lia; f_equal; unfold n; lia).
    assert (0 < 2 ^ n) by (apply Z.pow_pos_nonneg; lia).
    split.
    - apply Z.div_le_lower_bound; lia.
    - apply Z.div_lt_upper_bound; lia. }
  unfold binary_round_aux. rewrite Hfirst.
  set (m1 := round_nearest_even (shr_m mrs) (loc_of_shr_record mrs)).
  pose proof (round_nearest_even_cases (shr_m mrs) (loc_of_shr_record mrs))
    as Hcases. fold m1 in Hcases.
  destruct (renormalise_normal s m1 (e + n)) as (m'' & e'' & Hre & Hdig & He);
    [lia|unfold n; lia|unfold n; lia|].
  rewrite Hre. split; [|eauto]. simpl. split; [done|]. unfold n in He. lia.
Qed.

(** Longer numbers are not smaller. *)
Lemma digits2_pos_mono (a b : positive) :
  (a <= b)%positive -> Zpos (digits2_pos a) <= Zpos (digits2_pos b).
Proof.
  intros Hab. pose proof (digits2_pos_bounds a) as Ba.
  pose proof (digits2_pos_bounds b) as Bb.
  destruct (Z_le_gt_dec (Zpos (digits2_pos a)) (Zpos (digits2_pos b)));
    [done|exfalso].
  assert (2 ^ Zpos (digits2_pos b) <= 2 ^ (Zpos (digits2_pos a) - 1))
    by (apply Z.pow_le_mono_r; lia).
  lia.
Qed.

(** The conversion of a non-zero integer of [k] bits. *)
Lemma f32_of_Z_normal (z : Z) :
  z <> 0 -> Z.abs z < 2 ^ 32 ->
  exists k, 2 ^ (k - 1) <= Z.abs z < 2 ^ k /\ 1 <= k <= 32 /\
            f32_normal (f32_of_Z z) (k - 24) (k - 23).
Proof.
  intros Hz Hlt.
  assert (Hgen : forall s a, Zpos a < 2 ^ 32 ->
            exists k, 2 ^ (k - 1) <= Zpos a < 2 ^ k /\ 1 <= k <= 32 /\
                      f32_normal (binary_round 24 128 s a 0) (k - 24) (k - 23)).
  { intros s a Ha. pose proof (digits2_pos_bounds a) as Hb.
    set (k := Zpos (digits2_pos a)) in *. exists k.
    assert (Hk : 1 <= k <= 32).
    { split; [unfold k; lia|].
      destruct (Z_lt_le_dec 32 k); [|done].
      assert (2 ^ 32 <= 2 ^ (k - 1)) by (apply Z.pow_le_mono_r; lia). lia. }
    split; [done|]. split; [done|].
    assert (Hal : exists mz ez D,
              shl_align a 0 (k - 24) = (mz, ez) /\
              Zpos (digits2_pos mz) = D /\ 24 <= D /\ ez + D = k).
    { unfold shl_align. replace (k - 24 - 0) with (k - 24) by lia.
      destruct (k - 24) as [|c|c] eqn:Ec.
      - exists a, 0, k. split; [done|]. split; [done|lia].
      - exists a, 0, k. split; [done|]. split; [done|lia].
      - exists (Pos.iter xO a c), (k - 24), 24. rewrite Ec.
        split; [done|]. split; [|lia].
        apply digits2_pos_unique. rewrite pos_iter_xO.
        replace (Zpos c) with (24 - k) by lia.
        assert (E1 : 2 ^ (24 - 1) = 2 ^ (k - 1) * 2 ^ (24 - k))
          by (rewrite <- Z.pow_add_r by lia; f_equal; lia).
        assert (E2 : 2 ^ 24 = 2 ^ k * 2 ^ (24 - k))
          by (rewrite <- Z.pow_add_r by lia; f_equal; lia).
        rewrite E1, E2.
        assert (0 < 2 ^ (24 - k)) by (apply Z.pow_pos_nonneg; lia). nia. }
    destruct Hal as (mz & ez & D & Hal & HdD & HD & HeD).
    unfold binary_round. fold k. rewrite Z.add_0_r, fexp_f32 by lia.
    rewrite Hal.
    destruct (binary_round_aux_normal s mz ez D loc_Exact) as [Hn _];
      [done|lia|lia|lia|].
    replace (ez + D - 24) with (k - 24) in Hn by lia.
    replace (ez + D - 23) with (k - 23) in Hn by lia. done. }
  unfold f32_of_Z, binary_normalize. destruct z as [|a|a]; [done| |].
  - apply Hgen. lia.
  - apply (Hgen true a). lia.
Qed.

(** The product of two normal floats is normal, away from the ends of
    the exponent range. *)
Lemma f32_mul_normal (x y : spec_float) (lx hx ly hy : Z) :
  f32_normal x lx hx -> f32_normal y ly hy ->
  -171 <= lx + ly -> hx + hy <= 79 ->
  f32_normal (f32_mul x y) (lx + ly + 23) (hx + hy + 25).
Proof.
  destruct x as [| | |sx mx ex]; try done. destruct y as [| | |sy my ey]; try done.
  intros [Hdx Hex] [Hdy Hey] Hlo Hhi.
  pose proof (digits2_pos_bounds mx) as Bx. rewrite Hdx in Bx.
  pose proof (digits2_pos_bounds my) as By. rewrite Hdy in By.
  pose proof (digits2_pos_bounds (mx * my)) as Bp.
  set (D := Zpos (digits2_pos (mx * my))) in *.
  assert (HD : 47 <= D <= 48).
  { rewrite Pos2Z.inj_mul in Bp.
    assert (2 ^ 46 <= Zpos mx * Zpos my < 2 ^ 48)
      by (change (2 ^ 46) with (2 ^ 23 * 2 ^ 23);
          change (2 ^ 48) with (2 ^ 24 * 2 ^ 24); simpl in Bx, By; nia).
    split.
    - destruct (Z_lt_le_dec D 47); [|done].
      assert (2 ^ D <= 2 ^ 46) by (apply Z.pow_le_mono_r; lia). lia.
    - destruct (Z_lt_le_dec 48 D); [|done].
      assert (2 ^ 48 <= 2 ^ (D - 1)) by (apply Z.pow_le_mono_r; lia). lia. }
  unfold f32_mul, SFmul.
  destruct (binary_round_aux_normal (xorb sx sy) (mx * my) (ex + ey) D loc_Exact)
    as [Hn _]; [done|lia|lia|lia|].
  destruct (binary_round_aux 24 128 (xorb sx sy) (Z.pos (mx * my)) (ex + ey)
              loc_Exact); try done.
  simpl in *. lia.
Qed.

(** So is their quotient. *)
Lemma f32_div_normal (x y : spec_float) (lx hx ly hy : Z) :
  f32_normal x lx hx -> f32_normal y ly hy ->
  -125 <= lx - hy -> hx - ly <= 126 ->
  f32_normal (f32_div x y) (lx - hy - 24) (hx - ly - 22).
Proof.
  destruct x as [| | |sx mx ex]; try done. destruct y as [| | |sy my ey]; try done.
  intros [Hdx Hex] [Hdy Hey] Hlo Hhi.
  pose proof (digits2_pos_bounds mx) as Bx. rewrite Hdx in Bx.
  pose proof (digits2_pos_bounds my) as By. rewrite Hdy in By.
  set (Nn := Zpos mx * 2 ^ 24).
  pose proof (Z.div_mod Nn (Zpos my) ltac:(lia)) as EN.
  pose proof (Z.mod_pos_bound Nn (Zpos my) ltac:(lia)) as BN.
  set (Q := Nn / Zpos my) in *. set (R := Nn mod Zpos my) in *.
  assert (Hcore : SFdiv_core_binary 24 128 (Zpos mx) ex (Zpos my) ey
                  = (Q, ex - ey - 24, new_location (Zpos my) R)).
  { unfold SFdiv_core_binary. simpl Zdigits2. rewrite Hdx, Hdy.
    rewrite fexp_f32 by lia.
    replace (24 + ex - (24 + ey) - 24) with (ex - ey - 24) by lia.
    rewrite Z.min_l by lia.
    replace (ex - ey - (ex - ey - 24)) with 24 by lia.
    cbv zeta. rewrite Z.shiftl_mul_pow2 by lia. fold Nn.
    unfold Q, R, Z.div, Z.modulo. by destruct (Z.div_eucl Nn (Zpos my)). }
  assert (HQ : 2 ^ 23 <= Q < 2 ^ 25).
  { unfold Nn in EN. simpl in *. split.
    - assert (Zpos my * 8388608 < Zpos my * (Q + 1)) by nia.
      apply Z.mul_lt_mono_pos_l in H; lia.
    - assert (Zpos my * Q < Zpos my * 33554432) by nia.
      apply Z.mul_lt_mono_pos_l in H; lia. }
  unfold f32_div, SFdiv. rewrite Hcore.
  destruct Q as [|q|q]; [simpl in HQ; lia| |lia].
  pose proof (digits2_pos_bounds q) as Bq.
  set (D := Zpos (digits2_pos q)) in *.
  assert (HD : 24 <= D <= 25).
  { split.
    - destruct (Z_lt_le_dec D 24); [|done].
      assert (2 ^ D <= 2 ^ 23) by (apply Z.pow_le_mono_r; lia). lia.
    - destruct (Z_lt_le_dec 25 D); [|done].
      assert (2 ^ 25 <= 2 ^ (D - 1)) by (apply Z.pow_le_mono_r; lia). lia. }
  destruct (binary_round_aux_normal (xorb sx sy) q (ex - ey - 24) D
              (new_location (Zpos my) R)) as [Hn _]; [done|lia|lia|lia|].
  destruct (binary_round_aux 24 128 (xorb sx sy) (Z.pos q) (ex - ey - 24)
              (new_location (Z.pos my) R)); try done.
  simpl in *. lia.
Qed.

(** A normal float with a small exponent truncates to a small integer. *)
Lemma f32_normal_trunc (f : spec_float) (lo hi : Z) :
  f32_normal f lo hi -> hi <= 6 -> Z.abs (Z_of_f32 f) < 2 ^ 30.
Proof.
  destruct f as [| | |s m e]; try done. intros [Hd He] Hhi.
  pose proof (digits2_pos_bounds m) as Bm. rewrite Hd in Bm.
  unfold Z_of_f32.
  assert (0 <= Z.shiftl (Zpos m) e < 2 ^ 30).
  { destruct (Z_le_gt_dec e 0).
    - rewrite shiftl_neg_div by done.
      assert (0 < 2 ^ (- e)) by (apply Z.pow_pos_nonneg; lia).
      split; [apply Z.div_pos; lia|].
      apply Z.div_lt_upper_bound; [done|]. simpl in *. nia.
    - rewrite Z.shiftl_mul_pow2 by lia.
      assert (0 < 2 ^ e <= 2 ^ 6)
        by (split; [apply Z.pow_pos_nonneg; lia|apply Z.pow_le_mono_r; lia]).
      simpl in *. nia. }
  destruct s; simpl; lia.
Qed.

Lemma wrap_s16_in_s16 (z : Z) : in_s16 (wrap_s16 z).
Proof.
  unfold in_s16, wrap_s16.
  pose proof (Z.mod_pos_bound (z + 2 ^ 15) (2 ^ 16) ltac:(lia)). lia.
Qed.

(** The cast of a normal float with a small exponent is defined. *)
Lemma s16_of_f32_normal (f : spec_float) (lo hi : Z) :
  f32_normal f lo hi -> hi <= 6 ->
  s16_of_f32 f = Done (wrap_s16 (Z_of_f32 f)).
Proof.
  intros Hn Hhi. pose proof (f32_normal_trunc f lo hi Hn Hhi) as Hb.
  destruct f as [| | |s m e]; try done.
  unfold s16_of_f32. cbv zeta.
  destruct (Z.leb_spec (- 2 ^ 31) (Z_of_f32 (S754_finite s m e))); [|lia].
  destruct (Z.ltb_spec (Z_of_f32 (S754_finite s m e)) (2 ^ 31)); [done|lia].
Qed.

(** The cast is defined on every quotient that [interpolate] forms for a
    target between its two samples: the difference of two [int16_t]
    values has at most 16 bits and the fraction of the time passed is at
    most one, so the quotient stays far inside [int32_t], however the
    three roundings fall. *)
Lemma s16_of_f32_quotient (d dt T : Z) :
  Z.abs d < 2 ^ 16 -> 0 <= dt <= T -> 0 < T < 2 ^ 32 ->
  s16_of_f32 (f32_div (f32_mul (f32_of_Z d) (f32_of_Z dt)) (f32_of_Z T))
  = Done (wrap_s16 (Z_of_f32
            (f32_div (f32_mul (f32_of_Z d) (f32_of_Z dt)) (f32_of_Z T)))).
Proof.
  intros Hd Hdt HT.
  destruct (f32_of_Z_normal T) as (kT & BT & HkT & HnT); [lia|lia|].
  destruct (f32_of_Z T) as [| | |sT mT eT] eqn:ET; try done.
  destruct (Z.eq_dec d 0) as [->|Hd0].
  { change (f32_of_Z 0) with (S754_zero false).
    destruct (Z.eq_dec dt 0) as [->|Hdt0]; [done|].
    destruct (f32_of_Z_normal dt) as (k & _ & _ & Hn); [lia|lia|].
    by destruct (f32_of_Z dt). }
  destruct (f32_of_Z_normal d) as (kd & Bd & Hkd & Hnd); [lia|lia|].
  destruct (Z.eq_dec dt 0) as [->|Hdt0].
  { change (f32_of_Z 0) with (S754_zero false).
    by destruct (f32_of_Z d). }
  destruct (f32_of_Z_normal dt) as (kt & Bt & Hkt & Hnt); [lia|lia|].
  assert (Hkd16 : kd <= 16).
  { destruct (Z_lt_le_dec 16 kd); [|lia].
    assert (2 ^ 16 <= 2 ^ (kd - 1)) by (apply Z.pow_le_mono_r; lia). lia. }
  assert (HktT : kt <= kT).
  { destruct (Z_lt_le_dec kT kt); [|lia].
    assert (2 ^ kT <= 2 ^ (kt - 1)) by (apply Z.pow_le_mono_r; lia). lia. }
  pose proof (f32_mul_normal _ _ _ _ _ _ Hnd Hnt ltac:(lia) ltac:(lia)) as Hp.
  rewrite <- ET in HnT.
  pose proof (f32_div_normal _ _ _ _ _ _ Hp HnT ltac:(lia) ltac:(lia)) as Hq.
  rewrite <- ET.
  apply (s16_of_f32_normal _ _ _ Hq). lia.
Qed.

Lemma interpolate_same_time (a b : temperature_sample_t) (t : Z) :
  typed_sample a -> typed_sample b -> uptime a = uptime b ->
  interpolate a b t
  = Done {| temperature := (temperature a + temperature b) ÷ 2;
            uptime := t |}.
Proof.
  intros [Ha _] [Hb _] E. unfold interpolate. rewrite E, Z.eqb_refl.
  by rewrite wrap_s16_id by (by apply mean_in_s16).
Qed.

(** With the earlier sample first, [interpolate] is the float formula
    followed by the cast. *)
Lemma interpolate_earlier_first (a b : temperature_sample_t) (t : Z) :
  typed_sample a -> typed_sample b -> uptime a < uptime b ->
  interpolate a b t
  = (d ← s16_of_f32
           (f32_div (f32_mul (f32_of_Z (temperature b - temperature a))
                             (f32_of_Z (wrap_u32 (t - uptime a))))
                    (f32_of_Z (uptime b - uptime a)));
     Done {| temperature := wrap_s16 (temperature a + d); uptime := t |}).
Proof.
  intros [_ Hua] [_ Hub] Hlt. unfold interpolate.
  destruct (Z.eqb_spec (uptime a) (uptime b)) as [?|_]; [lia|].
  destruct (Z.ltb_spec (uptime a) (uptime b)) as [_|?]; [|lia]. cbv zeta.
  rewrite (wrap_u32_id (uptime b - uptime a)); [done|].
  unfold in_u32 in *. lia.
Qed.

(** For a target between the two samples the result is defined. *)
Lemma interpolate_inside (a b : temperature_sample_t) (t : Z) :
  typed_sample a -> typed_sample b ->
  uptime a < uptime b -> uptime a <= t <= uptime b ->
  interpolate a b t
  = Done {| temperature :=
              wrap_s16 (temperature a + wrap_s16 (Z_of_f32
                (f32_div (f32_mul (f32_of_Z (temperature b - temperature a))
                                  (f32_of_Z (t - uptime a)))
                         (f32_of_Z (uptime b - uptime a)))));
            uptime := t |}.
Proof.
  intros Ha Hb Hlt Ht. rewrite interpolate_earlier_first by done.
  destruct Ha as [Ha Hua], Hb as [Hb Hub].
  rewrite (wrap_u32_id (t - uptime a)) by (unfold in_u32 in *; lia).
  rewrite s16_of_f32_quotient; [done| | |]; unfold in_s16, in_u32 in *; lia.
Qed.

Lemma interpolate_defined (a b : temperature_sample_t) (t : Z) :
  typed_sample a -> typed_sample b -> uptime a <= t <= uptime b ->
  exists v, in_s16 v /\
            interpolate a b t = Done {| temperature := v; uptime := t |}.
Proof.
  intros Ha Hb Ht. destruct (Z.eq_dec (uptime a) (uptime b)) as [E|E].
  - eexists. split; [|by apply interpolate_same_time].
    destruct Ha, Hb. by apply mean_in_s16.
  - eexists. split; [|apply interpolate_inside; [done|done|lia|done]].
    apply wrap_s16_in_s16.
Qed.

(** Halving the difference against halving the sum, both toward zero. *)
Lemma half_difference_half_sum (a d : Z) :
  a + d ÷ 2 = (a + (a + d)) ÷ 2
  <-> Z.even d = true \/ Z.abs a <= Z.abs (a + d).
Proof.
  rewrite Z.even_spec. split.
  - intros E. destruct (Z.Even_or_Odd d) as [?|[e He]]; [by left|right].
    subst d. Z.to_euclidean_division_equations; lia.
  - intros [[e ->]|Habs]; [Z.to_euclidean_division_equations; lia|].
    destruct (Z.Even_or_Odd d) as [[e ->]|[e ->]];
      Z.to_euclidean_division_equations; lia.
Qed.

(** The same for a time difference [2 * h + 1], where the midpoint
    timestamp lies [h] after the earlier sample. *)
Lemma odd_time_midpoint_nonneg (a d h : Z) :
  0 <= h -> 0 <= d ->
  a + (d * h) ÷ (2 * h + 1) = (a + (a + d)) ÷ 2
  <-> d = 0 \/ (Z.odd d = true /\ d <= 2 * h + 1 /\ 0 <= a + (a + d)).
Proof.
  intros Hh Hd. rewrite Z.odd_spec.
  rewrite (Z.quot_div_nonneg (d * h)) by nia.
  pose proof (Z.div_mod (d * h) (2 * h + 1) ltac:(lia)) as E.
  pose proof (Z.mod_pos_bound (d * h) (2 * h + 1) ltac:(lia)) as B.
  set (q := (d * h) / (2 * h + 1)) in *.
  set (r := (d * h) mod (2 * h + 1)) in *.
  destruct (Z.Even_or_Odd d) as [[e ->]|[e ->]].
  - assert (Hm : (a + (a + 2 * e)) ÷ 2 = a + e)
      by (Z.to_euclidean_division_equations; lia).
    rewrite Hm. split.
    + intros Eq. left. assert (q = e) by lia. subst q. nia.
    + intros [E0|[[c Hc] _]]; [|lia].
      assert (e = 0) by lia. subst e.
      assert (q = 0) by nia. lia.
  - destruct (Z_le_gt_dec e h) as [Heh|Heh].
    + assert (Hq : q = e) by nia.
      rewrite Hq. split.
      * intros Eq. right. split; [by exists e|]. split; [lia|].
        Z.to_euclidean_division_equations; lia.
      * intros [?|(_ & _ & Hs)]; [lia|].
        Z.to_euclidean_division_equations; lia.
    + assert (Hq : q < e) by nia.
      split.
      * intros Eq. exfalso. Z.to_euclidean_division_equations; lia.
      * intros [?|(_ & ? & _)]; lia.
Qed.

Lemma odd_time_midpoint (a d h : Z) :
  0 <= h ->
  a + (d * h) ÷ (2 * h + 1) = (a + (a + d)) ÷ 2
  <-> d = 0 \/ (Z.odd d = true /\ Z.abs d <= 2 * h + 1 /\
                Z.abs a <= Z.abs (a + d)).
Proof.
  intros Hh. destruct (Z_le_gt_dec 0 d) as [Hd|Hd].
  - rewrite (odd_time_midpoint_nonneg a d h Hh Hd).
    rewrite Z.odd_spec.
    split; (intros [?|(Ho & ? & ?)]; [by left|right]);
      (split; [done|]); destruct Ho as [c ->]; lia.
  - pose proof (odd_time_midpoint_nonneg (- a) (- d) h Hh ltac:(lia)) as H.
    replace (- d * h) with (- (d * h)) in H by lia.
    rewrite Z.quot_opp_l in H by lia.
    replace (- a + (- a + - d)) with (- (a + (a + d))) in H by lia.
    rewrite Z.quot_opp_l in H by lia.
    rewrite Z.odd_opp in H. rewrite Z.odd_spec in *.
    split.
    + intros Eq. destruct H as [H _].
      destruct H as [?|(Ho & ? & ?)]; [lia|lia|right].
      split; [done|]. destruct Ho as [c ->]. lia.
    + intros [?|(Ho & ? & ?)]; [lia|].
      destruct H as [_ H].
      assert (- a + - ((d * h) ÷ (2 * h + 1)) = - ((a + (a + d)) ÷ 2)); [|lia].
      apply H. right. split; [done|]. destruct Ho as [c ->]. lia.
Qed.

(** Below 2^24 the single-precision arithmetic is exact. *)
Lemma interpolate_exact (a b : temperature_sample_t) (t : Z) :
  typed_sample a -> typed_sample b ->
  uptime a < uptime b -> uptime a <= t <= uptime b ->
  uptime b - uptime a < 2 ^ 24 ->
  Z.abs ((temperature b - temperature a) * (t - uptime a)) < 2 ^ 24 ->
  interpolate a b t
  = Done {| temperature :=
              temperature a
              + ((temperature b - temperature a) * (t - uptime a))
                ÷ (uptime b - uptime a);
            uptime := t |}.
Proof.
  intros Hta Htb Hlt Ht HT Hsmall. rewrite interpolate_inside by done.
  destruct Hta as [Ha Hua], Htb as [Hb Hub].
  rewrite f32_scaled_quotient by lia.
  rewrite wrap_s16_add_wrap. do 2 f_equal. apply wrap_s16_id.
  destruct (quot_fraction_between (temperature b - temperature a)
              (t - uptime a) (uptime b - uptime a)) as [Hpos Hneg]; [lia|lia|].
  unfold in_s16 in *.
  destruct (Z_le_gt_dec 0 (temperature b - temperature a)) as [Hd|Hd].
  - specialize (Hpos Hd). lia.
  - specialize (Hneg ltac:(lia)). lia.
Qed.

Lemma done_sample_inj (v v' t : Z) :
  Done {| temperature := v; uptime := t |}
  = Done {| temperature := v'; uptime := t |} <-> v = v'.
Proof. split; [congruence|by intros ->]. Qed.

(** C3, as amended.  A result of [interpolate] carries the requested
    timestamp.  For equal timestamps the value is the mean of the two
    values, truncated toward zero, whatever the target.  When the first
    sample is the earlier one, the value is [a.value + d], where [d] is
    the single-precision product of [delta_value = b.value - a.value] and
    [delta_to_target = target - a.timestamp] (taken modulo 2^32), divided
    in single precision by [delta_time = b.timestamp - a.timestamp] and
    cast to [int16_t]; there is a result exactly when that cast has one.
    For a target between the two timestamps the cast has a result, the
    quotient truncated toward zero and narrowed to 16 bits.  When moreover
    [delta_time] and [|delta_value * delta_to_target|] are below 2^24, the
    single-precision arithmetic is exact and the value is
    [a.value + (delta_value * delta_to_target) ÷ delta_time].  At the
    midpoint timestamp this is the mean [(a.value + b.value) / 2] exactly
    in these cases: for an even [delta_time], when [delta_value] is even or
    [|a.value| <= |b.value|]; for an odd [delta_time], when [delta_value]
    is zero, or is odd and at most [delta_time] in absolute value with
    [|a.value| <= |b.value|]. *)
Theorem interpolate_by_cases (a b : temperature_sample_t) (t : Z) :
  typed_sample a -> typed_sample b ->
  let delta_value := temperature b - temperature a in
  let delta_time := uptime b - uptime a in
  let delta_to_target := t - uptime a in
  let midpoint := (uptime a + uptime b) / 2 in
  (forall s, interpolate a b t = Done s -> uptime s = t) /\
  (uptime a = uptime b ->
   interpolate a b t
   = Done {| temperature := (temperature a + temperature b) ÷ 2;
             uptime := t |}) /\
  (uptime a < uptime b ->
   interpolate a b t
   = (d ← s16_of_f32
            (f32_div (f32_mul (f32_of_Z delta_value)
                              (f32_of_Z (wrap_u32 delta_to_target)))
                     (f32_of_Z delta_time));
      Done {| temperature := wrap_s16 (temperature a + d); uptime := t |})) /\
  (uptime a < uptime b -> uptime a <= t <= uptime b ->
   interpolate a b t
   = Done {| temperature :=
               wrap_s16 (temperature a + wrap_s16 (Z_of_f32
                 (f32_div (f32_mul (f32_of_Z delta_value)
                                   (f32_of_Z delta_to_target))
                          (f32_of_Z delta_time))));
             uptime := t |}) /\
  (uptime a < uptime b -> uptime a <= t <= uptime b ->
   delta_time < 2 ^ 24 -> Z.abs (delta_value * delta_to_target) < 2 ^ 24 ->
   interpolate a b t
   = Done {| temperature :=
               temperature a + (delta_value * delta_to_target) ÷ delta_time;
             uptime := t |}) /\
  (uptime a < uptime b ->
   delta_time < 2 ^ 24 -> Z.abs (delta_value * (delta_time / 2)) < 2 ^ 24 ->
   interpolate a b midpoint
   = Done {| temperature := (temperature a + temperature b) ÷ 2;
             uptime := midpoint |}
   <-> if Z.even delta_time
       then Z.even delta_value = true \/
            Z.abs (temperature a) <= Z.abs (temperature b)
       else delta_value = 0 \/
            (Z.odd delta_value = true /\ Z.abs delta_value <= delta_time /\
             Z.abs (temperature a) <= Z.abs (temperature b))).
Proof.
  intros Hta Htb delta_value delta_time delta_to_target midpoint.
  split; [|split; [|split; [|split; [|split]]]].
  - intros s. unfold interpolate.
    destruct (uptime a =? uptime b); [by intros [= <-]|]. cbv zeta.
    destruct (s16_of_f32 _); [|done|done]. by intros [= <-].
  - by apply interpolate_same_time.
  - by apply interpolate_earlier_first.
  - by apply interpolate_inside.
  - by apply interpolate_exact.
  - intros Hlt HT Hsmall.
    pose proof (Z.div_mod delta_time 2 ltac:(lia)) as EhT.
    pose proof (Z.mod_pos_bound delta_time 2 ltac:(lia)) as BhT.
    set (h := delta_time / 2) in *.
    assert (Emid : midpoint = uptime a + h).
    { unfold midpoint.
      replace (uptime a + uptime b) with (delta_time + uptime a * 2)
        by (unfold delta_time; lia).
      rewrite Z.div_add by lia. fold h. lia. }
    rewrite Emid.
    rewrite interpolate_exact;
      [|done|done|done|unfold delta_time in *; lia|done|].
    2: { replace (uptime a + h - uptime a) with h by lia. done. }
    replace (uptime a + h - uptime a) with h by lia.
    fold delta_value delta_time. rewrite done_sample_inj.
    replace (temperature a + temperature b)
      with (temperature a + (temperature a + delta_value))
      by (unfold delta_value; lia).
    replace (temperature b) with (temperature a + delta_value)
      by (unfold delta_value; lia).
    rewrite Zeven_mod. destruct (Z.eqb_spec (delta_time mod 2) 0) as [E0|E1].
    + replace delta_time with (2 * h) by lia.
      rewrite Z.quot_mul_cancel_r by lia.
      apply half_difference_half_sum.
    + replace delta_time with (2 * h + 1) by lia.
      apply odd_time_midpoint. unfold delta_time in *. lia.
Qed.

Lemma interpolate_by_cases_witness :
  let a := {| temperature := 160; uptime := 10 |} in
  let b := {| temperature := 320; uptime := 20 |} in
  let delta_value := temperature b - temperature a in
  let delta_time := uptime b - uptime a in
  let delta_to_target := 15 - uptime a in
  let midpoint := (uptime a + uptime b) / 2 in
  typed_sample a /\ typed_sample b /\
  (forall s, interpolate a b 15 = Done s -> uptime s = 15) /\
  (uptime a = uptime b ->
   interpolate a b 15
   = Done {| temperature := (temperature a + temperature b) ÷ 2;
             uptime := 15 |}) /\
  (uptime a < uptime b ->
   interpolate a b 15
   = (d ← s16_of_f32
            (f32_div (f32_mul (f32_of_Z delta_value)
                              (f32_of_Z (wrap_u32 delta_to_target)))
                     (f32_of_Z delta_time));
      Done {| temperature := wrap_s16 (temperature a + d); uptime := 15 |})) /\
  (uptime a < uptime b -> uptime a <= 15 <= uptime b ->
   interpolate a b 15
   = Done {| temperature :=
               wrap_s16 (temperature a + wrap_s16 (Z_of_f32
                 (f32_div (f32_mul (f32_of_Z delta_value)
                                   (f32_of_Z delta_to_target))
                          (f32_of_Z delta_time))));
             uptime := 15 |}) /\
  (uptime a < uptime b -> uptime a <= 15 <= uptime b ->
   delta_time < 2 ^ 24 -> Z.abs (delta_value * delta_to_target) < 2 ^ 24 ->
   interpolate a b 15
   = Done {| temperature :=
               temperature a + (delta_value * delta_to_target) ÷ delta_time;
             uptime := 15 |}) /\
  (uptime a < uptime b ->
   delta_time < 2 ^ 24 -> Z.abs (delta_value * (delta_time / 2)) < 2 ^ 24 ->
   interpolate a b midpoint
   = Done {| temperature := (temperature a + temperature b) ÷ 2;
             uptime := midpoint |}
   <-> if Z.even delta_time
       then Z.even delta_value = true \/
            Z.abs (temperature a) <= Z.abs (temperature b)
       else delta_value = 0 \/
            (Z.odd delta_value = true /\ Z.abs delta_value <= delta_time /\
             Z.abs (temperature a) <= Z.abs (temperature b))).
Proof.
  intros a b delta_value delta_time delta_to_target midpoint.
  assert (Ha : typed_sample a) by (unfold typed_sample, in_s16, in_u32; simpl; lia).
  assert (Hb : typed_sample b) by (unfold typed_sample, in_s16, in_u32; simpl; lia).
  split; [exact Ha|]. split; [exact Hb|].
  exact (interpolate_by_cases a b 15 Ha Hb).
Defined.

(** Halfway between [(10 min, 160)] and [(20 min, 320)] the value is
    [240]. *)
Example interpolate_halfway :
  interpolate {| temperature := 160; uptime := 10 |}
              {| temperature := 320; uptime := 20 |} 15
  = Done {| temperature := 240; uptime := 15 |}.
Proof. vm_compute. reflexivity. Qed.

(** A target far after the later sample takes the quotient out of the
    range of the cast: between [(0 min, 100)] and [(1 min, 101)] the
    quotient for the target 2147484004 is 2^31 + 256, and the call has no
    defined result. *)
Example interpolate_cast_out_of_range :
  Z_of_f32 (f32_div (f32_mul (f32_of_Z 1) (f32_of_Z 2147484004))
                    (f32_of_Z 1)) = 2 ^ 31 + 256 /\
  interpolate {| temperature := 100; uptime := 0 |}
              {| temperature := 101; uptime := 1 |} 2147484004
  = Undefined.
Proof. split; vm_compute; reflexivity. Qed.

(** C3 as stated fails at the midpoint.  Between [(0 min, 0)] and
    [(1 min, 100)] the midpoint timestamp is [0], where the interpolation
    gives [0] and not the mean [50].  Between [(0 min, -4)] and
    [(2 min, 1)] the midpoint is [1] and the difference [5] is halved
    toward zero, which gives [-4 + 2 = -2], while the truncated mean of
    [-4] and [1] is [-1]. *)
Lemma interpolate_midpoint_counterexample :
  let a := {| temperature := 0; uptime := 0 |} in
  let b := {| temperature := 100; uptime := 1 |} in
  let a' := {| temperature := -4; uptime := 0 |} in
  let b' := {| temperature := 1; uptime := 2 |} in
  (typed_sample a /\ typed_sample b /\ uptime a <> uptime b /\
   interpolate a b ((uptime a + uptime b) / 2)
     = Done {| temperature := 0; uptime := 0 |} /\
   (temperature a + temperature b) ÷ 2 = 50 /\
   interpolate a b ((uptime a + uptime b) / 2)
     <> Done {| temperature := (temperature a + temperature b) ÷ 2;
                uptime := (uptime a + uptime b) / 2 |}) /\
  (typed_sample a' /\ typed_sample b' /\ uptime a' <> uptime b' /\
   interpolate a' b' ((uptime a' + uptime b') / 2)
     = Done {| temperature := -2; uptime := 1 |} /\
   (temperature a' + temperature b') ÷ 2 = -1 /\
   interpolate a' b' ((uptime a' + uptime b') / 2)
     <> Done {| temperature := (temperature a' + temperature b') ÷ 2;
                uptime := (uptime a' + uptime b') / 2 |}).
Proof.
  intros a b a' b'. unfold typed_sample, in_s16, in_u32. simpl.
  repeat split; try lia; try discriminate; reflexivity.
Qed.

(** With the later sample passed first the difference of the values is
    taken with the wrong sign: between [(10 min, 0)] and [(20 min, 100)]
    at 15 min the result is [-50]; in the other order it is [50]. *)
Lemma interpolate_later_first_example :
  interpolate {| temperature := 100; uptime := 20 |}
              {| temperature := 0; uptime := 10 |} 15
    = Done {| temperature := -50; uptime := 15 |} /\
  interpolate {| temperature := 0; uptime := 10 |}
              {| temperature := 100; uptime := 20 |} 15
    = Done {| temperature := 50; uptime := 15 |}.
Proof. split; vm_compute; reflexivity. Qed.

(** ** Two-way merge *)

Section MergeBy.
Context {A : Type} (key : A -> Z).

Lemma merge_by_nil_l (ys : list A) : merge_by key [] ys = ys.
Proof. by destruct ys. Qed.

Lemma merge_by_nil_r (xs : list A) : merge_by key xs [] = xs.
Proof. by destruct xs. Qed.

Lemma merge_by_cons (x y : A) (xs ys : list A) :
  merge_by key (x :: xs) (y :: ys)
  = if key x <? key y then x :: merge_by key xs (y :: ys)
    else y :: merge_by key (x :: xs) ys.
Proof. reflexivity. Qed.

Lemma merge_by_perm (xs ys : list A) : merge_by key xs ys ≡ₚ xs ++ ys.
Proof.
  revert ys. induction xs as [|x xs IHx]; intros ys.
  - by rewrite merge_by_nil_l.
  - induction ys as [|y ys IHy].
    + by rewrite merge_by_nil_r, app_nil_r.
    + rewrite merge_by_cons. destruct (key x <? key y).
      * simpl. by rewrite IHx.
      * rewrite IHy. by rewrite <- Permutation_middle.
Qed.

Lemma merge_by_length (xs ys : list A) :
  List.length (merge_by key xs ys) = (List.length xs + List.length ys)%nat.
Proof. by rewrite merge_by_perm, length_app. Qed.

Lemma merge_by_Forall (P : A -> Prop) (xs ys : list A) :
  Forall P xs -> Forall P ys -> Forall P (merge_by key xs ys).
Proof. intros Hx Hy. rewrite merge_by_perm. by apply Forall_app. Qed.

Lemma merge_by_sorted (xs ys : list A) :
  StronglySorted (fun a b => key a <= key b) xs ->
  StronglySorted (fun a b => key a <= key b) ys ->
  StronglySorted (fun a b => key a <= key b) (merge_by key xs ys).
Proof.
  revert ys. induction xs as [|x xs IHx]; intros ys Hxs Hys.
  - by rewrite merge_by_nil_l.
  - induction ys as [|y ys IHy].
    + by rewrite merge_by_nil_r.
    + rewrite merge_by_cons.
      apply StronglySorted_inv in Hxs as [Hxs Hx].
      apply StronglySorted_inv in Hys as [Hys Hy].
      destruct (Z.ltb_spec (key x) (key y)) as [Hlt|Hge].
      * constructor; [apply IHx; [done | by constructor]|].
        apply merge_by_Forall; [done|].
        constructor; [lia|]. eapply Forall_impl; [exact Hy|]. simpl. lia.
      * constructor; [apply IHy; done|].
        apply merge_by_Forall; [|done].
        constructor; [lia|]. eapply Forall_impl; [exact Hx|]. simpl. lia.
Qed.

(** The merge of two non-empty lists ends with the last element of one of
    them. *)
Lemma merge_by_last (xs ys : list A) (z : A) :
  last (merge_by key xs ys) = Some z ->
  last xs = Some z \/ last ys = Some z.
Proof.
  revert ys. induction xs as [|x xs IHx]; intros ys.
  - rewrite merge_by_nil_l. auto.
  - induction ys as [|y ys IHy].
    + rewrite merge_by_nil_r. auto.
    + rewrite merge_by_cons. destruct (key x <? key y).
      * rewrite last_cons. destruct (last (merge_by key xs (y :: ys))) eqn:E.
        -- intros [= ->]. destruct (IHx _ E) as [Hl|Hl]; [|by right].
           left. by rewrite last_cons, Hl.
        -- apply last_None in E.
           pose proof (merge_by_length xs (y :: ys)) as Hlen.
           rewrite E in Hlen. simpl in Hlen. lia.
      * rewrite last_cons. destruct (last (merge_by key (x :: xs) ys)) eqn:E.
        -- intros [= ->]. destruct (IHy eq_refl) as [Hl|Hl]; [by left|].
           right. by rewrite last_cons, Hl.
        -- apply last_None in E.
           pose proof (merge_by_length (x :: xs) ys) as Hlen.
           rewrite E in Hlen. simpl in Hlen. lia.
Qed.

End MergeBy.

Lemma merge_by_fmap {A B : Type} (f : A -> B) (key : B -> Z) (xs ys : list A) :
  f <$> merge_by (key ∘ f) xs ys = merge_by key (f <$> xs) (f <$> ys).
Proof.
  revert ys. induction xs as [|x xs IHx]; intros ys.
  - by rewrite fmap_nil, !merge_by_nil_l.
  - induction ys as [|y ys IHy].
    + by rewrite fmap_nil, !merge_by_nil_r.
    + rewrite !fmap_cons, !merge_by_cons. simpl.
      destruct (key (f x) <? key (f y)).
      * rewrite fmap_cons. f_equal. apply IHx.
      * rewrite fmap_cons. f_equal. apply IHy.
Qed.

(** ** Cells of a list object *)

Lemma samples_length (N : nat) (l : temperature_list_t) :
  wf_list N l -> List.length (samples l) = length l.
Proof. intros (Hd & Hl & _). unfold samples. rewrite length_take. lia. Qed.

Lemma samples_lookup (l : temperature_list_t) (k : nat) :
  (k < length l)%nat -> samples l !! k = data l !! k.
Proof. intros Hk. unfold samples. by rewrite lookup_take_lt. Qed.

Lemma data_lookup_is_Some (N : nat) (l : temperature_list_t) (k : nat) :
  wf_list N l -> (k < length l)%nat -> exists x, data l !! k = Some x.
Proof.
  intros (Hd & Hl & _) Hk. apply lookup_lt_is_Some. lia.
Qed.

Lemma cells_cons (N : nat) (p : ptr) (l : temperature_list_t) (k : nat) :
  wf_list N l -> (k < length l)%nat ->
  exists x, data l !! k = Some x /\
            cells p l k = ((p, k), x) :: cells p l (S k).
Proof.
  intros Hw Hk. destruct (data_lookup_is_Some N l k Hw Hk) as [x Hx].
  exists x. split; [done|]. unfold cells.
  rewrite (drop_S _ x k) by (by rewrite samples_lookup). done.
Qed.

Lemma cells_end (N : nat) (p : ptr) (l : temperature_list_t) (k : nat) :
  wf_list N l -> (length l <= k)%nat -> cells p l k = [].
Proof.
  intros Hw Hk. unfold cells. rewrite drop_ge; [done|].
  rewrite (samples_length N) by done. lia.
Qed.

Lemma cells_from_values (p : ptr) (xs : list temperature_sample_t) (k : nat) :
  (cells_from p xs k).*2 = xs.
Proof. revert k. induction xs as [|x xs IH]; intros k; simpl; by rewrite ?IH. Qed.

Lemma cells_values (p : ptr) (l : temperature_list_t) :
  (cells p l 0).*2 = samples l.
Proof. unfold cells. by rewrite drop_0, cells_from_values. Qed.

Lemma cells_length (N : nat) (p : ptr) (l : temperature_list_t) (k : nat) :
  wf_list N l -> List.length (cells p l k) = (length l - k)%nat.
Proof.
  intros Hw. rewrite <- (length_fmap snd). unfold cells.
  rewrite cells_from_values, length_drop, (samples_length N); done.
Qed.

Lemma cells_from_readable (h : gmap Z temperature_list_t) (p : ptr)
    (l : temperature_list_t) (xs : list temperature_sample_t) (k : nat) :
  points_to h p l ->
  (forall i x, xs !! i = Some x -> data l !! (k + i)%nat = Some x) ->
  Forall (fun c => read_sample h c.1 = Done c.2) (cells_from p xs k).
Proof.
  intros Hp. revert k. induction xs as [|x xs IH]; intros k Hxs; simpl.
  - constructor.
  - constructor.
    + unfold read_sample. simpl. rewrite (read_list_points_to _ _ _ Hp).
      rewrite bind_Done. specialize (Hxs 0%nat x eq_refl).
      rewrite Nat.add_0_r in Hxs. by rewrite Hxs.
    + apply IH. intros i y Hy. specialize (Hxs (S i) y Hy).
      by replace (S k + i)%nat with (k + S i)%nat by lia.
Qed.

Lemma cells_readable (h : gmap Z temperature_list_t) (p : ptr)
    (l : temperature_list_t) (k : nat) :
  points_to h p l ->
  Forall (fun c => read_sample h c.1 = Done c.2) (cells p l k).
Proof.
  intros Hp. apply (cells_from_readable h p l); [done|].
  intros i x. rewrite lookup_drop. unfold samples.
  intros Hx. apply lookup_take_Some in Hx. tauto.
Qed.

Lemma cells_typed (N : nat) (p : ptr) (l : temperature_list_t) (k : nat) :
  wf_list N l -> Forall (fun c => typed_sample c.2) (cells p l k).
Proof.
  intros (_ & _ & Ht).
  change (Forall (typed_sample ∘ snd) (cells p l k)).
  apply Forall_fmap. unfold cells.
  rewrite cells_from_values. apply Forall_drop. unfold samples.
  by apply Forall_take.
Qed.

(** ** The merge iterator hands out the merge of the two lists *)

Section Iterator.
Variable N : nat.
Variable h : gmap Z temperature_list_t.
Variables p1 p2 : ptr.
Variables l1 l2 : temperature_list_t.
Hypothesis Hp1 : points_to h p1 l1.
Hypothesis Hp2 : points_to h p2 l2.
Hypothesis Hw1 : wf_list N l1.
Hypothesis Hw2 : wf_list N l2.

Lemma read_cell (p : ptr) (l : temperature_list_t) (k : nat)
    (x : temperature_sample_t) :
  points_to h p l -> data l !! k = Some x -> read_sample h (p, k) = Done x.
Proof.
  intros Hp Hx. unfold read_sample. simpl.
  rewrite (read_list_points_to _ _ _ Hp), bind_Done. by rewrite Hx.
Qed.

Lemma init_merge_iterator_pending (m0 : merge_iterator_t) :
  exists m,
    init_merge_iterator h m0 p1 p2 = Done m /\
    iterator_pending h p1 p2 l1 l2 m
      (merge_by cell_uptime (cells p1 l1 0) (cells p2 l2 0)).
Proof.
  unfold init_merge_iterator.
  rewrite (read_list_points_to _ _ _ Hp1), (read_list_points_to _ _ _ Hp2).
  rewrite !bind_Done.
  destruct (Nat.eqb_spec (length l1) 0) as [E1|E1];
    destruct (Nat.eqb_spec (length l2) 0) as [E2|E2]; simpl.
  - eexists. split; [reflexivity|].
    rewrite (cells_end N p1 l1), (cells_end N p2 l2) by (done || lia).
    done.
  - destruct (cells_cons N p2 l2 0) as (y & Hy & Ey); [done|lia|].
    eexists. split; [reflexivity|].
    rewrite (cells_end N p1 l1 0), Ey, merge_by_nil_l by (done || lia).
    repeat split; simpl; try lia; try apply Hp2.
    + by apply (read_cell p2 l2).
    + by rewrite (cells_end N p1 l1 0), merge_by_nil_l by (done || lia).
  - destruct (cells_cons N p1 l1 0) as (x & Hx & Ex); [done|lia|].
    eexists. split; [reflexivity|].
    rewrite (cells_end N p2 l2 0), Ex, merge_by_nil_r by (done || lia).
    repeat split; simpl; try lia; try apply Hp1.
    + by apply (read_cell p1 l1).
    + by rewrite (cells_end N p2 l2 0), merge_by_nil_r by (done || lia).
  - destruct (cells_cons N p1 l1 0) as (x & Hx & Ex); [done|lia|].
    destruct (cells_cons N p2 l2 0) as (y & Hy & Ey); [done|lia|].
    rewrite Hx, Hy. simpl.
    rewrite Ex, Ey, merge_by_cons. unfold cell_uptime at 1 2. simpl.
    destruct (uptime x <? uptime y).
    + eexists. split; [reflexivity|].
      repeat split; simpl; try lia; try apply Hp1.
      * by apply (read_cell p1 l1).
      * by rewrite Ey.
    + eexists. split; [reflexivity|].
      repeat split; simpl; try lia; try apply Hp2.
      * by apply (read_cell p2 l2).
      * by rewrite Ex.
Qed.

Lemma merge_iterate_pending (m : merge_iterator_t) (sample : sample_ptr)
    (c : sample_ptr * temperature_sample_t)
    (rest : list (sample_ptr * temperature_sample_t)) :
  iterator_pending h p1 p2 l1 l2 m (c :: rest) ->
  exists m',
    merge_iterate h m sample = Done (E_SUCCESS, m', c.1) /\
    iterator_pending h p1 p2 l1 l2 m' rest.
Proof.
  intros (Hs1 & Hs2 & Hcur & Hc & Hrd & Hn1 & Hn2 & Hrest).
  unfold merge_iterate.
  destruct (Z.eqb_spec (current_list m) NULL) as [?|_]; [done|].
  rewrite Hs1, Hs2.
  rewrite (read_list_points_to _ _ _ Hp1), (read_list_points_to _ _ _ Hp2).
  rewrite !bind_Done, <- Hc.
  destruct (Nat.eqb_spec (next_src1_index m) (length l1)) as [E1|E1];
    destruct (Nat.eqb_spec (next_src2_index m) (length l2)) as [E2|E2]; simpl.
  - eexists. split; [reflexivity|].
    rewrite (cells_end N p1 l1), (cells_end N p2 l2) in Hrest by (done || lia).
    subst rest. done.
  - destruct (cells_cons N p2 l2 (next_src2_index m)) as (y & Hy & Ey);
      [done|lia|].
    rewrite (cells_end N p1 l1), Ey, merge_by_nil_l in Hrest by (done || lia).
    eexists. split; [reflexivity|]. subst rest.
    repeat split; simpl; try lia; try apply Hp2; try done.
    + by apply (read_cell p2 l2).
    + by rewrite (cells_end N p1 l1), merge_by_nil_l by (done || lia).
  - destruct (cells_cons N p1 l1 (next_src1_index m)) as (x & Hx & Ex);
      [done|lia|].
    rewrite (cells_end N p2 l2), Ex, merge_by_nil_r in Hrest by (done || lia).
    eexists. split; [reflexivity|]. subst rest.
    repeat split; simpl; try lia; try apply Hp1; try done.
    + by apply (read_cell p1 l1).
    + by rewrite (cells_end N p2 l2), merge_by_nil_r by (done || lia).
  - destruct (cells_cons N p1 l1 (next_src1_index m)) as (x & Hx & Ex);
      [done|lia|].
    destruct (cells_cons N p2 l2 (next_src2_index m)) as (y & Hy & Ey);
      [done|lia|].
    rewrite Hx, Hy. simpl.
    rewrite Ex, Ey, merge_by_cons in Hrest. unfold cell_uptime at 1 2 in Hrest.
    simpl in Hrest.
    destruct (uptime x <? uptime y).
    + eexists. split; [reflexivity|]. subst rest.
      repeat split; simpl; try lia; try apply Hp1; try done.
      * by apply (read_cell p1 l1).
      * by rewrite Ey.
    + eexists. split; [reflexivity|]. subst rest.
      repeat split; simpl; try lia; try apply Hp2; try done.
      * by apply (read_cell p2 l2).
      * by rewrite Ex.
Qed.

Lemma merge_iterate_exhausted (m : merge_iterator_t) (sample : sample_ptr) :
  current_list m = NULL ->
  merge_iterate h m sample = Done (E_END_OF_ITER, m, sample).
Proof. intros E. unfold merge_iterate. by rewrite E. Qed.

Lemma pending_readable (n1 n2 : nat) :
  Forall (fun c => read_sample h c.1 = Done c.2)
         (merge_by cell_uptime (cells p1 l1 n1) (cells p2 l2 n2)).
Proof. apply merge_by_Forall; by apply cells_readable. Qed.

Lemma pending_typed (n1 n2 : nat) :
  Forall (fun c => typed_sample c.2)
         (merge_by cell_uptime (cells p1 l1 n1) (cells p2 l2 n2)).
Proof using Hw1 Hw2. apply merge_by_Forall; by apply (cells_typed N). Qed.

End Iterator.

(** ** Exact merge *)

Lemma memmove_samples_take (dst src : list temperature_sample_t) (n : nat) :
  (n <= List.length src)%nat -> take n (memmove_samples dst src n) = take n src.
Proof.
  intros Hn. unfold memmove_samples.
  rewrite take_app_le by (rewrite length_take; lia).
  rewrite take_take. f_equal. lia.
Qed.

Section ExactMerge.
Variable N : nat.
Variable h : gmap Z temperature_list_t.
Variables p1 p2 : ptr.
Variables l1 l2 : temperature_list_t.
Hypothesis Hp1 : points_to h p1 l1.
Hypothesis Hp2 : points_to h p2 l2.
Hypothesis Hw1 : wf_list N l1.
Hypothesis Hw2 : wf_list N l2.

(** The loop copies what the iterator has left behind the [index] cells
    already staged, and stores the staging buffer in [dest] at the end of
    the iteration.  The staging buffer does not depend on [dest]. *)
Lemma drain_loop_pending
    (pending : list (sample_ptr * temperature_sample_t)) :
  forall (fuel : nat) (m : merge_iterator_t) (sample : sample_ptr)
         (merged : list temperature_sample_t) (index : nat),
  iterator_pending h p1 p2 l1 l2 m pending ->
  Forall (fun c => read_sample h c.1 = Done c.2) pending ->
  List.length merged = N ->
  (index + List.length pending <= N)%nat ->
  (List.length pending < fuel)%nat ->
  exists merged',
    List.length merged' = N /\
    take (index + List.length pending) merged'
      = take index merged ++ pending.*2 /\
    forall dest d, points_to h dest d ->
      drain_loop N fuel h dest m sample merged index
      = Done (E_SUCCESS,
              <[dest := {| data := memmove_samples (data d) merged'
                                     (index + List.length pending);
                           length := index + List.length pending |}]> h).
Proof.
  induction pending as [|c rest IH];
    intros fuel m sample merged index Hpend Hread Hlen Hroom Hfuel.
  - exists merged. simpl in *. rewrite Nat.add_0_r, app_nil_r.
    split; [done|]. split; [done|]. intros dest d Hd.
    destruct fuel as [|fuel]; [lia|]. simpl.
    destruct Hpend as (_ & _ & Hcur).
    rewrite (merge_iterate_exhausted h m sample Hcur), bind_Done.
    rewrite (read_list_points_to _ _ _ Hd), bind_Done.
    destruct (Nat.leb_spec index N); [done|lia].
  - destruct fuel as [|fuel]; [simpl in Hfuel; lia|].
    destruct (merge_iterate_pending N h p1 p2 l1 l2 Hp1 Hp2 Hw1 Hw2
                m sample c rest Hpend) as (m' & Hstep & Hpend').
    apply Forall_cons in Hread as [Hc Hread].
    destruct (IH fuel m' c.1 (<[index := c.2]> merged) (S index))
      as (merged' & Hlen' & Htake & Hrun);
      [done|done|by rewrite length_insert|simpl in *; lia|simpl in *; lia|].
    exists merged'. simpl List.length.
    replace (index + S (List.length rest))%nat
      with (S index + List.length rest)%nat by lia.
    split; [done|]. split.
    + rewrite Htake, fmap_cons.
      rewrite (take_S_r _ _ c.2)
        by (apply list_lookup_insert_eq; simpl in *; lia).
      rewrite take_insert_ge by lia. by rewrite <- app_assoc.
    + intros dest d Hd. simpl. rewrite Hstep, bind_Done, Hc, bind_Done.
      destruct (Nat.ltb_spec index N); [|simpl in *; lia].
      by apply Hrun.
Qed.

Lemma merge_without_decimation_staged (fuel : nat) :
  (length l1 + length l2 <= N)%nat ->
  (length l1 + length l2 < fuel)%nat ->
  exists merged',
    List.length merged' = N /\
    take (length l1 + length l2) merged'
      = merge_by uptime (samples l1) (samples l2) /\
    forall dest d, points_to h dest d ->
      merge_without_decimation N fuel h p1 p2 dest
      = Done (E_SUCCESS,
              <[dest := {| data := memmove_samples (data d) merged'
                                     (length l1 + length l2);
                           length := length l1 + length l2 |}]> h).
Proof.
  intros Hroom Hfuel.
  destruct (init_merge_iterator_pending N h p1 p2 l1 l2 Hp1 Hp2 Hw1 Hw2
              iterator_init) as (m & Hinit & Hpend).
  set (pending := merge_by cell_uptime (cells p1 l1 0) (cells p2 l2 0)) in *.
  assert (Hlen : List.length pending = (length l1 + length l2)%nat).
  { unfold pending. rewrite merge_by_length, !(cells_length N) by done. lia. }
  destruct (drain_loop_pending pending fuel m NULL_sample (merged_init N) 0)
    as (merged' & Hlen' & Htake & Hrun).
  - done.
  - by apply pending_readable.
  - unfold merged_init. by rewrite length_replicate.
  - lia.
  - lia.
  - exists merged'. rewrite Hlen in *. simpl in *.
    split; [done|]. split.
    + rewrite Htake. unfold pending.
      change cell_uptime with (uptime ∘ (snd : sample_ptr * _ -> _)).
      by rewrite merge_by_fmap, !cells_values.
    + intros dest d Hd. unfold merge_without_decimation.
      rewrite (points_to_not_null _ _ _ Hp1), (points_to_not_null _ _ _ Hp2),
              (points_to_not_null _ _ _ Hd). simpl.
      rewrite Hinit, bind_Done. by apply Hrun.
Qed.

End ExactMerge.

#[local] Instance by_uptime_transitive : Transitive by_uptime.
Proof. unfold by_uptime. intros a b c. lia. Qed.

Lemma merge_by_uptime_sorted (xs ys : list temperature_sample_t) :
  Sorted by_uptime xs -> Sorted by_uptime ys ->
  Sorted by_uptime (merge_by uptime xs ys).
Proof.
  intros Hx Hy. apply StronglySorted_Sorted.
  pose proof (Sorted_StronglySorted by_uptime_transitive Hx) as Hx'.
  pose proof (Sorted_StronglySorted by_uptime_transitive Hy) as Hy'.
  exact (merge_by_sorted uptime xs ys Hx' Hy').
Qed.

(** C1.  When the two lengths add up to at most [N], equality included,
    [merge_temperature_lists] takes the exact-merge path and succeeds: the
    destination gets [length = length1 + length2], its samples are a
    permutation of the samples of the two sources, and they are
    non-decreasing in timestamp when the sources are. *)
Theorem merge_temperature_lists_exact
    (N fuel : nat) (h : gmap Z temperature_list_t) (src1' src2' dest : ptr)
    (l1 l2 d : temperature_list_t) :
  points_to h src1' l1 -> points_to h src2' l2 -> points_to h dest d ->
  wf_list N l1 -> wf_list N l2 ->
  Sorted by_uptime (samples l1) -> Sorted by_uptime (samples l2) ->
  (length l1 + length l2 <= N)%nat ->
  (length l1 + length l2 < fuel)%nat ->
  exists d',
    merge_temperature_lists N fuel h src1' src2' dest
      = Done (E_SUCCESS, <[dest := d']> h) /\
    merge_temperature_lists N fuel h src1' src2' dest
      = merge_without_decimation N fuel h src1' src2' dest /\
    length d' = (length l1 + length l2)%nat /\
    Sorted by_uptime (samples d') /\
    samples d' ≡ₚ samples l1 ++ samples l2.
Proof.
  intros Hp1 Hp2 Hd Hw1 Hw2 Hs1 Hs2 Hroom Hfuel.
  destruct (merge_without_decimation_staged N h src1' src2' l1 l2
              Hp1 Hp2 Hw1 Hw2 fuel Hroom Hfuel)
    as (merged' & Hlen & Htake & Hrun).
  assert (Hpath : merge_temperature_lists N fuel h src1' src2' dest
                  = merge_without_decimation N fuel h src1' src2' dest).
  { unfold merge_temperature_lists.
    rewrite (points_to_not_null _ _ _ Hp1), (points_to_not_null _ _ _ Hp2),
            (points_to_not_null _ _ _ Hd). simpl.
    rewrite (read_list_points_to _ _ _ Hp1), (read_list_points_to _ _ _ Hp2).
    rewrite !bind_Done. by destruct (Nat.leb_spec (length l1 + length l2) N); [|lia]. }
  eexists. split; [rewrite Hpath; by apply Hrun|]. split; [done|].
  split; [done|].
  assert (Hsam : samples {| data := memmove_samples (data d) merged'
                                      (length l1 + length l2);
                            length := length l1 + length l2 |}
                 = merge_by uptime (samples l1) (samples l2)).
  { unfold samples at 1. simpl. rewrite memmove_samples_take by lia. done. }
  rewrite Hsam. split.
  - by apply merge_by_uptime_sorted.
  - apply merge_by_perm.
Qed.

Lemma merge_temperature_lists_exact_witness :
  let l1 := {| data := [ {| temperature := 160; uptime := 10 |};
                         {| temperature := 480; uptime := 30 |};
                         zero_sample; zero_sample ];
               length := 2 |} in
  let l2 := {| data := [ {| temperature := 320; uptime := 20 |};
                         {| temperature := 500; uptime := 30 |};
                         zero_sample; zero_sample ];
               length := 2 |} in
  let d := {| data := replicate 4 zero_sample; length := 0 |} in
  let h : gmap Z temperature_list_t := <[16 := l1]> (<[32 := l2]> (<[48 := d]> ∅)) in
  points_to h 16 l1 /\ points_to h 32 l2 /\ points_to h 48 d /\
  wf_list 4 l1 /\ wf_list 4 l2 /\
  Sorted by_uptime (samples l1) /\ Sorted by_uptime (samples l2) /\
  (length l1 + length l2 <= 4)%nat /\ (length l1 + length l2 < 5)%nat /\
  exists d',
    merge_temperature_lists 4 5 h 16 32 48 = Done (E_SUCCESS, <[48 := d']> h) /\
    merge_temperature_lists 4 5 h 16 32 48
      = merge_without_decimation 4 5 h 16 32 48 /\
    length d' = (length l1 + length l2)%nat /\
    Sorted by_uptime (samples d') /\
    samples d' ≡ₚ samples l1 ++ samples l2.
Proof.
  intros l1 l2 d h.
  assert (Hp1 : points_to h 16 l1) by (split; [discriminate | reflexivity]).
  assert (Hp2 : points_to h 32 l2) by (split; [discriminate | reflexivity]).
  assert (Hd : points_to h 48 d) by (split; [discriminate | reflexivity]).
  assert (Hw1 : wf_list 4 l1).
  { split; [reflexivity|]. split; [simpl; lia|].
    repeat constructor; simpl; lia. }
  assert (Hw2 : wf_list 4 l2).
  { split; [reflexivity|]. split; [simpl; lia|].
    repeat constructor; simpl; lia. }
  assert (Hs1 : Sorted by_uptime (samples l1)).
  { repeat constructor. unfold by_uptime. simpl. lia. }
  assert (Hs2 : Sorted by_uptime (samples l2)).
  { repeat constructor. unfold by_uptime. simpl. lia. }
  assert (Hroom : (length l1 + length l2 <= 4)%nat) by (simpl; lia).
  assert (Hfuel : (length l1 + length l2 < 5)%nat) by (simpl; lia).
  repeat (split; [assumption|]).
  exact (merge_temperature_lists_exact 4 5 h 16 32 48 l1 l2 d
           Hp1 Hp2 Hd Hw1 Hw2 Hs1 Hs2 Hroom Hfuel).
Defined.

(** ** Decimation *)

Lemma interpolate_uptime (a b s : temperature_sample_t) (t : Z) :
  interpolate a b t = Done s -> uptime s = t.
Proof.
  unfold interpolate. destruct (uptime a =? uptime b); [by intros [= <-]|].
  cbv zeta. destruct (s16_of_f32 _); [|done|done]. by intros [= <-].
Qed.

(** An emission of the decimation loop: the cursor pair encloses the
    target, so the interpolation has a result. *)
Lemma interpolate_in_range (p c : temperature_sample_t) (mu : Z) :
  typed_sample p -> typed_sample c ->
  (uptime p <=? mu) && (mu <=? uptime c) = true ->
  exists v, in_s16 v /\
            interpolate p c mu = Done {| temperature := v; uptime := mu |}.
Proof.
  intros Hp Hc Hin. apply andb_true_iff in Hin as [H1 H2].
  apply interpolate_defined; [done|done|lia].
Qed.

Lemma target_0 (start base long : Z) : 0 <= long -> target start base long 0 = start.
Proof. unfold target. simpl. lia. Qed.

Lemma target_S (start base long : Z) (k : nat) :
  target start base long (S k)
  = target start base long k + (base + (if Z.of_nat (S k) <=? long then 1 else 0)).
Proof.
  unfold target. destruct (Z.leb_spec (Z.of_nat (S k)) long); lia.
Qed.

Lemma target_mono (start base long : Z) (k k' : nat) :
  0 <= base -> (k <= k')%nat ->
  target start base long k <= target start base long k'.
Proof.
  intros Hb Hk. unfold target.
  assert (Z.of_nat k * base <= Z.of_nat k' * base)
    by (apply Z.mul_le_mono_nonneg_r; lia).
  lia.
Qed.

Lemma target_last (start duration : Z) (N : nat) :
  (2 <= N)%nat -> 0 <= duration ->
  target start (duration / (Z.of_nat N - 1)) (duration mod (Z.of_nat N - 1))
         (N - 1)
  = start + duration.
Proof.
  intros HN Hd. unfold target.
  pose proof (Z.div_mod duration (Z.of_nat N - 1) ltac:(lia)) as Hdm.
  pose proof (Z.mod_pos_bound duration (Z.of_nat N - 1) ltac:(lia)) as Hm.
  replace (Z.of_nat (N - 1)) with (Z.of_nat N - 1) by lia.
  rewrite Z.min_r by lia. lia.
Qed.

Lemma in_range_eq (p c : temperature_sample_t) (mu : Z) :
  (if uptime p <=? mu
   then c' ← Done c; Done (mu <=? uptime c')
   else Done false)
  = Done ((uptime p <=? mu) && (mu <=? uptime c)).
Proof. by destruct (uptime p <=? mu). Qed.

Section Decimation.
Variable N : nat.
Variable h : gmap Z temperature_list_t.
Variables p1 p2 : ptr.
Variables l1 l2 : temperature_list_t.
Hypothesis Hp1 : points_to h p1 l1.
Hypothesis Hp2 : points_to h p2 l2.
Hypothesis Hw1 : wf_list N l1.
Hypothesis Hw2 : wf_list N l2.

(** From any state in which the cursor pair and the iterator are in step,
    the loop ends within [N - merge_index] emissions and one advance per
    pending cell, with [E_SUCCESS] or [E_ERROR]. *)
Lemma decimation_loop_terminates (base long : Z) (dest : ptr)
    (d : temperature_list_t) (fuel : nat) :
  points_to h dest d ->
  forall (m : merge_iterator_t) (pc cc : sample_ptr * temperature_sample_t)
         (rest : list (sample_ptr * temperature_sample_t))
         (merged : list temperature_sample_t) (k : nat) (mu : Z),
  iterator_pending h p1 p2 l1 l2 m rest ->
  Forall (fun c => read_sample h c.1 = Done c.2) (pc :: cc :: rest) ->
  Forall (fun c => typed_sample c.2) (pc :: cc :: rest) ->
  (k <= N)%nat ->
  (N - k + List.length rest < fuel)%nat ->
  exists err h',
    decimation_loop N fuel h dest base long m pc.1 cc.1 merged k mu
      = Done (err, h') /\
    (err = E_SUCCESS \/ err = E_ERROR).
Proof.
  intros Hd. induction fuel as [|fuel IH];
    intros m pc cc rest merged k mu Hpend Hread Htyped Hk Hfuel; [lia|].
  simpl. destruct (Nat.ltb_spec k N) as [Hlt|Hge].
  - apply Forall_cons in Hread as [Hpc Hread].
    pose proof Hread as Hread'. apply Forall_cons in Hread' as [Hcc Hrest].
    apply Forall_cons in Htyped as [Htpc Htyped].
    pose proof Htyped as Htyped'. apply Forall_cons in Htyped' as [Htcc _].
    rewrite Hpc, bind_Done, Hcc, in_range_eq, bind_Done.
    destruct ((uptime pc.2 <=? mu) && (mu <=? uptime cc.2)) eqn:Hin.
    + destruct (interpolate_in_range _ _ _ Htpc Htcc Hin) as (v & _ & Ev).
      rewrite !bind_Done, Ev, bind_Done.
      apply (IH m pc cc rest); [done|by constructor|by constructor|lia|lia].
    + destruct rest as [|c' rest'].
      * destruct Hpend as (_ & _ & Hcur).
        rewrite (merge_iterate_exhausted h m cc.1 Hcur), bind_Done.
        eauto.
      * destruct (merge_iterate_pending N h p1 p2 l1 l2 Hp1 Hp2 Hw1 Hw2
                    m cc.1 c' rest' Hpend) as (m' & Hstep & Hpend').
        rewrite Hstep, bind_Done.
        apply (IH m' cc c' rest'); [done|done|done|lia|simpl in *; lia].
  - rewrite (read_list_points_to _ _ _ Hd), bind_Done. eauto.
Qed.

Variables start base long end_uptime : Z.
Hypothesis Hbase : 0 <= base.
Hypothesis Hlong : 0 <= long.
Hypothesis Hstart : 0 <= start.
Hypothesis Hend : end_uptime < 2 ^ 32.
Hypothesis Htarget : target start base long (N - 1) = end_uptime.

Lemma target_step_no_wrap (k : nat) :
  (S k < N)%nat ->
  wrap_u32 (target start base long k +
            wrap_u32 (base + (if Z.of_nat (S k) <=? long then 1 else 0)))
  = target start base long (S k).
Proof.
  intros Hk.
  pose proof (target_mono start base long 0 k Hbase ltac:(lia)) as H0.
  pose proof (target_mono start base long (S k) (N - 1) Hbase ltac:(lia)) as H1.
  rewrite target_0 in H0 by done. rewrite Htarget in H1.
  rewrite target_S in H1 |- *.
  assert (0 <= base + (if Z.of_nat (S k) <=? long then 1 else 0))
    by (destruct (Z.of_nat (S k) <=? long); lia).
  rewrite (wrap_u32_id (base + _)) by (unfold in_u32; lia).
  apply wrap_u32_id. unfold in_u32. lia.
Qed.

(** With the last pending cell at [end_uptime], where the last target
    lies, the loop never runs out of cells: it emits the targets
    [merge_index .. N - 1] and stores the staging buffer in [dest]. *)
Lemma decimation_loop_targets (fuel : nat) :
  forall (m : merge_iterator_t) (pc cc e : sample_ptr * temperature_sample_t)
         (rest : list (sample_ptr * temperature_sample_t))
         (merged : list temperature_sample_t) (k : nat) (mu : Z),
  iterator_pending h p1 p2 l1 l2 m rest ->
  Forall (fun c => read_sample h c.1 = Done c.2) (pc :: cc :: rest) ->
  Forall (fun c => typed_sample c.2) (pc :: cc :: rest) ->
  last (cc :: rest) = Some e -> cell_uptime e = end_uptime ->
  List.length merged = N -> (k <= N)%nat ->
  ((k < N)%nat -> mu = target start base long k /\ cell_uptime pc <= mu) ->
  (N - k + List.length rest < fuel)%nat ->
  exists merged',
    List.length merged' = N /\
    take k merged' = take k merged /\
    (forall i, (k <= i < N)%nat ->
       uptime <$> merged' !! i = Some (target start base long i)) /\
    forall dest d, points_to h dest d ->
      decimation_loop N fuel h dest base long m pc.1 cc.1 merged k mu
      = Done (E_SUCCESS,
              <[dest := {| data := memmove_samples (data d) merged' N;
                           length := N |}]> h).
Proof.
  induction fuel as [|fuel IH];
    intros m pc cc e rest merged k mu Hpend Hread Htyped Hlast He Hlen Hk Hmu
           Hfuel;
    [lia|].
  destruct (Nat.ltb_spec k N) as [Hlt|Hge].
  - destruct (Hmu Hlt) as [-> Hpc].
    apply Forall_cons in Hread as [Rpc Hread].
    pose proof Hread as Hread'. apply Forall_cons in Hread' as [Rcc Rrest].
    apply Forall_cons in Htyped as [Tpc Htyped].
    pose proof Htyped as Htyped'. apply Forall_cons in Htyped' as [Tcc _].
    unfold cell_uptime in Hpc.
    destruct (Z.leb_spec (target start base long k) (uptime cc.2)) as [Hcc|Hcc].
    + (* the target lies between the cursors: emit *)
      destruct (interpolate_defined pc.2 cc.2 (target start base long k))
        as (v & _ & Ev); [done|done|lia|].
      set (s := {| temperature := v; uptime := target start base long k |})
        in *.
      set (mu' := wrap_u32 (target start base long k +
                    wrap_u32 (base + (if Z.of_nat (S k) <=? long then 1 else 0)))).
      destruct (IH m pc cc e rest (<[k := s]> merged) (S k) mu')
        as (merged' & Hlen' & Htake & Htargets & Hrun);
        [done|by constructor|by constructor|done|done|by rewrite length_insert
        |lia| |lia|].
      { intros HSk. split; [by apply target_step_no_wrap|].
        unfold mu'. rewrite target_step_no_wrap by done.
        pose proof (target_mono start base long k (S k) Hbase ltac:(lia)).
        unfold cell_uptime. lia. }
      exists merged'. split; [done|].
      assert (Hk' : merged' !! k = Some s).
      { rewrite <- (lookup_take_lt merged' (S k) k) by lia. rewrite Htake.
        rewrite lookup_take_lt by lia. apply list_lookup_insert_eq. lia. }
      split; [|split].
      * transitivity (take k (take (S k) merged')).
        { rewrite take_take. f_equal. lia. }
        rewrite Htake, take_take, Nat.min_l by lia. apply take_insert_ge. lia.
      * intros i Hi. destruct (decide (i = k)) as [->|Hne].
        -- by rewrite Hk'.
        -- apply Htargets. lia.
      * intros dest d Hd. simpl.
        destruct (Nat.ltb_spec k N) as [_|?]; [|lia].
        rewrite Rpc, bind_Done, Rcc, in_range_eq, bind_Done.
        destruct (Z.leb_spec (uptime pc.2) (target start base long k)); [|lia].
        destruct (Z.leb_spec (target start base long k) (uptime cc.2)); [|lia].
        simpl. rewrite Ev, bind_Done. by apply Hrun.
    + (* the target lies beyond the current cell: advance *)
      destruct rest as [|c' rest'].
      { simpl in Hlast. injection Hlast as <-.
        pose proof (target_mono start base long k (N - 1) Hbase ltac:(lia)).
        unfold cell_uptime in He. lia. }
      destruct (merge_iterate_pending N h p1 p2 l1 l2 Hp1 Hp2 Hw1 Hw2
                  m cc.1 c' rest' Hpend) as (m' & Hstep & Hpend').
      destruct (IH m' cc c' e rest' merged k (target start base long k))
        as (merged' & Hlen' & Htake & Htargets & Hrun);
        [done|done|done|by rewrite last_cons_cons in Hlast|done|done|lia|
         |simpl in *; lia|].
      { intros _. split; [done|]. unfold cell_uptime. lia. }
      exists merged'. split; [done|]. split; [done|]. split; [done|].
      intros dest d Hd. simpl.
      destruct (Nat.ltb_spec k N) as [_|?]; [|lia].
      rewrite Rpc, bind_Done, Rcc, in_range_eq, bind_Done.
      destruct (Z.leb_spec (uptime pc.2) (target start base long k)); [|lia].
      destruct (Z.leb_spec (target start base long k) (uptime cc.2)); [lia|].
      simpl. rewrite Hstep, bind_Done. by apply Hrun.
  - exists merged. split; [done|]. split; [done|].
    split; [intros i Hi; lia|].
    intros dest d Hd. simpl.
    destruct (Nat.ltb_spec k N) as [?|_]; [lia|].
    by rewrite (read_list_points_to _ _ _ Hd), bind_Done.
Qed.

End Decimation.

Lemma sorted_last_max (xs : list temperature_sample_t) (z x : temperature_sample_t) :
  StronglySorted by_uptime xs -> last xs = Some z -> x ∈ xs ->
  uptime x <= uptime z.
Proof.
  induction 1 as [|y ys Hs IH Hall]; intros Hlast Hx.
  - by apply elem_of_nil in Hx.
  - destruct ys as [|y' ys].
    + simpl in Hlast. injection Hlast as <-.
      apply list_elem_of_singleton in Hx as ->. lia.
    + rewrite last_cons_cons in Hlast.
      apply elem_of_cons in Hx as [->|Hx]; [|by apply IH].
      rewrite Forall_forall in Hall. apply Hall.
      by apply last_Some_elem_of.
Qed.

Lemma last_sample_samples (N : nat) (l : temperature_list_t)
    (e : temperature_sample_t) :
  wf_list N l -> last (samples l) = Some e -> last_sample l = Done e.
Proof.
  intros Hw Hlast. pose proof (samples_length N l Hw) as Hlen.
  rewrite last_lookup, Hlen in Hlast.
  unfold last_sample. destruct (length l) as [|k] eqn:E.
  - rewrite lookup_ge_None_2 in Hlast; [done|]. simpl. lia.
  - change (Nat.pred (S k)) with k in Hlast.
    rewrite samples_lookup in Hlast by lia. by rewrite Hlast.
Qed.

Section DecimationPath.
Variable N : nat.
Variable h : gmap Z temperature_list_t.
Variables p1 p2 : ptr.
Variables l1 l2 : temperature_list_t.
Hypothesis Hp1 : points_to h p1 l1.
Hypothesis Hp2 : points_to h p2 l2.
Hypothesis Hw1 : wf_list N l1.
Hypothesis Hw2 : wf_list N l2.
Hypothesis HN : (2 <= N)%nat.
Hypothesis HN32 : Z.of_nat N < 2 ^ 32.
Variables f1 f2 e1 e2 : temperature_sample_t.
Hypothesis Hf1 : head (samples l1) = Some f1.
Hypothesis Hf2 : head (samples l2) = Some f2.
Hypothesis He1 : last (samples l1) = Some e1.
Hypothesis He2 : last (samples l2) = Some e2.

Lemma head_samples_nonempty (l : temperature_list_t) (f : temperature_sample_t) :
  head (samples l) = Some f -> (0 < length l)%nat /\ data l !! 0%nat = Some f.
Proof.
  unfold samples. rewrite head_lookup. intros H.
  apply lookup_take_Some in H. tauto.
Qed.

Lemma samples_typed (l : temperature_list_t) (x : temperature_sample_t) :
  wf_list N l -> x ∈ samples l -> typed_sample x.
Proof.
  intros (_ & _ & Ht) Hx. rewrite Forall_forall in Ht. apply Ht.
  unfold samples in Hx.
  apply list_elem_of_lookup in Hx as [i Hi].
  apply lookup_take_Some in Hi as [Hi _].
  apply list_elem_of_lookup. eauto.
Qed.

Lemma divisor_no_wrap : wrap_u32 (Z.of_nat N - 1) = Z.of_nat N - 1.
Proof using HN HN32. apply wrap_u32_id. unfold in_u32. lia. Qed.

(** The first two cells handed out and what is left after them. *)
Lemma decimation_cursors :
  exists pc cc rest m,
    merge_by cell_uptime (cells p1 l1 0) (cells p2 l2 0) = pc :: cc :: rest /\
    cell_uptime pc = Z.min (uptime f1) (uptime f2) /\
    (init_merge_iterator h iterator_init p1 p2
       ≫= fun iterator =>
            '(_, iterator, prev) ← merge_iterate h iterator NULL_sample;
            '(_, iterator, current) ← merge_iterate h iterator NULL_sample;
            Done (iterator, prev, current))
    = Done (m, pc.1, cc.1) /\
    iterator_pending h p1 p2 l1 l2 m rest.
Proof using Hp1 Hp2 Hw1 Hw2 Hf1 Hf2.
  clear HN HN32 He1 He2.
  destruct (head_samples_nonempty l1 f1 Hf1) as [Hn1 Hd1].
  destruct (head_samples_nonempty l2 f2 Hf2) as [Hn2 Hd2].
  destruct (init_merge_iterator_pending N h p1 p2 l1 l2 Hp1 Hp2 Hw1 Hw2
              iterator_init) as (m0 & Hinit & Hpend0).
  destruct (cells_cons N p1 l1 0 Hw1 Hn1) as (x & Hx & Ex).
  destruct (cells_cons N p2 l2 0 Hw2 Hn2) as (y & Hy & Ey).
  assert (x = f1) as -> by congruence. assert (y = f2) as -> by congruence.
  set (M := merge_by cell_uptime (cells p1 l1 0) (cells p2 l2 0)) in *.
  assert (Hhead : exists pc tl, M = pc :: tl /\
                    cell_uptime pc = Z.min (uptime f1) (uptime f2)).
  { unfold M. rewrite Ex, Ey, merge_by_cons. unfold cell_uptime at 1 2. simpl.
    destruct (Z.ltb_spec (uptime f1) (uptime f2));
      eexists _, _; (split; [reflexivity|]); unfold cell_uptime; simpl; lia. }
  destruct Hhead as (pc & tl & EM & Hpc).
  assert (Hlen : List.length M = (length l1 + length l2)%nat).
  { unfold M. rewrite merge_by_length, !(cells_length N) by done. lia. }
  destruct tl as [|cc rest]; [rewrite EM in Hlen; simpl in Hlen; lia|].
  rewrite EM in Hpend0.
  destruct (merge_iterate_pending N h p1 p2 l1 l2 Hp1 Hp2 Hw1 Hw2
              m0 NULL_sample pc (cc :: rest) Hpend0) as (m1 & Hst1 & Hpend1).
  destruct (merge_iterate_pending N h p1 p2 l1 l2 Hp1 Hp2 Hw1 Hw2
              m1 NULL_sample cc rest Hpend1) as (m2 & Hst2 & Hpend2).
  exists pc, cc, rest, m2. split; [done|]. split; [done|]. split; [|done].
  rewrite Hinit, bind_Done, Hst1, bind_Done, Hst2, bind_Done. done.
Qed.

Hypothesis Hs1 : Sorted by_uptime (samples l1).
Hypothesis Hs2 : Sorted by_uptime (samples l2).

(** The merged run starts at the smaller first timestamp and ends at the
    larger last timestamp. *)
Lemma merged_run_bounds (e : sample_ptr * temperature_sample_t) :
  last (merge_by cell_uptime (cells p1 l1 0) (cells p2 l2 0)) = Some e ->
  cell_uptime e = Z.max (uptime e1) (uptime e2) /\
  Z.min (uptime f1) (uptime f2) <= Z.max (uptime e1) (uptime e2).
Proof using Hf1 He1 He2 Hs1 Hs2.
  clear HN HN32 Hp1 Hp2 Hw1 Hw2 Hf2. intros Hlast.
  set (V := merge_by uptime (samples l1) (samples l2)).
  assert (EV : (merge_by cell_uptime (cells p1 l1 0) (cells p2 l2 0)).*2 = V).
  { change cell_uptime with (uptime ∘ (snd : sample_ptr * _ -> _)).
    by rewrite merge_by_fmap, !cells_values. }
  assert (HlastV : last V = Some e.2).
  { rewrite <- EV, fmap_last, Hlast. done. }
  assert (HsV : StronglySorted by_uptime V).
  { pose proof (Sorted_StronglySorted by_uptime_transitive Hs1) as Hx'.
    pose proof (Sorted_StronglySorted by_uptime_transitive Hs2) as Hy'.
    exact (merge_by_sorted uptime _ _ Hx' Hy'). }
  assert (Hin : forall x, x ∈ samples l1 \/ x ∈ samples l2 -> uptime x <= uptime e.2).
  { intros x Hx. apply (sorted_last_max V); [done|done|].
    unfold V. rewrite merge_by_perm. apply elem_of_app. done. }
  pose proof (Hin e1 (or_introl (last_Some_elem_of _ _ He1))) as B1.
  pose proof (Hin e2 (or_intror (last_Some_elem_of _ _ He2))) as B2.
  pose proof (Hin f1 (or_introl (head_Some_elem_of _ _ Hf1))) as B3.
  unfold cell_uptime.
  destruct (merge_by_last uptime _ _ _ HlastV) as [Hl|Hl];
    rewrite Hl in *; simplify_eq; lia.
Qed.

Lemma merge_with_decimation_staged (fuel : nat) :
  let start := Z.min (uptime f1) (uptime f2) in
  let end_uptime := Z.max (uptime e1) (uptime e2) in
  let base := (end_uptime - start) / (Z.of_nat N - 1) in
  let long := (end_uptime - start) mod (Z.of_nat N - 1) in
  (N + length l1 + length l2 <= fuel)%nat ->
  exists merged',
    start <= end_uptime /\
    List.length merged' = N /\
    (forall i, (i < N)%nat ->
       uptime <$> merged' !! i = Some (target start base long i)) /\
    forall dest d, points_to h dest d ->
      merge_with_decimation N fuel h p1 p2 dest
      = Done (E_SUCCESS,
              <[dest := {| data := memmove_samples (data d) merged' N;
                           length := N |}]> h).
Proof.
  intros start end_uptime base long Hfuel.
  destruct (head_samples_nonempty l1 f1 Hf1) as [Hn1 Hd1].
  destruct (head_samples_nonempty l2 f2 Hf2) as [Hn2 Hd2].
  destruct decimation_cursors as (pc & cc & rest & m & EM & Hpc & Hrun0 & Hpend).
  assert (Hlast : exists e, last (pc :: cc :: rest) = Some e).
  { destruct (last (pc :: cc :: rest)) eqn:E; [eauto|].
    by apply last_None in E. }
  destruct Hlast as [e Hlast].
  destruct (merged_run_bounds e) as [He Hle]; [by rewrite EM|].
  fold start end_uptime in Hpc, He, Hle.
  assert (Ht1 : typed_sample f1)
    by (apply (samples_typed l1); [done | by eapply head_Some_elem_of]).
  assert (Ht2 : typed_sample f2)
    by (apply (samples_typed l2); [done | by eapply head_Some_elem_of]).
  assert (Ht3 : typed_sample e1)
    by (apply (samples_typed l1); [done | by eapply last_Some_elem_of]).
  assert (Ht4 : typed_sample e2)
    by (apply (samples_typed l2); [done | by eapply last_Some_elem_of]).
  assert (Hrange : 0 <= start /\ end_uptime < 2 ^ 32).
  { unfold typed_sample, in_u32 in *. unfold start, end_uptime. lia. }
  assert (Hdur : wrap_u32 (end_uptime - start) = end_uptime - start).
  { apply wrap_u32_id. unfold in_u32. lia. }
  assert (Hlen : List.length (pc :: cc :: rest) = (length l1 + length l2)%nat).
  { rewrite <- EM, merge_by_length, !(cells_length N) by done. lia. }
  assert (Hread : Forall (fun c => read_sample h c.1 = Done c.2)
                         (pc :: cc :: rest)).
  { rewrite <- EM. by apply pending_readable. }
  assert (Htyped : Forall (fun c => typed_sample c.2) (pc :: cc :: rest)).
  { rewrite <- EM. by apply (pending_typed N). }
  destruct (decimation_loop_targets N h p1 p2 l1 l2 Hp1 Hp2 Hw1 Hw2
              start base long end_uptime) with
      (fuel := fuel) (m := m) (pc := pc) (cc := cc) (e := e) (rest := rest)
      (merged := merged_init N) (k := 0%nat) (mu := start)
    as (merged' & Hlen' & _ & Htargets & Hrun).
  - unfold base. apply Z.div_pos; lia.
  - unfold long. apply Z.mod_pos_bound. lia.
  - lia.
  - lia.
  - unfold base, long. rewrite target_last by lia. lia.
  - done.
  - done.
  - done.
  - by rewrite last_cons_cons in Hlast.
  - done.
  - unfold merged_init. by rewrite length_replicate.
  - lia.
  - intros _. rewrite target_0; [lia|]. unfold long.
    apply Z.mod_pos_bound. lia.
  - simpl in Hlen. lia.
  - exists merged'. split; [done|]. split; [done|].
    split; [intros i Hi; apply Htargets; lia|].
    intros dest d Hd. unfold merge_with_decimation.
    rewrite (points_to_not_null _ _ _ Hp1), (points_to_not_null _ _ _ Hp2),
            (points_to_not_null _ _ _ Hd). simpl.
    rewrite (read_list_points_to _ _ _ Hp1), (read_list_points_to _ _ _ Hp2).
    rewrite !bind_Done, Hd1, Hd2. simpl.
    rewrite (last_sample_samples N l1 e1), (last_sample_samples N l2 e2) by done.
    simpl. fold start end_uptime. rewrite Hdur, divisor_no_wrap.
    destruct (Z.eqb_spec (Z.of_nat N - 1) 0) as [?|_]; [lia|].
    fold base long.
    destruct (init_merge_iterator h iterator_init p1 p2) as [m0| |];
      simpl in Hrun0; try discriminate.
    rewrite bind_Done.
    destruct (merge_iterate h m0 NULL_sample) as [[[r1 m1] s1]| |];
      simpl in Hrun0; try discriminate.
    rewrite bind_Done.
    destruct (merge_iterate h m1 NULL_sample) as [[[r2 m2] s2]| |];
      simpl in Hrun0; try discriminate.
    rewrite bind_Done. injection Hrun0 as -> -> ->. by apply Hrun.
Qed.

End DecimationPath.

Lemma sorted_by_lookup (xs : list temperature_sample_t) (t : nat -> Z) :
  (forall k x, xs !! k = Some x -> uptime x = t k) ->
  (forall k, t k <= t (S k)) ->
  Sorted by_uptime xs.
Proof.
  revert t. induction xs as [|x xs IH]; intros t Hxs Hmono; [constructor|].
  constructor.
  - apply (IH (fun k => t (S k))); [|intros k; apply Hmono].
    intros k y Hy. by apply (Hxs (S k) y).
  - destruct xs as [|y ys]; constructor. unfold by_uptime.
    rewrite (Hxs 0%nat x eq_refl), (Hxs 1%nat y eq_refl). apply Hmono.
Qed.

(** C2.  When the two lengths add up to more than [N], each being at most
    [N], [merge_temperature_lists] succeeds with [dest.length = N]; the
    [k]-th output timestamp is [start + k * base_period + min k remainder],
    where [start] is the smaller first timestamp, [end] the larger last
    timestamp, [base_period = (end - start) / (N - 1)] and
    [remainder = (end - start) mod (N - 1)].  So the timestamps begin at
    [start], the first [remainder] intervals have length [base_period + 1]
    and the others [base_period], the last timestamp is [end], and the
    output is non-decreasing in timestamp. *)
Theorem merge_temperature_lists_decimation
    (N fuel : nat) (h : gmap Z temperature_list_t) (src1' src2' dest : ptr)
    (l1 l2 d : temperature_list_t) (f1 f2 e1 e2 : temperature_sample_t) :
  points_to h src1' l1 -> points_to h src2' l2 -> points_to h dest d ->
  wf_list N l1 -> wf_list N l2 ->
  (2 <= N)%nat -> Z.of_nat N < 2 ^ 32 ->
  Sorted by_uptime (samples l1) -> Sorted by_uptime (samples l2) ->
  (N < length l1 + length l2)%nat ->
  head (samples l1) = Some f1 -> head (samples l2) = Some f2 ->
  last (samples l1) = Some e1 -> last (samples l2) = Some e2 ->
  (N + length l1 + length l2 <= fuel)%nat ->
  let start := Z.min (uptime f1) (uptime f2) in
  let end_uptime := Z.max (uptime e1) (uptime e2) in
  let base_period := (end_uptime - start) / (Z.of_nat N - 1) in
  let remainder := (end_uptime - start) mod (Z.of_nat N - 1) in
  exists d',
    merge_temperature_lists N fuel h src1' src2' dest
      = Done (E_SUCCESS, <[dest := d']> h) /\
    length d' = N /\
    List.length (samples d') = N /\
    (forall k, (k < N)%nat ->
       uptime <$> samples d' !! k
       = Some (target start base_period remainder k)) /\
    uptime <$> samples d' !! 0%nat = Some start /\
    uptime <$> samples d' !! (N - 1)%nat = Some end_uptime /\
    (forall k, (S k < N)%nat ->
       target start base_period remainder (S k)
       - target start base_period remainder k
       = base_period + (if Z.of_nat k <? remainder then 1 else 0)) /\
    Sorted by_uptime (samples d').
Proof.
  intros Hp1 Hp2 Hd Hw1 Hw2 HN HN32 Hs1 Hs2 Htotal Hf1 Hf2 He1 He2 Hfuel
         start end_uptime base_period remainder.
  destruct (merge_with_decimation_staged N h src1' src2' l1 l2
              Hp1 Hp2 Hw1 Hw2 HN HN32 f1 f2 e1 e2 Hf1 Hf2 He1 He2 Hs1 Hs2
              fuel Hfuel) as (merged' & Hdur & Hlen & Htargets & Hrun).
  fold start end_uptime base_period remainder in Htargets, Hdur.
  assert (Hpath : merge_temperature_lists N fuel h src1' src2' dest
                  = merge_with_decimation N fuel h src1' src2' dest).
  { unfold merge_temperature_lists.
    rewrite (points_to_not_null _ _ _ Hp1), (points_to_not_null _ _ _ Hp2),
            (points_to_not_null _ _ _ Hd). simpl.
    rewrite (read_list_points_to _ _ _ Hp1), (read_list_points_to _ _ _ Hp2).
    rewrite !bind_Done.
    by destruct (Nat.leb_spec (length l1 + length l2) N); [lia|]. }
  eexists. split; [rewrite Hpath; by apply Hrun|]. split; [done|].
  assert (Hsam : samples {| data := memmove_samples (data d) merged' N;
                            length := N |} = merged').
  { unfold samples. simpl. rewrite memmove_samples_take by lia.
    apply take_ge. lia. }
  rewrite Hsam.
  assert (Hbase : 0 <= base_period) by (apply Z.div_pos; lia).
  assert (Hrem : 0 <= remainder < Z.of_nat N - 1)
    by (apply Z.mod_pos_bound; lia).
  split; [done|]. split; [done|]. split; [|split; [|split]].
  - rewrite Htargets by lia. f_equal. apply target_0. lia.
  - rewrite Htargets by lia. f_equal.
    unfold base_period, remainder. rewrite target_last by lia. lia.
  - intros k Hk. rewrite target_S.
    destruct (Z.leb_spec (Z.of_nat (S k)) remainder);
      destruct (Z.ltb_spec (Z.of_nat k) remainder); lia.
  - apply (sorted_by_lookup merged' (target start base_period remainder)).
    + intros k x Hx.
      assert (k < N)%nat by (rewrite <- Hlen; by eapply lookup_lt_Some).
      specialize (Htargets k ltac:(done)). rewrite Hx in Htargets.
      by injection Htargets.
    + intros k. apply target_mono; [done|lia].
Qed.

Lemma merge_temperature_lists_decimation_witness :
  let l1 := {| data := [ {| temperature := 160; uptime := 10 |};
                         {| temperature := 320; uptime := 20 |};
                         zero_sample ];
               length := 2 |} in
  let l2 := {| data := [ {| temperature := 240; uptime := 15 |};
                         {| temperature := 640; uptime := 40 |};
                         zero_sample ];
               length := 2 |} in
  let d := {| data := replicate 3 zero_sample; length := 0 |} in
  let h : gmap Z temperature_list_t := <[16 := l1]> (<[32 := l2]> (<[48 := d]> ∅)) in
  let f1 := {| temperature := 160; uptime := 10 |} in
  let f2 := {| temperature := 240; uptime := 15 |} in
  let e1 := {| temperature := 320; uptime := 20 |} in
  let e2 := {| temperature := 640; uptime := 40 |} in
  let start := Z.min (uptime f1) (uptime f2) in
  let end_uptime := Z.max (uptime e1) (uptime e2) in
  let base_period := (end_uptime - start) / (Z.of_nat 3 - 1) in
  let remainder := (end_uptime - start) mod (Z.of_nat 3 - 1) in
  points_to h 16 l1 /\ points_to h 32 l2 /\ points_to h 48 d /\
  wf_list 3 l1 /\ wf_list 3 l2 /\
  (2 <= 3)%nat /\ Z.of_nat 3 < 2 ^ 32 /\
  Sorted by_uptime (samples l1) /\ Sorted by_uptime (samples l2) /\
  (3 < length l1 + length l2)%nat /\
  head (samples l1) = Some f1 /\ head (samples l2) = Some f2 /\
  last (samples l1) = Some e1 /\ last (samples l2) = Some e2 /\
  (3 + length l1 + length l2 <= 7)%nat /\
  exists d',
    merge_temperature_lists 3 7 h 16 32 48 = Done (E_SUCCESS, <[48 := d']> h) /\
    length d' = 3%nat /\
    List.length (samples d') = 3%nat /\
    (forall k, (k < 3)%nat ->
       uptime <$> samples d' !! k
       = Some (target start base_period remainder k)) /\
    uptime <$> samples d' !! 0%nat = Some start /\
    uptime <$> samples d' !! (3 - 1)%nat = Some end_uptime /\
    (forall k, (S k < 3)%nat ->
       target start base_period remainder (S k)
       - target start base_period remainder k
       = base_period + (if Z.of_nat k <? remainder then 1 else 0)) /\
    Sorted by_uptime (samples d').
Proof.
  intros l1 l2 d h f1 f2 e1 e2 start end_uptime base_period remainder.
  assert (Hp1 : points_to h 16 l1) by (split; [discriminate | reflexivity]).
  assert (Hp2 : points_to h 32 l2) by (split; [discriminate | reflexivity]).
  assert (Hd : points_to h 48 d) by (split; [discriminate | reflexivity]).
  assert (Hw1 : wf_list 3 l1).
  { split; [reflexivity|]. split; [simpl; lia|].
    repeat constructor; simpl; lia. }
  assert (Hw2 : wf_list 3 l2).
  { split; [reflexivity|]. split; [simpl; lia|].
    repeat constructor; simpl; lia. }
  assert (HN : (2 <= 3)%nat) by lia.
  assert (HN32 : Z.of_nat 3 < 2 ^ 32) by (simpl; lia).
  assert (Hs1 : Sorted by_uptime (samples l1)).
  { repeat constructor. unfold by_uptime. simpl. lia. }
  assert (Hs2 : Sorted by_uptime (samples l2)).
  { repeat constructor. unfold by_uptime. simpl. lia. }
  assert (Htotal : (3 < length l1 + length l2)%nat) by (simpl; lia).
  assert (Hf1 : head (samples l1) = Some f1) by reflexivity.
  assert (Hf2 : head (samples l2) = Some f2) by reflexivity.
  assert (He1 : last (samples l1) = Some e1) by reflexivity.
  assert (He2 : last (samples l2) = Some e2) by reflexivity.
  assert (Hfuel : (3 + length l1 + length l2 <= 7)%nat) by (simpl; lia).
  repeat (split; [assumption|]).
  exact (merge_temperature_lists_decimation 3 7 h 16 32 48 l1 l2 d f1 f2 e1 e2
           Hp1 Hp2 Hd Hw1 Hw2 HN HN32 Hs1 Hs2 Htotal Hf1 Hf2 He1 He2 Hfuel).
Defined.

(** The decimation of the merge-logic test (capacity 6, twelve samples
    between minute 10 and minute 65) gives the timestamps the test
    expects: 10, 21, 32, 43, 54, 65. *)
Example merge_logic_test_case_5 :
  let mk i u t := {| temperature := t + 3 * i; uptime := u + 5 * i |} in
  let l1 := {| data := (fun i => mk i 10 160) <$> [0; 1; 2; 3; 4; 5];
               length := 6 |} in
  let l2 := {| data := (fun i => mk i 40 178) <$> [0; 1; 2; 3; 4; 5];
               length := 6 |} in
  let d := {| data := replicate 6 zero_sample; length := 0 |} in
  let h : gmap Z temperature_list_t := <[16 := l1]> (<[32 := l2]> (<[48 := d]> ∅)) in
  match merge_temperature_lists 6 18 h 16 32 48 with
  | Done (err, h') =>
    err = E_SUCCESS /\
    (fun l => (length l, uptime <$> data l)) <$> h' !! 48
    = Some (6%nat, [10; 21; 32; 43; 54; 65])
  | _ => False
  end.
Proof. vm_compute. split; reflexivity. Qed.

(** ** Termination of the decimation loop *)

Lemma nonempty_head_last (N : nat) (l : temperature_list_t) :
  wf_list N l -> (0 < length l)%nat ->
  exists f e, head (samples l) = Some f /\ last (samples l) = Some e.
Proof.
  intros Hw Hl. pose proof (samples_length N l Hw) as Hlen.
  destruct (samples l) as [|f xs] eqn:E; [simpl in Hlen; lia|].
  exists f. destruct (last (f :: xs)) as [e|] eqn:El; [eauto|].
  by apply last_None in El.
Qed.

(** C10.  The decimation terminates: for lists of lengths at most [N]
    whose lengths add up to more than [N] (sorted or not),
    [merge_with_decimation] returns within [N + length1 + length2]
    iterations of its loop, one per emitted sample or consumed input, and
    it returns [E_SUCCESS] or [E_ERROR].  On an exhausted iterator
    [merge_iterate] hands out nothing and returns [E_END_OF_ITER], and an
    attempt of the loop to advance then ends the loop with [E_ERROR]. *)
Theorem merge_with_decimation_terminates
    (N fuel : nat) (h : gmap Z temperature_list_t) (src1' src2' dest : ptr)
    (l1 l2 d : temperature_list_t) :
  points_to h src1' l1 -> points_to h src2' l2 -> points_to h dest d ->
  wf_list N l1 -> wf_list N l2 ->
  (2 <= N)%nat -> Z.of_nat N < 2 ^ 32 ->
  (N < length l1 + length l2)%nat ->
  (N + length l1 + length l2 <= fuel)%nat ->
  (exists err h',
     merge_with_decimation N fuel h src1' src2' dest = Done (err, h') /\
     (err = E_SUCCESS \/ err = E_ERROR)) /\
  (forall m sample,
     current_list m = NULL ->
     merge_iterate h m sample = Done (E_END_OF_ITER, m, sample)) /\
  (forall fuel' base long m prev current p c merged k mu,
     current_list m = NULL -> (k < N)%nat ->
     read_sample h prev = Done p -> read_sample h current = Done c ->
     ~ (uptime p <= mu <= uptime c) ->
     decimation_loop N (S fuel') h dest base long m prev current merged k mu
     = Done (E_ERROR, h)).
Proof.
  intros Hp1 Hp2 Hd Hw1 Hw2 HN HN32 Htotal Hfuel.
  split; [|split].
  - assert (Hn1 : (0 < length l1)%nat) by (destruct Hw2 as (_ & ? & _); lia).
    assert (Hn2 : (0 < length l2)%nat) by (destruct Hw1 as (_ & ? & _); lia).
    destruct (nonempty_head_last N l1 Hw1 Hn1) as (f1 & e1 & Hf1 & He1).
    destruct (nonempty_head_last N l2 Hw2 Hn2) as (f2 & e2 & Hf2 & He2).
    destruct (decimation_cursors N h src1' src2' l1 l2 Hp1 Hp2 Hw1 Hw2
                f1 f2 Hf1 Hf2)
      as (pc & cc & rest & m & EM & _ & Hrun0 & Hpend).
    destruct (head_samples_nonempty l1 f1 Hf1) as [_ Hd1].
    destruct (head_samples_nonempty l2 f2 Hf2) as [_ Hd2].
    assert (Hlen : List.length (pc :: cc :: rest) = (length l1 + length l2)%nat).
    { rewrite <- EM, merge_by_length, !(cells_length N) by done. lia. }
    assert (Hread : Forall (fun c => read_sample h c.1 = Done c.2)
                           (pc :: cc :: rest)).
    { rewrite <- EM. by apply pending_readable. }
    unfold merge_with_decimation.
    rewrite (points_to_not_null _ _ _ Hp1), (points_to_not_null _ _ _ Hp2),
            (points_to_not_null _ _ _ Hd). simpl.
    rewrite (read_list_points_to _ _ _ Hp1), (read_list_points_to _ _ _ Hp2).
    rewrite !bind_Done, Hd1, Hd2. simpl.
    rewrite (last_sample_samples N l1 e1), (last_sample_samples N l2 e2) by done.
    simpl. rewrite (divisor_no_wrap N) by done.
    destruct (Z.eqb_spec (Z.of_nat N - 1) 0) as [?|_]; [lia|].
    destruct (init_merge_iterator h iterator_init src1' src2') as [m0| |];
      simpl in Hrun0; try discriminate.
    rewrite bind_Done.
    destruct (merge_iterate h m0 NULL_sample) as [[[r1 m1] s1]| |];
      simpl in Hrun0; try discriminate.
    rewrite bind_Done.
    destruct (merge_iterate h m1 NULL_sample) as [[[r2 m2] s2]| |];
      simpl in Hrun0; try discriminate.
    rewrite bind_Done. injection Hrun0 as -> -> ->.
    apply (decimation_loop_terminates N h src1' src2' l1 l2 Hp1 Hp2 Hw1 Hw2
             _ _ dest d fuel Hd m pc cc rest); [done|done| |lia|].
    + rewrite <- EM. by apply (pending_typed N).
    + simpl in Hlen. lia.
  - intros m sample. apply merge_iterate_exhausted.
  - intros fuel' base long m prev current p c merged k mu Hcur Hk Hp Hc Hout.
    simpl. destruct (Nat.ltb_spec k N) as [_|?]; [|lia].
    rewrite Hp, bind_Done, Hc, in_range_eq, bind_Done.
    destruct (Z.leb_spec (uptime p) mu); destruct (Z.leb_spec mu (uptime c));
      simpl; try lia;
      by rewrite (merge_iterate_exhausted h m current Hcur), bind_Done.
Qed.

Lemma merge_with_decimation_terminates_witness :
  let l1 := {| data := [ {| temperature := 160; uptime := 10 |};
                         {| temperature := 320; uptime := 20 |};
                         zero_sample ];
               length := 2 |} in
  let l2 := {| data := [ {| temperature := 240; uptime := 15 |};
                         {| temperature := 640; uptime := 40 |};
                         zero_sample ];
               length := 2 |} in
  let d := {| data := replicate 3 zero_sample; length := 0 |} in
  let h : gmap Z temperature_list_t := <[16 := l1]> (<[32 := l2]> (<[48 := d]> ∅)) in
  points_to h 16 l1 /\ points_to h 32 l2 /\ points_to h 48 d /\
  wf_list 3 l1 /\ wf_list 3 l2 /\
  (2 <= 3)%nat /\ Z.of_nat 3 < 2 ^ 32 /\
  (3 < length l1 + length l2)%nat /\
  (3 + length l1 + length l2 <= 7)%nat /\
  (exists err h',
     merge_with_decimation 3 7 h 16 32 48 = Done (err, h') /\
     (err = E_SUCCESS \/ err = E_ERROR)) /\
  (forall m sample,
     current_list m = NULL ->
     merge_iterate h m sample = Done (E_END_OF_ITER, m, sample)) /\
  (forall fuel' base long m prev current p c merged k mu,
     current_list m = NULL -> (k < 3)%nat ->
     read_sample h prev = Done p -> read_sample h current = Done c ->
     ~ (uptime p <= mu <= uptime c) ->
     decimation_loop 3 (S fuel') h 48 base long m prev current merged k mu
     = Done (E_ERROR, h)).
Proof.
  intros l1 l2 d h.
  assert (Hp1 : points_to h 16 l1) by (split; [discriminate | reflexivity]).
  assert (Hp2 : points_to h 32 l2) by (split; [discriminate | reflexivity]).
  assert (Hd : points_to h 48 d) by (split; [discriminate | reflexivity]).
  assert (Hw1 : wf_list 3 l1).
  { split; [reflexivity|]. split; [simpl; lia|].
    repeat constructor; simpl; lia. }
  assert (Hw2 : wf_list 3 l2).
  { split; [reflexivity|]. split; [simpl; lia|].
    repeat constructor; simpl; lia. }
  assert (HN : (2 <= 3)%nat) by lia.
  assert (HN32 : Z.of_nat 3 < 2 ^ 32) by (simpl; lia).
  assert (Htotal : (3 < length l1 + length l2)%nat) by (simpl; lia).
  assert (Hfuel : (3 + length l1 + length l2 <= 7)%nat) by (simpl; lia).
  repeat (split; [assumption|]).
  exact (merge_with_decimation_terminates 3 7 h 16 32 48 l1 l2 d
           Hp1 Hp2 Hd Hw1 Hw2 HN HN32 Htotal Hfuel).
Defined.

(** On lists that are not sorted the loop can run out of input; it then
    returns [E_ERROR] and leaves the heap as it was. *)
Example merge_with_decimation_unsorted_error :
  let l1 := {| data := [ {| temperature := 0; uptime := 10 |};
                         {| temperature := 0; uptime := 5 |};
                         zero_sample ];
               length := 2 |} in
  let l2 := {| data := [ {| temperature := 0; uptime := 20 |};
                         {| temperature := 0; uptime := 3 |};
                         zero_sample ];
               length := 2 |} in
  let d := {| data := replicate 3 zero_sample; length := 0 |} in
  let h : gmap Z temperature_list_t := <[16 := l1]> (<[32 := l2]> (<[48 := d]> ∅)) in
  merge_temperature_lists 3 7 h 16 32 48 = Done (E_ERROR, h).
Proof. vm_compute. reflexivity. Qed.

(** ** Both paths at once: the result is staged, then stored *)

Section Staged.
Variable N : nat.
Variable h : gmap Z temperature_list_t.
Variables p1 p2 : ptr.
Variables l1 l2 : temperature_list_t.
Hypothesis Hp1 : points_to h p1 l1.
Hypothesis Hp2 : points_to h p2 l2.
Hypothesis Hw1 : wf_list N l1.
Hypothesis Hw2 : wf_list N l2.
Hypothesis HN : (2 <= N)%nat.
Hypothesis HN32 : Z.of_nat N < 2 ^ 32.
Hypothesis Hs1 : Sorted by_uptime (samples l1).
Hypothesis Hs2 : Sorted by_uptime (samples l2).

(** On valid sorted lists [merge_temperature_lists] succeeds, and what it
    stores in [dest] is a buffer and a length that do not depend on
    [dest]. *)
Lemma merge_temperature_lists_staged (fuel : nat) :
  (N + length l1 + length l2 <= fuel)%nat ->
  exists merged' index,
    (index <= N)%nat /\ List.length merged' = N /\
    forall dest d, points_to h dest d ->
      merge_temperature_lists N fuel h p1 p2 dest
      = Done (E_SUCCESS,
              <[dest := {| data := memmove_samples (data d) merged' index;
                           length := index |}]> h).
Proof.
  intros Hfuel.
  assert (Hpath : forall dest d, points_to h dest d ->
            merge_temperature_lists N fuel h p1 p2 dest
            = if (length l1 + length l2 <=? N)%nat
              then merge_without_decimation N fuel h p1 p2 dest
              else merge_with_decimation N fuel h p1 p2 dest).
  { intros dest d Hd. unfold merge_temperature_lists.
    rewrite (points_to_not_null _ _ _ Hp1), (points_to_not_null _ _ _ Hp2),
            (points_to_not_null _ _ _ Hd). simpl.
    rewrite (read_list_points_to _ _ _ Hp1), (read_list_points_to _ _ _ Hp2).
    by rewrite !bind_Done. }
  destruct (Nat.leb_spec (length l1 + length l2) N) as [Hroom|Hover].
  - destruct (merge_without_decimation_staged N h p1 p2 l1 l2
                Hp1 Hp2 Hw1 Hw2 fuel Hroom ltac:(lia))
      as (merged' & Hlen & _ & Hrun).
    exists merged', (length l1 + length l2)%nat.
    split; [done|]. split; [done|].
    intros dest d Hd. rewrite (Hpath dest d Hd). by apply Hrun.
  - assert (Hn1 : (0 < length l1)%nat) by (destruct Hw2 as (_ & ? & _); lia).
    assert (Hn2 : (0 < length l2)%nat) by (destruct Hw1 as (_ & ? & _); lia).
    destruct (nonempty_head_last N l1 Hw1 Hn1) as (f1 & e1 & Hf1 & He1).
    destruct (nonempty_head_last N l2 Hw2 Hn2) as (f2 & e2 & Hf2 & He2).
    destruct (merge_with_decimation_staged N h p1 p2 l1 l2
                Hp1 Hp2 Hw1 Hw2 HN HN32 f1 f2 e1 e2 Hf1 Hf2 He1 He2 Hs1 Hs2
                fuel Hfuel) as (merged' & _ & Hlen & _ & Hrun).
    exists merged', N. split; [done|]. split; [done|].
    intros dest d Hd. rewrite (Hpath dest d Hd). by apply Hrun.
Qed.

End Staged.

(** C8.  [merge_temperature_lists] is alias-safe: on valid sorted lists
    the call succeeds whatever valid destination it is given, and the
    length and the samples it leaves in a destination that is one of the
    sources are those it leaves in a destination distinct from both. *)
Theorem merge_temperature_lists_alias_safe
    (N fuel : nat) (h : gmap Z temperature_list_t) (src1' src2' dest : ptr)
    (l1 l2 d : temperature_list_t) :
  points_to h src1' l1 -> points_to h src2' l2 -> points_to h dest d ->
  dest <> src1' -> dest <> src2' ->
  wf_list N l1 -> wf_list N l2 ->
  (2 <= N)%nat -> Z.of_nat N < 2 ^ 32 ->
  Sorted by_uptime (samples l1) -> Sorted by_uptime (samples l2) ->
  (N + length l1 + length l2 <= fuel)%nat ->
  exists r r1 r2,
    merge_temperature_lists N fuel h src1' src2' dest
      = Done (E_SUCCESS, <[dest := r]> h) /\
    merge_temperature_lists N fuel h src1' src2' src1'
      = Done (E_SUCCESS, <[src1' := r1]> h) /\
    merge_temperature_lists N fuel h src1' src2' src2'
      = Done (E_SUCCESS, <[src2' := r2]> h) /\
    length r1 = length r /\ samples r1 = samples r /\
    length r2 = length r /\ samples r2 = samples r.
Proof.
  intros Hp1 Hp2 Hd _ _ Hw1 Hw2 HN HN32 Hs1 Hs2 Hfuel.
  destruct (merge_temperature_lists_staged N h src1' src2' l1 l2
              Hp1 Hp2 Hw1 Hw2 HN HN32 Hs1 Hs2 fuel Hfuel)
    as (merged' & index & Hindex & Hlen & Hrun).
  eexists _, _, _.
  split; [by apply (Hrun dest d)|].
  split; [by apply (Hrun src1' l1)|].
  split; [by apply (Hrun src2' l2)|].
  unfold samples. simpl. rewrite !memmove_samples_take by lia. done.
Qed.

Lemma merge_temperature_lists_alias_safe_witness :
  let l1 := {| data := [ {| temperature := 160; uptime := 10 |};
                         {| temperature := 320; uptime := 20 |};
                         zero_sample ];
               length := 2 |} in
  let l2 := {| data := [ {| temperature := 240; uptime := 15 |};
                         {| temperature := 640; uptime := 40 |};
                         zero_sample ];
               length := 2 |} in
  let d := {| data := replicate 3 zero_sample; length := 0 |} in
  let h : gmap Z temperature_list_t := <[16 := l1]> (<[32 := l2]> (<[48 := d]> ∅)) in
  points_to h 16 l1 /\ points_to h 32 l2 /\ points_to h 48 d /\
  48 <> 16 /\ 48 <> 32 /\
  wf_list 3 l1 /\ wf_list 3 l2 /\
  (2 <= 3)%nat /\ Z.of_nat 3 < 2 ^ 32 /\
  Sorted by_uptime (samples l1) /\ Sorted by_uptime (samples l2) /\
  (3 + length l1 + length l2 <= 7)%nat /\
  exists r r1 r2,
    merge_temperature_lists 3 7 h 16 32 48 = Done (E_SUCCESS, <[48 := r]> h) /\
    merge_temperature_lists 3 7 h 16 32 16 = Done (E_SUCCESS, <[16 := r1]> h) /\
    merge_temperature_lists 3 7 h 16 32 32 = Done (E_SUCCESS, <[32 := r2]> h) /\
    length r1 = length r /\ samples r1 = samples r /\
    length r2 = length r /\ samples r2 = samples r.
Proof.
  intros l1 l2 d h.
  assert (Hp1 : points_to h 16 l1) by (split; [discriminate | reflexivity]).
  assert (Hp2 : points_to h 32 l2) by (split; [discriminate | reflexivity]).
  assert (Hd : points_to h 48 d) by (split; [discriminate | reflexivity]).
  assert (Hn1 : 48 <> 16) by discriminate.
  assert (Hn2 : 48 <> 32) by discriminate.
  assert (Hw1 : wf_list 3 l1).
  { split; [reflexivity|]. split; [simpl; lia|].
    repeat constructor; simpl; lia. }
  assert (Hw2 : wf_list 3 l2).
  { split; [reflexivity|]. split; [simpl; lia|].
    repeat constructor; simpl; lia. }
  assert (HN : (2 <= 3)%nat) by lia.
  assert (HN32 : Z.of_nat 3 < 2 ^ 32) by (simpl; lia).
  assert (Hs1 : Sorted by_uptime (samples l1)).
  { repeat constructor. unfold by_uptime. simpl. lia. }
  assert (Hs2 : Sorted by_uptime (samples l2)).
  { repeat constructor. unfold by_uptime. simpl. lia. }
  assert (Hfuel : (3 + length l1 + length l2 <= 7)%nat) by (simpl; lia).
  repeat (split; [assumption|]).
  exact (merge_temperature_lists_alias_safe 3 7 h 16 32 48 l1 l2 d
           Hp1 Hp2 Hd Hn1 Hn2 Hw1 Hw2 HN HN32 Hs1 Hs2 Hfuel).
Defined.

(** ** [E_END_OF_ITER] stays inside *)

Lemma drain_loop_not_end_of_iter (N fuel : nat) (h : gmap Z temperature_list_t)
    (dest : ptr) :
  forall m sample merged index h',
    drain_loop N fuel h dest m sample merged index <> Done (E_END_OF_ITER, h').
Proof.
  induction fuel as [|fuel IH]; intros m sample merged index h'; [done|].
  simpl. destruct (merge_iterate h m sample) as [[[err m'] s']| |]; [|done|done].
  rewrite bind_Done.
  destruct err; try done.
  - destruct (read_sample h s') as [s| |]; [|done|done].
    rewrite bind_Done. destruct (index <? N)%nat; [apply IH|done].
  - destruct (read_list h dest) as [d| |]; [|done|done].
    rewrite bind_Done. by destruct (index <=? N)%nat.
Qed.

Lemma decimation_loop_not_end_of_iter (N fuel : nat)
    (h : gmap Z temperature_list_t) (dest : ptr) (base long : Z) :
  forall m prev current merged k mu h',
    decimation_loop N fuel h dest base long m prev current merged k mu
    <> Done (E_END_OF_ITER, h').
Proof.
  induction fuel as [|fuel IH]; intros m prev current merged k mu h'; [done|].
  simpl. destruct (k <? N)%nat.
  - destruct (read_sample h prev) as [p| |]; [|done|done].
    rewrite bind_Done.
    destruct (if uptime p <=? mu
              then c ← read_sample h current; Done (mu <=? uptime c)
              else Done false) as [[|]| |]; [| |done|done]; rewrite bind_Done.
    + destruct (read_sample h current) as [c| |]; [|done|done].
      rewrite !bind_Done.
      destruct (interpolate p c mu) as [s| |]; [|done|done].
      rewrite bind_Done. apply IH.
    + destruct (merge_iterate h m current) as [[[err m'] s']| |]; [|done|done].
      rewrite bind_Done. destruct err; solve [done | apply IH].
  - by destruct (read_list h dest) as [d| |].
Qed.

Lemma merge_temperature_lists_not_end_of_iter (N fuel : nat)
    (h : gmap Z temperature_list_t) (src1' src2' dest : ptr)
    (h' : gmap Z temperature_list_t) :
  merge_temperature_lists N fuel h src1' src2' dest <> Done (E_END_OF_ITER, h').
Proof.
  unfold merge_temperature_lists.
  destruct ((src1' =? NULL) || (src2' =? NULL) || (dest =? NULL)) eqn:Enull;
    [done|].
  destruct (read_list h src1') as [l1| |]; [|done|done]. rewrite bind_Done.
  destruct (read_list h src2') as [l2| |]; [|done|done]. rewrite bind_Done.
  destruct (length l1 + length l2 <=? N)%nat.
  - unfold merge_without_decimation. rewrite Enull.
    destruct (init_merge_iterator h iterator_init src1' src2') as [m| |];
      [|done|done].
    rewrite bind_Done. apply drain_loop_not_end_of_iter.
  - unfold merge_with_decimation. rewrite Enull.
    destruct (read_list h src1') as [l1'| |]; [|done|done]. rewrite bind_Done.
    destruct (read_list h src2') as [l2'| |]; [|done|done]. rewrite bind_Done.
    destruct (access (data l1' !! 0%nat)) as [f1| |]; [|done|done].
    rewrite bind_Done.
    destruct (access (data l2' !! 0%nat)) as [f2| |]; [|done|done].
    rewrite bind_Done.
    destruct (last_sample l1') as [e1| |]; [|done|done]. rewrite bind_Done.
    destruct (last_sample l2') as [e2| |]; [|done|done]. rewrite bind_Done.
    destruct (wrap_u32 (Z.of_nat N - 1) =? 0); [done|].
    destruct (init_merge_iterator h iterator_init src1' src2') as [m| |];
      [|done|done].
    rewrite bind_Done.
    destruct (merge_iterate h m NULL_sample) as [[[r1 m1] s1]| |]; [|done|done].
    rewrite bind_Done.
    destruct (merge_iterate h m1 NULL_sample) as [[[r2 m2] s2]| |]; [|done|done].
    rewrite bind_Done. apply decimation_loop_not_end_of_iter.
Qed.

(** C5.  [merge_temperature_lists] never returns [E_END_OF_ITER],
    whatever it is called with.  On valid sorted lists it returns
    [E_SUCCESS]; and when [merge_iterate] reports the end of the iteration
    to the drain loop of the exact merge, the loop copies the [index]
    samples it has staged into [dest], sets [dest.length = index] and
    returns [E_SUCCESS]. *)
Theorem merge_temperature_lists_never_end_of_iter
    (N fuel : nat) (h : gmap Z temperature_list_t) (src1' src2' dest : ptr)
    (l1 l2 d : temperature_list_t) :
  points_to h src1' l1 -> points_to h src2' l2 -> points_to h dest d ->
  wf_list N l1 -> wf_list N l2 ->
  (2 <= N)%nat -> Z.of_nat N < 2 ^ 32 ->
  Sorted by_uptime (samples l1) -> Sorted by_uptime (samples l2) ->
  (N + length l1 + length l2 <= fuel)%nat ->
  (exists h', merge_temperature_lists N fuel h src1' src2' dest
              = Done (E_SUCCESS, h')) /\
  (forall fuel0 h0 q1 q2 q3 h',
     merge_temperature_lists N fuel0 h0 q1 q2 q3 <> Done (E_END_OF_ITER, h')) /\
  (forall fuel0 m sample merged index,
     merge_iterate h m sample = Done (E_END_OF_ITER, m, sample) ->
     (index <= N)%nat ->
     drain_loop N (S fuel0) h dest m sample merged index
     = Done (E_SUCCESS,
             <[dest := {| data := memmove_samples (data d) merged index;
                          length := index |}]> h)).
Proof.
  intros Hp1 Hp2 Hd Hw1 Hw2 HN HN32 Hs1 Hs2 Hfuel.
  split; [|split].
  - destruct (merge_temperature_lists_staged N h src1' src2' l1 l2
                Hp1 Hp2 Hw1 Hw2 HN HN32 Hs1 Hs2 fuel Hfuel)
      as (merged' & index & _ & _ & Hrun).
    eexists. by apply (Hrun dest d).
  - intros fuel0 h0 q1 q2 q3 h'. apply merge_temperature_lists_not_end_of_iter.
  - intros fuel0 m sample merged index Hend Hindex. simpl.
    rewrite Hend, bind_Done, (read_list_points_to _ _ _ Hd), bind_Done.
    by destruct (Nat.leb_spec index N); [|lia].
Qed.

Lemma merge_temperature_lists_never_end_of_iter_witness :
  let l1 := {| data := [ {| temperature := 160; uptime := 10 |};
                         {| temperature := 480; uptime := 30 |};
                         zero_sample; zero_sample ];
               length := 2 |} in
  let l2 := {| data := [ {| temperature := 320; uptime := 20 |};
                         {| temperature := 500; uptime := 30 |};
                         zero_sample; zero_sample ];
               length := 2 |} in
  let d := {| data := replicate 4 zero_sample; length := 0 |} in
  let h : gmap Z temperature_list_t := <[16 := l1]> (<[32 := l2]> (<[48 := d]> ∅)) in
  points_to h 16 l1 /\ points_to h 32 l2 /\ points_to h 48 d /\
  wf_list 4 l1 /\ wf_list 4 l2 /\
  (2 <= 4)%nat /\ Z.of_nat 4 < 2 ^ 32 /\
  Sorted by_uptime (samples l1) /\ Sorted by_uptime (samples l2) /\
  (4 + length l1 + length l2 <= 8)%nat /\
  (exists h', merge_temperature_lists 4 8 h 16 32 48 = Done (E_SUCCESS, h')) /\
  (forall fuel0 h0 q1 q2 q3 h',
     merge_temperature_lists 4 fuel0 h0 q1 q2 q3 <> Done (E_END_OF_ITER, h')) /\
  (forall fuel0 m sample merged index,
     merge_iterate h m sample = Done (E_END_OF_ITER, m, sample) ->
     (index <= 4)%nat ->
     drain_loop 4 (S fuel0) h 48 m sample merged index
     = Done (E_SUCCESS,
             <[48 := {| data := memmove_samples (data d) merged index;
                        length := index |}]> h)).
Proof.
  intros l1 l2 d h.
  assert (Hp1 : points_to h 16 l1) by (split; [discriminate | reflexivity]).
  assert (Hp2 : points_to h 32 l2) by (split; [discriminate | reflexivity]).
  assert (Hd : points_to h 48 d) by (split; [discriminate | reflexivity]).
  assert (Hw1 : wf_list 4 l1).
  { split; [reflexivity|]. split; [simpl; lia|].
    repeat constructor; simpl; lia. }
  assert (Hw2 : wf_list 4 l2).
  { split; [reflexivity|]. split; [simpl; lia|].
    repeat constructor; simpl; lia. }
  assert (HN : (2 <= 4)%nat) by lia.
  assert (HN32 : Z.of_nat 4 < 2 ^ 32) by (simpl; lia).
  assert (Hs1 : Sorted by_uptime (samples l1)).
  { repeat constructor. unfold by_uptime. simpl. lia. }
  assert (Hs2 : Sorted by_uptime (samples l2)).
  { repeat constructor. unfold by_uptime. simpl. lia. }
  assert (Hfuel : (4 + length l1 + length l2 <= 8)%nat) by (simpl; lia).
  repeat (split; [assumption|]).
  exact (merge_temperature_lists_never_end_of_iter 4 8 h 16 32 48 l1 l2 d
           Hp1 Hp2 Hd Hw1 Hw2 HN HN32 Hs1 Hs2 Hfuel).
Defined.

(** ** Ties go to the second source *)

Section Ties.
Variable N : nat.
Variable h : gmap Z temperature_list_t.
Variables p1 p2 : ptr.
Variables l1 l2 : temperature_list_t.
Hypothesis Hp1 : points_to h p1 l1.
Hypothesis Hp2 : points_to h p2 l2.
Hypothesis Hw1 : wf_list N l1.
Hypothesis Hw2 : wf_list N l2.

Lemma drain_pointers_pending
    (pending : list (sample_ptr * temperature_sample_t)) :
  forall (fuel : nat) (m : merge_iterator_t),
  iterator_pending h p1 p2 l1 l2 m pending ->
  (List.length pending < fuel)%nat ->
  drain_pointers fuel h m = Done pending.*1.
Proof.
  induction pending as [|c rest IH]; intros fuel m Hpend Hfuel;
    (destruct fuel as [|fuel]; [simpl in Hfuel; lia|]); simpl.
  - destruct Hpend as (_ & _ & Hcur).
    by rewrite (merge_iterate_exhausted h m NULL_sample Hcur), bind_Done.
  - destruct (merge_iterate_pending N h p1 p2 l1 l2 Hp1 Hp2 Hw1 Hw2
                m NULL_sample c rest Hpend) as (m' & Hstep & Hpend').
    rewrite Hstep, bind_Done, (IH fuel m' Hpend'), bind_Done; [done|].
    simpl in Hfuel. lia.
Qed.

(** A tie between the next unconsumed cells: the cell of the second list
    comes first, that of the first list somewhere after it. *)
Lemma merge_by_tie (n1 n2 : nat) (a b : temperature_sample_t) :
  (n1 < length l1)%nat -> (n2 < length l2)%nat ->
  data l1 !! n1 = Some a -> data l2 !! n2 = Some b ->
  uptime a = uptime b ->
  exists rest,
    merge_by cell_uptime (cells p1 l1 n1) (cells p2 l2 n2)
    = ((p2, n2), b) :: rest /\
    rest = merge_by cell_uptime (cells p1 l1 n1) (cells p2 l2 (S n2)) /\
    (p1, n1) ∈ rest.*1.
Proof.
  intros Hn1 Hn2 Ha Hb Htie.
  destruct (cells_cons N p1 l1 n1 Hw1 Hn1) as (x & Hx & Ex).
  destruct (cells_cons N p2 l2 n2 Hw2 Hn2) as (y & Hy & Ey).
  assert (x = a) as -> by congruence. assert (y = b) as -> by congruence.
  eexists. split; [|split; [reflexivity|]].
  - assert (E : merge_by cell_uptime (((p1, n1), a) :: cells p1 l1 (S n1))
                         (((p2, n2), b) :: cells p2 l2 (S n2))
                = ((p2, n2), b)
                  :: merge_by cell_uptime (((p1, n1), a) :: cells p1 l1 (S n1))
                              (cells p2 l2 (S n2))).
    { rewrite merge_by_cons. unfold cell_uptime at 1 2. simpl.
      by destruct (Z.ltb_spec (uptime a) (uptime b)); [lia|]. }
    by rewrite <- Ex, <- Ey in E.
  - apply list_elem_of_fmap. exists ((p1, n1), a). split; [done|].
    rewrite merge_by_perm, Ex. apply elem_of_app. left. apply elem_of_cons.
    by left.
Qed.

End Ties.

(** C4.  The pointers handed out by the iterator are those of the two-way
    merge in which the second list wins ties, so the order is a function
    of the two lists.  When the first samples of two non-empty lists have
    equal timestamps, the first sample of [src2] is handed out first and
    the first sample of [src1] after it.  At an advance step where the
    next unconsumed samples of [src1] and [src2] have equal timestamps,
    the iterator moves to the sample of [src2]: it is handed out right
    after the current sample, and the sample of [src1] after it. *)
Theorem merge_iterator_src2_wins_ties
    (N fuel : nat) (h : gmap Z temperature_list_t) (src1' src2' : ptr)
    (l1 l2 : temperature_list_t) (f1 f2 : temperature_sample_t)
    (m0 : merge_iterator_t) :
  points_to h src1' l1 -> points_to h src2' l2 ->
  wf_list N l1 -> wf_list N l2 ->
  head (samples l1) = Some f1 -> head (samples l2) = Some f2 ->
  (length l1 + length l2 + 1 < fuel)%nat ->
  (exists m,
     init_merge_iterator h m0 src1' src2' = Done m /\
     drain_pointers fuel h m
     = Done (merge_by cell_uptime (cells src1' l1 0) (cells src2' l2 0)).*1 /\
     (uptime f1 = uptime f2 ->
      (current_list m, current_index m) = (src2', 0%nat) /\
      exists rest,
        drain_pointers fuel h m = Done ((src2', 0%nat) :: rest) /\
        (src1', 0%nat) ∈ rest)) /\
  (forall m sample c a b,
     src1 m = src1' -> src2 m = src2' -> current_list m <> NULL ->
     read_sample h (current_list m, current_index m) = Done c ->
     (next_src1_index m < length l1)%nat ->
     (next_src2_index m < length l2)%nat ->
     data l1 !! next_src1_index m = Some a ->
     data l2 !! next_src2_index m = Some b ->
     uptime a = uptime b ->
     exists m' rest,
       merge_iterate h m sample
       = Done (E_SUCCESS, m', (current_list m, current_index m)) /\
       (current_list m', current_index m')
       = (src2', next_src2_index m) /\
       next_src1_index m' = next_src1_index m /\
       next_src2_index m' = S (next_src2_index m) /\
       drain_pointers fuel h m
       = Done ((current_list m, current_index m)
               :: (src2', next_src2_index m) :: rest) /\
       (src1', next_src1_index m) ∈ rest).
Proof.
  intros Hp1 Hp2 Hw1 Hw2 Hf1 Hf2 Hfuel. split.
  - destruct (init_merge_iterator_pending N h src1' src2' l1 l2
                Hp1 Hp2 Hw1 Hw2 m0) as (m & Hinit & Hpend).
    exists m. split; [done|].
    assert (Hlen : List.length (merge_by cell_uptime (cells src1' l1 0)
                                         (cells src2' l2 0))
                   = (length l1 + length l2)%nat).
    { rewrite merge_by_length, !(cells_length N) by done. lia. }
    pose proof (drain_pointers_pending N h src1' src2' l1 l2 Hp1 Hp2 Hw1 Hw2
                  _ fuel m Hpend ltac:(lia)) as Hdrain.
    split; [done|]. intros Htie.
    destruct (head_samples_nonempty l1 f1 Hf1) as [Hn1 Hd1].
    destruct (head_samples_nonempty l2 f2 Hf2) as [Hn2 Hd2].
    destruct (merge_by_tie N src1' src2' l1 l2 Hw1 Hw2 0 0 f1 f2
                Hn1 Hn2 Hd1 Hd2 Htie) as (rest & EM & _ & Hin).
    rewrite EM in Hpend, Hdrain.
    destruct Hpend as (_ & _ & _ & Hc & _). simpl in Hc.
    split; [done|]. exists rest.*1. split; [done|done].
  - intros m sample c a b Hs1 Hs2 Hcur Hc Hn1 Hn2 Ha Hb Htie.
    destruct (merge_by_tie N src1' src2' l1 l2 Hw1 Hw2 _ _ a b
                Hn1 Hn2 Ha Hb Htie) as (rest & EM & Erest & Hin).
    assert (Hpend : iterator_pending h src1' src2' l1 l2 m
              (((current_list m, current_index m), c)
               :: ((src2', next_src2_index m), b) :: rest)).
    { repeat split; try done; try lia. }
    destruct (merge_iterate_pending N h src1' src2' l1 l2 Hp1 Hp2 Hw1 Hw2
                m sample _ _ Hpend) as (m' & Hstep & Hpend').
    exists m', rest.*1. split; [done|].
    pose proof Hpend' as (_ & _ & _ & Hc' & _ & _ & _ & Hrest').
    simpl in Hc'. split; [done|].
    assert (Hlen : (List.length rest < length l1 + length l2)%nat).
    { rewrite Erest, merge_by_length, !(cells_length N) by done. lia. }
    assert (Hnext : next_src1_index m' = next_src1_index m /\
                    next_src2_index m' = S (next_src2_index m)).
    { unfold merge_iterate in Hstep.
      destruct (Z.eqb_spec (current_list m) NULL) as [?|_]; [done|].
      rewrite Hs1, Hs2 in Hstep.
      rewrite (read_list_points_to _ _ _ Hp1), (read_list_points_to _ _ _ Hp2)
        in Hstep.
      rewrite !bind_Done in Hstep.
      destruct (Nat.eqb_spec (next_src1_index m) (length l1)) as [?|_]; [lia|].
      destruct (Nat.eqb_spec (next_src2_index m) (length l2)) as [?|_]; [lia|].
      simpl in Hstep. rewrite Ha, Hb in Hstep. simpl in Hstep.
      destruct (Z.ltb_spec (uptime a) (uptime b)); [lia|].
      injection Hstep as <-. done. }
    split; [apply Hnext|]. split; [apply Hnext|]. split; [|done].
    destruct fuel as [|fuel']; [lia|].
    apply (drain_pointers_pending N h src1' src2' l1 l2 Hp1 Hp2 Hw1 Hw2
             _ (S fuel') m Hpend).
    simpl. unfold sample_ptr in *. lia.
Qed.

Lemma merge_iterator_src2_wins_ties_witness :
  let f1 := {| temperature := 160; uptime := 10 |} in
  let f2 := {| temperature := 170; uptime := 10 |} in
  let l1 := {| data := [ f1; {| temperature := 480; uptime := 30 |};
                         zero_sample; zero_sample ];
               length := 2 |} in
  let l2 := {| data := [ f2; {| temperature := 500; uptime := 30 |};
                         zero_sample; zero_sample ];
               length := 2 |} in
  let h : gmap Z temperature_list_t := <[16 := l1]> (<[32 := l2]> ∅) in
  points_to h 16 l1 /\ points_to h 32 l2 /\
  wf_list 4 l1 /\ wf_list 4 l2 /\
  head (samples l1) = Some f1 /\ head (samples l2) = Some f2 /\
  (length l1 + length l2 + 1 < 6)%nat /\
  (exists m,
     init_merge_iterator h iterator_init 16 32 = Done m /\
     drain_pointers 6 h m
     = Done (merge_by cell_uptime (cells 16 l1 0) (cells 32 l2 0)).*1 /\
     (uptime f1 = uptime f2 ->
      (current_list m, current_index m) = (32, 0%nat) /\
      exists rest,
        drain_pointers 6 h m = Done ((32, 0%nat) :: rest) /\
        (16, 0%nat) ∈ rest)) /\
  (forall m sample c a b,
     src1 m = 16 -> src2 m = 32 -> current_list m <> NULL ->
     read_sample h (current_list m, current_index m) = Done c ->
     (next_src1_index m < length l1)%nat ->
     (next_src2_index m < length l2)%nat ->
     data l1 !! next_src1_index m = Some a ->
     data l2 !! next_src2_index m = Some b ->
     uptime a = uptime b ->
     exists m' rest,
       merge_iterate h m sample
       = Done (E_SUCCESS, m', (current_list m, current_index m)) /\
       (current_list m', current_index m') = (32, next_src2_index m) /\
       next_src1_index m' = next_src1_index m /\
       next_src2_index m' = S (next_src2_index m) /\
       drain_pointers 6 h m
       = Done ((current_list m, current_index m)
               :: (32, next_src2_index m) :: rest) /\
       (16, next_src1_index m) ∈ rest).
Proof.
  intros f1 f2 l1 l2 h.
  assert (Hp1 : points_to h 16 l1) by (split; [discriminate | reflexivity]).
  assert (Hp2 : points_to h 32 l2) by (split; [discriminate | reflexivity]).
  assert (Hw1 : wf_list 4 l1).
  { split; [reflexivity|]. split; [simpl; lia|].
    repeat constructor; simpl; lia. }
  assert (Hw2 : wf_list 4 l2).
  { split; [reflexivity|]. split; [simpl; lia|].
    repeat constructor; simpl; lia. }
  assert (Hf1 : head (samples l1) = Some f1) by reflexivity.
  assert (Hf2 : head (samples l2) = Some f2) by reflexivity.
  assert (Hfuel : (length l1 + length l2 + 1 < 6)%nat) by (simpl; lia).
  repeat (split; [assumption|]).
  exact (merge_iterator_src2_wins_ties 4 6 h 16 32 l1 l2 f1 f2 iterator_init
           Hp1 Hp2 Hw1 Hw2 Hf1 Hf2 Hfuel).
Defined.

(** The order in which the cells are handed out when all four timestamps
    are tied pairwise: second list first, both times. *)
Example drain_pointers_tied :
  let l1 := {| data := [ {| temperature := 160; uptime := 10 |};
                         {| temperature := 480; uptime := 30 |} ];
               length := 2 |} in
  let l2 := {| data := [ {| temperature := 170; uptime := 10 |};
                         {| temperature := 500; uptime := 30 |} ];
               length := 2 |} in
  let h : gmap Z temperature_list_t := <[16 := l1]> (<[32 := l2]> ∅) in
  (m ← init_merge_iterator h iterator_init 16 32; drain_pointers 6 h m)
  = Done [(32, 0%nat); (16, 0%nat); (32, 1%nat); (16, 1%nat)].
Proof. vm_compute. reflexivity. Qed.

(** * Further properties *)

(** ** More on bounded sample lists *)

Lemma samples_append (l : temperature_list_t) (s : temperature_sample_t) :
  (length l < List.length (data l))%nat ->
  samples {| data := <[length l := s]> (data l); length := S (length l) |}
  = samples l ++ [s].
Proof.
  intros Hlt. unfold samples. simpl.
  rewrite (take_S_r _ _ s) by (by apply list_lookup_insert_eq).
  by rewrite take_insert_ge by lia.
Qed.

Lemma append_temperature_sample_room (N : nat) (h : gmap Z temperature_list_t)
    (t : ptr) (l : temperature_list_t) (s : temperature_sample_t) :
  points_to h t l -> (length l < N)%nat ->
  append_temperature_sample N h t s
  = Done (E_SUCCESS,
          <[t := {| data := <[length l := s]> (data l);
                    length := S (length l) |}]> h).
Proof.
  intros Hp Hlt. unfold append_temperature_sample.
  rewrite (points_to_not_null _ _ _ Hp), (read_list_points_to _ _ _ Hp), bind_Done.
  destruct (Nat.eqb_spec (length l) N); [lia|].
  by destruct (Nat.ltb_spec (length l) N); [|lia].
Qed.

Lemma append_temperature_sample_full (N : nat) (h : gmap Z temperature_list_t)
    (t : ptr) (l : temperature_list_t) (s : temperature_sample_t) :
  points_to h t l -> length l = N ->
  append_temperature_sample N h t s = Done (E_NOBUFS, h).
Proof.
  intros Hp Hlt. unfold append_temperature_sample.
  rewrite (points_to_not_null _ _ _ Hp), (read_list_points_to _ _ _ Hp), bind_Done.
  by destruct (Nat.eqb_spec (length l) N).
Qed.

Lemma points_to_insert (h : gmap Z temperature_list_t) (t : ptr)
    (l l' : temperature_list_t) :
  points_to h t l -> points_to (<[t := l']> h) t l'.
Proof. intros [Hn _]. split; [done|]. apply lookup_insert_eq. Qed.

Lemma wf_list_append (N : nat) (l : temperature_list_t) (s : temperature_sample_t) :
  wf_list N l -> (length l < N)%nat -> typed_sample s ->
  wf_list N {| data := <[length l := s]> (data l); length := S (length l) |}.
Proof.
  intros (Hlen & Hle & Hty) Hlt Hs. split; [|split]; simpl.
  - by rewrite length_insert.
  - lia.
  - apply Forall_insert; done.
Qed.

(** X1.  Appending a run of samples to a list with [length <= N]: as many
    as there is room for are stored behind the samples already there, in
    the order given; the run succeeds when all fit, and otherwise stops
    with [E_NOBUFS] at the first sample that finds the list full, the list
    then holding exactly [N] samples.  The array keeps its [N] cells and
    typed samples keep the list well-formed. *)
Theorem append_samples_until_full (N : nat) (xs : list temperature_sample_t) :
  forall (h : gmap Z temperature_list_t) (t : ptr) (l : temperature_list_t),
  points_to h t l -> wf_list N l -> Forall typed_sample xs ->
  exists l',
    append_samples N h t xs
    = Done (if (List.length xs <=? N - length l)%nat then E_SUCCESS
            else E_NOBUFS,
            <[t := l']> h) /\
    samples l' = samples l ++ take (N - length l) xs /\
    length l' = (length l + List.length xs `min` (N - length l))%nat /\
    wf_list N l'.
Proof.
  induction xs as [|x xs IH]; intros h t l Hp Hw Hty.
  - exists l. simpl. rewrite insert_id by apply Hp.
    rewrite take_nil, app_nil_r.
    split; [done|]. split; [done|]. split; [simpl; lia|done].
  - apply Forall_cons in Hty as [Hx Hty]. simpl append_samples.
    pose proof Hw as (Hlen & Hle & _).
    destruct (decide (length l = N)) as [Hfull|Hroom].
    + rewrite (append_temperature_sample_full N h t l) by done.
      rewrite bind_Done. exists l. rewrite insert_id by apply Hp.
      replace (N - length l)%nat with 0%nat by lia.
      simpl. rewrite app_nil_r.
      split; [|split; [done|split; [lia|done]]].
      by destruct (Nat.leb_spec (S (List.length xs)) 0); [lia|].
    + rewrite (append_temperature_sample_room N h t l) by (done || lia).
      rewrite bind_Done.
      set (l1 := {| data := <[length l := x]> (data l);
                    length := S (length l) |}).
      destruct (IH (<[t := l1]> h) t l1) as (l' & Hrun & Hsam & Hlen' & Hw');
        [by eapply points_to_insert|apply wf_list_append; [done|lia|done]|done|].
      exists l'. rewrite Hrun, insert_insert_eq. simpl length in *.
      split; [|split; [|split]].
      * f_equal. f_equal.
        destruct (Nat.leb_spec (List.length xs) (N - S (length l)));
          destruct (Nat.leb_spec (List.length (x :: xs)) (N - length l));
          simpl in *; try done; lia.
      * rewrite Hsam. unfold l1. rewrite samples_append by lia.
        rewrite <- app_assoc. f_equal.
        replace (N - length l)%nat with (S (N - S (length l))) by lia.
        done.
      * rewrite Hlen'. simpl List.length. lia.
      * done.
Qed.

Lemma append_samples_until_full_witness :
  let l := {| data := [ {| temperature := 160; uptime := 10 |};
                        zero_sample; zero_sample ];
              length := 1 |} in
  let h : gmap Z temperature_list_t := <[16 := l]> ∅ in
  let xs := [ {| temperature := 170; uptime := 11 |};
              {| temperature := 180; uptime := 12 |};
              {| temperature := 190; uptime := 13 |} ] in
  points_to h 16 l /\ wf_list 3 l /\ Forall typed_sample xs /\
  exists l',
    append_samples 3 h 16 xs
    = Done (if (List.length xs <=? 3 - length l)%nat then E_SUCCESS
            else E_NOBUFS,
            <[16 := l']> h) /\
    samples l' = samples l ++ take (3 - length l) xs /\
    length l' = (length l + List.length xs `min` (3 - length l))%nat /\
    wf_list 3 l'.
Proof.
  intros l h xs.
  assert (Hp : points_to h 16 l) by (split; [discriminate | reflexivity]).
  assert (Hw : wf_list 3 l).
  { split; [reflexivity|]. split; [simpl; lia|].
    repeat constructor; simpl; lia. }
  assert (Hty : Forall typed_sample xs) by (repeat constructor; simpl; lia).
  repeat (split; [assumption|]).
  exact (append_samples_until_full 3 xs h 16 l Hp Hw Hty).
Defined.

Lemma Sorted_snoc {A : Type} (R : A -> A -> Prop) (xs : list A) (s : A) :
  Sorted R (xs ++ [s]) <->
  Sorted R xs /\ (forall e, last xs = Some e -> R e s).
Proof.
  induction xs as [|x xs IH]; simpl.
  - split; [intros _; split; [constructor|done]|intros _; repeat constructor].
  - split.
    + intros H. apply Sorted_inv in H as [Hs Hh].
      apply IH in Hs as [Hs Hl]. split.
      * constructor; [done|]. destruct xs; [constructor|].
        simpl in Hh. apply HdRel_inv in Hh. by constructor.
      * intros e He. destruct xs as [|y ys].
        -- simpl in *. injection He as <-. by apply HdRel_inv in Hh.
        -- rewrite last_cons_cons in He. by apply Hl.
    + intros [Hs Hl]. apply Sorted_inv in Hs as [Hs Hh]. constructor.
      * apply IH. split; [done|]. intros e He. apply Hl.
        destruct xs; [done|]. by rewrite last_cons_cons.
      * destruct xs as [|y ys]; simpl.
        -- constructor. by apply Hl.
        -- apply HdRel_inv in Hh. by constructor.
Qed.

(** X2.  [append_temperature_sample] does not look at timestamps: on a
    list with room whose samples are non-decreasing in timestamp, the
    samples stay non-decreasing exactly when the new timestamp is not
    before that of the last sample. *)
Theorem append_temperature_sample_sorted
    (N : nat) (h : gmap Z temperature_list_t) (t : ptr)
    (l : temperature_list_t) (s : temperature_sample_t) :
  points_to h t l -> wf_list N l -> (length l < N)%nat ->
  Sorted by_uptime (samples l) ->
  exists l',
    append_temperature_sample N h t s = Done (E_SUCCESS, <[t := l']> h) /\
    samples l' = samples l ++ [s] /\
    (Sorted by_uptime (samples l') <->
     forall e, last (samples l) = Some e -> uptime e <= uptime s).
Proof.
  intros Hp (Hlen & _ & _) Hlt Hs. eexists.
  split; [by apply append_temperature_sample_room|].
  rewrite samples_append by lia. split; [done|].
  rewrite Sorted_snoc. unfold by_uptime. tauto.
Qed.

Lemma append_temperature_sample_sorted_witness :
  let l := {| data := [ {| temperature := 160; uptime := 10 |};
                        zero_sample; zero_sample ];
              length := 1 |} in
  let h : gmap Z temperature_list_t := <[16 := l]> ∅ in
  let s := {| temperature := 170; uptime := 9 |} in
  points_to h 16 l /\ wf_list 3 l /\ (length l < 3)%nat /\
  Sorted by_uptime (samples l) /\
  exists l',
    append_temperature_sample 3 h 16 s = Done (E_SUCCESS, <[16 := l']> h) /\
    samples l' = samples l ++ [s] /\
    (Sorted by_uptime (samples l') <->
     forall e, last (samples l) = Some e -> uptime e <= uptime s).
Proof.
  intros l h s.
  assert (Hp : points_to h 16 l) by (split; [discriminate | reflexivity]).
  assert (Hw : wf_list 3 l).
  { split; [reflexivity|]. split; [simpl; lia|].
    repeat constructor; simpl; lia. }
  assert (Hlt : (length l < 3)%nat) by (simpl; lia).
  assert (Hs : Sorted by_uptime (samples l)) by repeat constructor.
  repeat (split; [assumption|]).
  exact (append_temperature_sample_sorted 3 h 16 l s Hp Hw Hlt Hs).
Defined.

(** ** More on persistence *)

(** X3.  [load_temperature_list] takes the record as the store returns it:
    a record of the right size whose [length] field exceeds [N] is loaded
    with [E_SUCCESS], and the next [append_temperature_sample] on that list
    writes outside the array, [length == N] being the only test. *)
Theorem load_temperature_list_trusts_length
    {nvs_fs : Type} `{!NvsStore nvs_fs} (N : nat) (offsetof_lock : Z)
    (fs : nvs_fs) (h : gmap Z temperature_list_t) (t : ptr)
    (buf r : temperature_list_t) (s : temperature_sample_t) :
  points_to h t buf ->
  nvs_read fs NVS_KEY_TEMPERATURE_DATA buf offsetof_lock = (offsetof_lock, r) ->
  offsetof_lock <> - ENOENT ->
  (N < length r)%nat ->
  load_temperature_list N offsetof_lock fs h t
    = Done (E_SUCCESS, <[t := r]> h, fs) /\
  append_temperature_sample N (<[t := r]> h) t s = Undefined.
Proof.
  intros Hp Hread Hsize Hlen. split.
  - unfold load_temperature_list.
    rewrite (points_to_not_null _ _ _ Hp), (read_list_points_to _ _ _ Hp).
    rewrite bind_Done, Hread.
    destruct (Z.eqb_spec offsetof_lock (- ENOENT)); [done|].
    by rewrite Z.eqb_refl.
  - pose proof (points_to_insert h t buf r Hp) as Hp'.
    unfold append_temperature_sample.
    rewrite (points_to_not_null _ _ _ Hp'), (read_list_points_to _ _ _ Hp').
    rewrite bind_Done.
    destruct (Nat.eqb_spec (length r) N); [lia|].
    by destruct (Nat.ltb_spec (length r) N); [lia|].
Qed.

Lemma load_temperature_list_trusts_length_witness :
  let buf := {| data := [zero_sample; zero_sample]; length := 0 |} in
  let r := {| data := [zero_sample; zero_sample]; length := 3 |} in
  let h : gmap Z temperature_list_t := <[16 := buf]> ∅ in
  let fs : gmap Z temperature_list_t := <[NVS_KEY_TEMPERATURE_DATA := r]> ∅ in
  points_to h 16 buf /\
  nvs_read fs NVS_KEY_TEMPERATURE_DATA buf 20 = (20, r) /\
  20 <> - ENOENT /\ (2 < length r)%nat /\
  load_temperature_list 2 20 fs h 16 = Done (E_SUCCESS, <[16 := r]> h, fs) /\
  append_temperature_sample 2 (<[16 := r]> h) 16 zero_sample = Undefined.
Proof.
  intros buf r h fs.
  assert (Hp : points_to h 16 buf) by (split; [discriminate | reflexivity]).
  assert (Hread : nvs_read fs NVS_KEY_TEMPERATURE_DATA buf 20 = (20, r))
    by reflexivity.
  assert (Hsize : 20 <> - ENOENT) by discriminate.
  assert (Hlen : (2 < length r)%nat) by (simpl; lia).
  repeat (split; [assumption|]).
  exact (load_temperature_list_trusts_length 2 20 fs h 16 buf r zero_sample
           Hp Hread Hsize Hlen).
Defined.

(** X4.  Store, then load: on a store that reports the write as done (the
    full size, or 0 for a record equal to the one it holds) and afterwards
    returns the record written, [store_temperature_list] succeeds and a
    following [load_temperature_list] into any list object succeeds and
    leaves that object equal to the list stored, unused cells included;
    the heap is otherwise as before. *)
Theorem store_then_load_round_trip
    {nvs_fs : Type} `{!NvsStore nvs_fs} (N : nat) (offsetof_lock : Z)
    (fs : nvs_fs) (h : gmap Z temperature_list_t) (t t' : ptr)
    (l l0 : temperature_list_t) :
  points_to h t l -> points_to h t' l0 ->
  offsetof_lock <> - ENOENT ->
  let written := nvs_write fs NVS_KEY_TEMPERATURE_DATA l offsetof_lock in
  written.1 = offsetof_lock \/ written.1 = 0 ->
  nvs_read written.2 NVS_KEY_TEMPERATURE_DATA l0 offsetof_lock
    = (offsetof_lock, l) ->
  store_temperature_list offsetof_lock fs h t = Done (E_SUCCESS, written.2) /\
  load_temperature_list N offsetof_lock written.2 h t'
    = Done (E_SUCCESS, <[t' := l]> h, written.2).
Proof.
  intros Hp Hp' Hsize written Hrc Hread. split.
  - unfold store_temperature_list.
    rewrite (points_to_not_null _ _ _ Hp), (read_list_points_to _ _ _ Hp).
    rewrite bind_Done. fold written. destruct written as [rc fs']. simpl in *.
    destruct Hrc as [->| ->]; [by rewrite Z.eqb_refl|].
    by rewrite Z.eqb_refl, orb_true_r.
  - unfold load_temperature_list.
    rewrite (points_to_not_null _ _ _ Hp'), (read_list_points_to _ _ _ Hp').
    rewrite bind_Done, Hread.
    destruct (Z.eqb_spec offsetof_lock (- ENOENT)); [done|].
    by rewrite Z.eqb_refl.
Qed.

Lemma store_then_load_round_trip_witness :
  let l := {| data := [{| temperature := 5; uptime := 9 |}; zero_sample];
              length := 1 |} in
  let l0 := {| data := [zero_sample; zero_sample]; length := 0 |} in
  let h : gmap Z temperature_list_t := <[16 := l]> (<[32 := l0]> ∅) in
  let fs : gmap Z temperature_list_t := ∅ in
  let written := nvs_write fs NVS_KEY_TEMPERATURE_DATA l 20 in
  points_to h 16 l /\ points_to h 32 l0 /\ 20 <> - ENOENT /\
  (written.1 = 20 \/ written.1 = 0) /\
  nvs_read written.2 NVS_KEY_TEMPERATURE_DATA l0 20 = (20, l) /\
  store_temperature_list 20 fs h 16 = Done (E_SUCCESS, written.2) /\
  load_temperature_list 2 20 written.2 h 32
    = Done (E_SUCCESS, <[32 := l]> h, written.2).
Proof.
  intros l l0 h fs written.
  assert (Hp : points_to h 16 l) by (split; [discriminate | reflexivity]).
  assert (Hp' : points_to h 32 l0) by (split; [discriminate | reflexivity]).
  assert (Hsize : 20 <> - ENOENT) by discriminate.
  assert (Hrc : written.1 = 20 \/ written.1 = 0) by (left; reflexivity).
  assert (Hread : nvs_read written.2 NVS_KEY_TEMPERATURE_DATA l0 20 = (20, l))
    by reflexivity.
  repeat (split; [assumption|]).
  exact (store_then_load_round_trip 2 20 fs h 16 32 l l0
           Hp Hp' Hsize Hrc Hread).
Defined.

(** ** [NULL] arguments *)

(** X5.  Every list operation tests its list pointers against [NULL]
    before anything else: with a [NULL] argument in any position it returns
    [E_NULL_PTR] and leaves the heap and the store as they were, whatever
    the other arguments are and with no loop iteration spent. *)
Theorem null_list_pointer_rejected
    {nvs_fs : Type} `{!NvsStore nvs_fs} (N fuel : nat) (offsetof_lock : Z)
    (fs : nvs_fs) (h : gmap Z temperature_list_t) (p q : ptr)
    (s : temperature_sample_t) :
  reset_temperature_list N h NULL = Done (E_NULL_PTR, h) /\
  load_temperature_list N offsetof_lock fs h NULL = Done (E_NULL_PTR, h, fs) /\
  store_temperature_list offsetof_lock fs h NULL = Done (E_NULL_PTR, fs) /\
  append_temperature_sample N h NULL s = Done (E_NULL_PTR, h) /\
  Forall (fun merge =>
            merge N fuel h NULL p q = Done (E_NULL_PTR, h) /\
            merge N fuel h p NULL q = Done (E_NULL_PTR, h) /\
            merge N fuel h p q NULL = Done (E_NULL_PTR, h))
         [merge_without_decimation; merge_with_decimation;
          merge_temperature_lists].
Proof.
  repeat split; try reflexivity.
  repeat constructor;
    unfold merge_without_decimation, merge_with_decimation,
           merge_temperature_lists;
    destruct (p =? NULL), (q =? NULL); reflexivity.
Qed.

(** ** The iterator hands out every cell in use, once *)

Lemma cells_from_pointers (p : ptr) (xs : list temperature_sample_t) (k : nat) :
  (cells_from p xs k).*1 = pair p <$> seq k (List.length xs).
Proof.
  revert k. induction xs as [|x xs IH]; intros k; simpl; [done|].
  by rewrite IH.
Qed.

Lemma cells_pointers (N : nat) (p : ptr) (l : temperature_list_t) :
  wf_list N l -> (cells p l 0).*1 = pair p <$> seq 0 (length l).
Proof.
  intros Hw. unfold cells.
  by rewrite drop_0, cells_from_pointers, (samples_length N).
Qed.

Lemma merge_by_sublist_l {A : Type} (key : A -> Z) (xs ys : list A) :
  xs `sublist_of` merge_by key xs ys.
Proof.
  revert ys. induction xs as [|x xs IHx]; intros ys.
  - apply sublist_nil_l.
  - induction ys as [|y ys IHy].
    + by rewrite merge_by_nil_r.
    + rewrite merge_by_cons. destruct (key x <? key y).
      * apply sublist_skip, IHx.
      * apply sublist_cons, IHy.
Qed.

Lemma merge_by_sublist_r {A : Type} (key : A -> Z) (xs ys : list A) :
  ys `sublist_of` merge_by key xs ys.
Proof.
  revert ys. induction xs as [|x xs IHx]; intros ys.
  - by rewrite merge_by_nil_l.
  - induction ys as [|y ys IHy].
    + apply sublist_nil_l.
    + rewrite merge_by_cons. destruct (key x <? key y).
      * apply sublist_cons, IHx.
      * apply sublist_skip, IHy.
Qed.

(** X6.  Whatever the order of the timestamps in the two lists, iterating
    to the end hands out the address of every cell in use of both lists
    exactly once and nothing else: the pointers are a rearrangement of
    [src1->data[0 .. length1)] and [src2->data[0 .. length2)], and those of
    either list come in ascending index. *)
Theorem merge_iterator_visits_each_cell_once
    (N fuel : nat) (h : gmap Z temperature_list_t) (p1 p2 : ptr)
    (l1 l2 : temperature_list_t) (m0 : merge_iterator_t) :
  points_to h p1 l1 -> points_to h p2 l2 ->
  wf_list N l1 -> wf_list N l2 ->
  (length l1 + length l2 < fuel)%nat ->
  let cells1 := pair p1 <$> seq 0 (length l1) in
  let cells2 := pair p2 <$> seq 0 (length l2) in
  exists m pointers,
    init_merge_iterator h m0 p1 p2 = Done m /\
    drain_pointers fuel h m = Done pointers /\
    pointers ≡ₚ cells1 ++ cells2 /\
    cells1 `sublist_of` pointers /\ cells2 `sublist_of` pointers.
Proof.
  intros Hp1 Hp2 Hw1 Hw2 Hfuel cells1 cells2.
  destruct (init_merge_iterator_pending N h p1 p2 l1 l2 Hp1 Hp2 Hw1 Hw2 m0)
    as (m & Hinit & Hpend).
  set (pending := merge_by cell_uptime (cells p1 l1 0) (cells p2 l2 0)) in *.
  exists m, pending.*1. split; [done|]. split.
  - apply (drain_pointers_pending N h p1 p2 l1 l2 Hp1 Hp2 Hw1 Hw2); [done|].
    unfold pending. rewrite merge_by_length, !(cells_length N) by done. lia.
  - unfold cells1, cells2.
    rewrite <- (cells_pointers N p1 l1 Hw1), <- (cells_pointers N p2 l2 Hw2).
    split; [|split].
    + rewrite <- fmap_app. apply fmap_Permutation, merge_by_perm.
    + apply fmap_sublist, merge_by_sublist_l.
    + apply fmap_sublist, merge_by_sublist_r.
Qed.

Lemma merge_iterator_visits_each_cell_once_witness :
  let l1 := {| data := [ {| temperature := 160; uptime := 30 |};
                         {| temperature := 480; uptime := 10 |} ];
               length := 2 |} in
  let l2 := {| data := [ {| temperature := 320; uptime := 20 |};
                         zero_sample ];
               length := 1 |} in
  let h : gmap Z temperature_list_t := <[16 := l1]> (<[32 := l2]> ∅) in
  points_to h 16 l1 /\ points_to h 32 l2 /\ wf_list 2 l1 /\ wf_list 2 l2 /\
  (length l1 + length l2 < 4)%nat /\
  let cells1 := pair 16 <$> seq 0 (length l1) in
  let cells2 := pair 32 <$> seq 0 (length l2) in
  exists m pointers,
    init_merge_iterator h iterator_init 16 32 = Done m /\
    drain_pointers 4 h m = Done pointers /\
    pointers ≡ₚ cells1 ++ cells2 /\
    cells1 `sublist_of` pointers /\ cells2 `sublist_of` pointers.
Proof.
  intros l1 l2 h.
  assert (Hp1 : points_to h 16 l1) by (split; [discriminate | reflexivity]).
  assert (Hp2 : points_to h 32 l2) by (split; [discriminate | reflexivity]).
  assert (Hw1 : wf_list 2 l1).
  { split; [reflexivity|]. split; [simpl; lia|].
    repeat constructor; simpl; lia. }
  assert (Hw2 : wf_list 2 l2).
  { split; [reflexivity|]. split; [simpl; lia|].
    repeat constructor; simpl; lia. }
  assert (Hfuel : (length l1 + length l2 < 4)%nat) by (simpl; lia).
  repeat (split; [assumption|]).
  exact (merge_iterator_visits_each_cell_once 2 4 h 16 32 l1 l2 iterator_init
           Hp1 Hp2 Hw1 Hw2 Hfuel).
Defined.

(** ** More on the exact merge *)

Lemma memmove_samples_drop (dst src : list temperature_sample_t) (n : nat) :
  (n <= List.length src)%nat ->
  drop n (memmove_samples dst src n) = drop n dst.
Proof.
  intros Hn. unfold memmove_samples.
  rewrite drop_app_length'; [done|]. rewrite length_take. lia.
Qed.

Lemma memmove_samples_length (dst src : list temperature_sample_t) (n : nat) :
  (n <= List.length src)%nat -> (n <= List.length dst)%nat ->
  List.length (memmove_samples dst src n) = List.length dst.
Proof.
  intros Hs Hd. unfold memmove_samples.
  rewrite length_app, length_take, length_drop. lia.
Qed.

Lemma merge_temperature_lists_exact_path
    (N fuel : nat) (h : gmap Z temperature_list_t) (src1' src2' dest : ptr)
    (l1 l2 : temperature_list_t) :
  points_to h src1' l1 -> points_to h src2' l2 -> dest <> NULL ->
  (length l1 + length l2 <= N)%nat ->
  merge_temperature_lists N fuel h src1' src2' dest
  = merge_without_decimation N fuel h src1' src2' dest.
Proof.
  intros Hp1 Hp2 Hd Hroom. unfold merge_temperature_lists.
  rewrite (points_to_not_null _ _ _ Hp1), (points_to_not_null _ _ _ Hp2).
  apply Z.eqb_neq in Hd. rewrite Hd. simpl.
  rewrite (read_list_points_to _ _ _ Hp1), (read_list_points_to _ _ _ Hp2).
  rewrite !bind_Done.
  by destruct (Nat.leb_spec (length l1 + length l2) N); [|lia].
Qed.

(** What the exact path stores, for sources in any order of timestamps. *)
Lemma merge_temperature_lists_exact_samples
    (N fuel : nat) (h : gmap Z temperature_list_t) (src1' src2' dest : ptr)
    (l1 l2 d : temperature_list_t) :
  points_to h src1' l1 -> points_to h src2' l2 -> points_to h dest d ->
  wf_list N l1 -> wf_list N l2 ->
  (length l1 + length l2 <= N)%nat ->
  (length l1 + length l2 < fuel)%nat ->
  exists d',
    merge_temperature_lists N fuel h src1' src2' dest
      = Done (E_SUCCESS, <[dest := d']> h) /\
    length d' = (length l1 + length l2)%nat /\
    samples d' = merge_by uptime (samples l1) (samples l2) /\
    drop (length d') (data d') = drop (length d') (data d) /\
    data d' = samples d' ++ drop (length d') (data d).
Proof.
  intros Hp1 Hp2 Hd Hw1 Hw2 Hroom Hfuel.
  destruct (merge_without_decimation_staged N h src1' src2' l1 l2
              Hp1 Hp2 Hw1 Hw2 fuel Hroom Hfuel)
    as (merged' & Hlen & Htake & Hrun).
  eexists. split.
  { rewrite (merge_temperature_lists_exact_path N fuel h src1' src2' dest l1 l2)
      by (done || apply Hd).
    by apply Hrun. }
  simpl. split; [done|]. unfold samples at 1. simpl.
  rewrite memmove_samples_take by lia.
  split; [done|]. split; [apply memmove_samples_drop; lia|].
  unfold samples. simpl. rewrite memmove_samples_take by lia.
  unfold memmove_samples. done.
Qed.

(** X7.  Merging with an empty list gives the other list back: when one
    source has no sample and the other fits, [merge_temperature_lists]
    succeeds and the destination holds the samples of the other source, in
    their order, whether or not they are sorted; two empty sources give an
    empty destination. *)
Theorem merge_temperature_lists_empty_source
    (N fuel : nat) (h : gmap Z temperature_list_t) (src1' src2' dest : ptr)
    (l1 l2 d : temperature_list_t) :
  points_to h src1' l1 -> points_to h src2' l2 -> points_to h dest d ->
  wf_list N l1 -> wf_list N l2 ->
  length l1 = 0%nat \/ length l2 = 0%nat ->
  (length l1 + length l2 < fuel)%nat ->
  exists d',
    merge_temperature_lists N fuel h src1' src2' dest
      = Done (E_SUCCESS, <[dest := d']> h) /\
    length d' = (length l1 + length l2)%nat /\
    samples d' = samples l1 ++ samples l2 /\
    (length l1 = 0%nat -> samples d' = samples l2) /\
    (length l2 = 0%nat -> samples d' = samples l1).
Proof.
  intros Hp1 Hp2 Hd Hw1 Hw2 Hempty Hfuel.
  assert (Hroom : (length l1 + length l2 <= N)%nat).
  { destruct Hw1 as (_ & ? & _), Hw2 as (_ & ? & _). lia. }
  destruct (merge_temperature_lists_exact_samples N fuel h src1' src2' dest
              l1 l2 d Hp1 Hp2 Hd Hw1 Hw2 Hroom Hfuel)
    as (d' & Hrun & Hlen & Hsam & _).
  exists d'. split; [done|]. split; [done|].
  assert (E1 : length l1 = 0%nat -> samples l1 = []).
  { intros E. unfold samples. by rewrite E. }
  assert (E2 : length l2 = 0%nat -> samples l2 = []).
  { intros E. unfold samples. by rewrite E. }
  rewrite Hsam. split; [|split].
  - destruct Hempty as [E|E].
    + by rewrite (E1 E), merge_by_nil_l.
    + by rewrite (E2 E), merge_by_nil_r, app_nil_r.
  - intros E. by rewrite (E1 E), merge_by_nil_l.
  - intros E. by rewrite (E2 E), merge_by_nil_r.
Qed.

Lemma merge_temperature_lists_empty_source_witness :
  let l1 := {| data := replicate 5 zero_sample; length := 0 |} in
  let l2 := {| data := [ {| temperature := 100; uptime := 1 |};
                         zero_sample; zero_sample; zero_sample; zero_sample ];
               length := 1 |} in
  let d := {| data := replicate 5 zero_sample; length := 0 |} in
  let h : gmap Z temperature_list_t := <[16 := l1]> (<[32 := l2]> (<[48 := d]> ∅)) in
  points_to h 16 l1 /\ points_to h 32 l2 /\ points_to h 48 d /\
  wf_list 5 l1 /\ wf_list 5 l2 /\
  (length l1 = 0%nat \/ length l2 = 0%nat) /\
  (length l1 + length l2 < 2)%nat /\
  exists d',
    merge_temperature_lists 5 2 h 16 32 48 = Done (E_SUCCESS, <[48 := d']> h) /\
    length d' = (length l1 + length l2)%nat /\
    samples d' = samples l1 ++ samples l2 /\
    (length l1 = 0%nat -> samples d' = samples l2) /\
    (length l2 = 0%nat -> samples d' = samples l1).
Proof.
  intros l1 l2 d h.
  assert (Hp1 : points_to h 16 l1) by (split; [discriminate | reflexivity]).
  assert (Hp2 : points_to h 32 l2) by (split; [discriminate | reflexivity]).
  assert (Hd : points_to h 48 d) by (split; [discriminate | reflexivity]).
  assert (Hw1 : wf_list 5 l1).
  { split; [reflexivity|]. split; [simpl; lia|].
    repeat constructor; simpl; lia. }
  assert (Hw2 : wf_list 5 l2).
  { split; [reflexivity|]. split; [simpl; lia|].
    repeat constructor; simpl; lia. }
  assert (Hempty : length l1 = 0%nat \/ length l2 = 0%nat) by (left; reflexivity).
  assert (Hfuel : (length l1 + length l2 < 2)%nat) by (simpl; lia).
  repeat (split; [assumption|]).
  exact (merge_temperature_lists_empty_source 5 2 h 16 32 48 l1 l2 d
           Hp1 Hp2 Hd Hw1 Hw2 Hempty Hfuel).
Defined.

(** X8.  The exact merge is stable and needs no sorted input: for any two
    lists that fit together, the samples of each source appear in the
    destination in the order they had in the source, the destination is a
    permutation of both, and the cells of the destination behind the merged
    samples keep what they held. *)
Theorem merge_temperature_lists_exact_stable
    (N fuel : nat) (h : gmap Z temperature_list_t) (src1' src2' dest : ptr)
    (l1 l2 d : temperature_list_t) :
  points_to h src1' l1 -> points_to h src2' l2 -> points_to h dest d ->
  wf_list N l1 -> wf_list N l2 ->
  (length l1 + length l2 <= N)%nat ->
  (length l1 + length l2 < fuel)%nat ->
  exists d',
    merge_temperature_lists N fuel h src1' src2' dest
      = Done (E_SUCCESS, <[dest := d']> h) /\
    samples l1 `sublist_of` samples d' /\
    samples l2 `sublist_of` samples d' /\
    samples d' ≡ₚ samples l1 ++ samples l2 /\
    drop (length d') (data d') = drop (length d') (data d).
Proof.
  intros Hp1 Hp2 Hd Hw1 Hw2 Hroom Hfuel.
  destruct (merge_temperature_lists_exact_samples N fuel h src1' src2' dest
              l1 l2 d Hp1 Hp2 Hd Hw1 Hw2 Hroom Hfuel)
    as (d' & Hrun & Hlen & Hsam & Hdrop & _).
  exists d'. split; [done|]. rewrite Hsam.
  split; [apply merge_by_sublist_l|]. split; [apply merge_by_sublist_r|].
  split; [apply merge_by_perm|done].
Qed.

Lemma merge_temperature_lists_exact_stable_witness :
  let l1 := {| data := [ {| temperature := 160; uptime := 30 |};
                         {| temperature := 480; uptime := 10 |};
                         zero_sample; zero_sample ];
               length := 2 |} in
  let l2 := {| data := [ {| temperature := 320; uptime := 20 |};
                         zero_sample; zero_sample; zero_sample ];
               length := 1 |} in
  let d := {| data := replicate 4 {| temperature := 7; uptime := 7 |};
              length := 4 |} in
  let h : gmap Z temperature_list_t := <[16 := l1]> (<[32 := l2]> (<[48 := d]> ∅)) in
  points_to h 16 l1 /\ points_to h 32 l2 /\ points_to h 48 d /\
  wf_list 4 l1 /\ wf_list 4 l2 /\
  (length l1 + length l2 <= 4)%nat /\ (length l1 + length l2 < 4)%nat /\
  exists d',
    merge_temperature_lists 4 4 h 16 32 48 = Done (E_SUCCESS, <[48 := d']> h) /\
    samples l1 `sublist_of` samples d' /\
    samples l2 `sublist_of` samples d' /\
    samples d' ≡ₚ samples l1 ++ samples l2 /\
    drop (length d') (data d') = drop (length d') (data d).
Proof.
  intros l1 l2 d h.
  assert (Hp1 : points_to h 16 l1) by (split; [discriminate | reflexivity]).
  assert (Hp2 : points_to h 32 l2) by (split; [discriminate | reflexivity]).
  assert (Hd : points_to h 48 d) by (split; [discriminate | reflexivity]).
  assert (Hw1 : wf_list 4 l1).
  { split; [reflexivity|]. split; [simpl; lia|].
    repeat constructor; simpl; lia. }
  assert (Hw2 : wf_list 4 l2).
  { split; [reflexivity|]. split; [simpl; lia|].
    repeat constructor; simpl; lia. }
  assert (Hroom : (length l1 + length l2 <= 4)%nat) by (simpl; lia).
  assert (Hfuel : (length l1 + length l2 < 4)%nat) by (simpl; lia).
  repeat (split; [assumption|]).
  exact (merge_temperature_lists_exact_stable 4 4 h 16 32 48 l1 l2 d
           Hp1 Hp2 Hd Hw1 Hw2 Hroom Hfuel).
Defined.

(** ** What the two merge helpers rely on the dispatcher for *)

Section Overflow.
Variable N : nat.
Variable h : gmap Z temperature_list_t.
Variables p1 p2 : ptr.
Variables l1 l2 : temperature_list_t.
Hypothesis Hp1 : points_to h p1 l1.
Hypothesis Hp2 : points_to h p2 l2.
Hypothesis Hw1 : wf_list N l1.
Hypothesis Hw2 : wf_list N l2.

(** With more cells pending than the staging buffer has room for, the loop
    writes behind the end of the buffer. *)
Lemma drain_loop_overflow
    (pending : list (sample_ptr * temperature_sample_t)) :
  forall (fuel : nat) (dest : ptr) (m : merge_iterator_t) (sample : sample_ptr)
         (merged : list temperature_sample_t) (index : nat),
  iterator_pending h p1 p2 l1 l2 m pending ->
  Forall (fun c => read_sample h c.1 = Done c.2) pending ->
  (index <= N)%nat ->
  (N < index + List.length pending)%nat ->
  (N - index < fuel)%nat ->
  drain_loop N fuel h dest m sample merged index = Undefined.
Proof.
  induction pending as [|c rest IH];
    intros fuel dest m sample merged index Hpend Hread Hidx Hover Hfuel.
  - simpl in Hover. lia.
  - destruct fuel as [|fuel]; [lia|].
    destruct (merge_iterate_pending N h p1 p2 l1 l2 Hp1 Hp2 Hw1 Hw2
                m sample c rest Hpend) as (m' & Hstep & Hpend').
    apply Forall_cons in Hread as [Hc Hread].
    simpl. rewrite Hstep, bind_Done, Hc, bind_Done.
    destruct (Nat.ltb_spec index N) as [Hlt|Hge]; [|done].
    apply IH; [done|done|lia|simpl in Hover; lia|lia].
Qed.

End Overflow.

(** X9.  [merge_without_decimation] has no bound check of its own: called
    with two lists that hold more than [N] samples together, it writes
    behind the end of its local staging array (undefined behaviour).  Only
    the dispatcher's test [length1 + length2 <= N] keeps it inside. *)
Theorem merge_without_decimation_overflow
    (N fuel : nat) (h : gmap Z temperature_list_t) (src1' src2' dest : ptr)
    (l1 l2 : temperature_list_t) :
  points_to h src1' l1 -> points_to h src2' l2 -> dest <> NULL ->
  wf_list N l1 -> wf_list N l2 ->
  (N < length l1 + length l2)%nat ->
  (N < fuel)%nat ->
  merge_without_decimation N fuel h src1' src2' dest = Undefined.
Proof.
  intros Hp1 Hp2 Hd Hw1 Hw2 Hover Hfuel.
  destruct (init_merge_iterator_pending N h src1' src2' l1 l2 Hp1 Hp2 Hw1 Hw2
              iterator_init) as (m & Hinit & Hpend).
  unfold merge_without_decimation.
  rewrite (points_to_not_null _ _ _ Hp1), (points_to_not_null _ _ _ Hp2).
  apply Z.eqb_neq in Hd. rewrite Hd. simpl. rewrite Hinit, bind_Done.
  eapply (drain_loop_overflow N h src1' src2' l1 l2 Hp1 Hp2 Hw1 Hw2);
    [exact Hpend|by apply pending_readable|lia| |lia].
  rewrite merge_by_length, !(cells_length N) by done. lia.
Qed.

Lemma merge_without_decimation_overflow_witness :
  let l1 := {| data := [ {| temperature := 160; uptime := 10 |};
                         {| temperature := 480; uptime := 30 |} ];
               length := 2 |} in
  let l2 := {| data := [ {| temperature := 320; uptime := 20 |};
                         zero_sample ];
               length := 1 |} in
  let h : gmap Z temperature_list_t := <[16 := l1]> (<[32 := l2]> ∅) in
  points_to h 16 l1 /\ points_to h 32 l2 /\ 32 <> NULL /\
  wf_list 2 l1 /\ wf_list 2 l2 /\
  (2 < length l1 + length l2)%nat /\ (2 < 3)%nat /\
  merge_without_decimation 2 3 h 16 32 32 = Undefined.
Proof.
  intros l1 l2 h.
  assert (Hp1 : points_to h 16 l1) by (split; [discriminate | reflexivity]).
  assert (Hp2 : points_to h 32 l2) by (split; [discriminate | reflexivity]).
  assert (Hd : 32 <> NULL) by discriminate.
  assert (Hw1 : wf_list 2 l1).
  { split; [reflexivity|]. split; [simpl; lia|].
    repeat constructor; simpl; lia. }
  assert (Hw2 : wf_list 2 l2).
  { split; [reflexivity|]. split; [simpl; lia|].
    repeat constructor; simpl; lia. }
  assert (Hover : (2 < length l1 + length l2)%nat) by (simpl; lia).
  assert (Hfuel : (2 < 3)%nat) by lia.
  repeat (split; [assumption|]).
  exact (merge_without_decimation_overflow 2 3 h 16 32 32 l1 l2
           Hp1 Hp2 Hd Hw1 Hw2 Hover Hfuel).
Defined.

(** X10.  [merge_with_decimation] reads [data[length - 1]] of both sources
    before anything else: called with a source that has no sample, the
    index wraps around in [size_t] and the read is outside the array
    (undefined behaviour), whatever the other list holds. *)
Theorem merge_with_decimation_empty_source
    (N fuel : nat) (h : gmap Z temperature_list_t) (src1' src2' dest : ptr)
    (l1 l2 : temperature_list_t) :
  points_to h src1' l1 -> points_to h src2' l2 -> dest <> NULL ->
  length l1 = 0%nat \/ length l2 = 0%nat ->
  merge_with_decimation N fuel h src1' src2' dest = Undefined.
Proof.
  intros Hp1 Hp2 Hd Hempty. unfold merge_with_decimation.
  rewrite (points_to_not_null _ _ _ Hp1), (points_to_not_null _ _ _ Hp2).
  apply Z.eqb_neq in Hd. rewrite Hd. simpl.
  rewrite (read_list_points_to _ _ _ Hp1), (read_list_points_to _ _ _ Hp2).
  rewrite !bind_Done.
  destruct (data l1 !! 0%nat) as [f1|]; [|done].
  destruct (data l2 !! 0%nat) as [f2|]; [|done]. simpl.
  unfold last_sample.
  destruct (length l1) as [|k1]; [done|].
  destruct (data l1 !! k1) as [e1|]; [|done]. simpl.
  destruct Hempty as [?|E2]; [done|]. by rewrite E2.
Qed.

Lemma merge_with_decimation_empty_source_witness :
  let l1 := {| data := [ {| temperature := 160; uptime := 10 |};
                         {| temperature := 480; uptime := 30 |} ];
               length := 2 |} in
  let l2 := {| data := [ zero_sample; zero_sample ]; length := 0 |} in
  let h : gmap Z temperature_list_t := <[16 := l1]> (<[32 := l2]> ∅) in
  points_to h 16 l1 /\ points_to h 32 l2 /\ 32 <> NULL /\
  (length l1 = 0%nat \/ length l2 = 0%nat) /\
  merge_with_decimation 2 9 h 16 32 32 = Undefined.
Proof.
  intros l1 l2 h.
  assert (Hp1 : points_to h 16 l1) by (split; [discriminate | reflexivity]).
  assert (Hp2 : points_to h 32 l2) by (split; [discriminate | reflexivity]).
  assert (Hd : 32 <> NULL) by discriminate.
  assert (Hempty : length l1 = 0%nat \/ length l2 = 0%nat) by (right; reflexivity).
  repeat (split; [assumption|]).
  exact (merge_with_decimation_empty_source 2 9 h 16 32 32 l1 l2
           Hp1 Hp2 Hd Hempty).
Defined.

(** ** Interpolation stays between its two samples *)

Lemma mean_between (lo hi x y : Z) :
  lo <= x <= hi -> lo <= y <= hi -> lo <= (x + y) ÷ 2 <= hi.
Proof.
  intros Hx Hy.
  destruct (Z_le_gt_dec 0 (x + y)) as [Hs|Hs].
  - rewrite Z.quot_div_nonneg by lia.
    pose proof (Z.div_mod (x + y) 2 ltac:(lia)).
    pose proof (Z.mod_pos_bound (x + y) 2 ltac:(lia)). lia.
  - replace (x + y) with (- (- (x + y))) by lia.
    rewrite Z.quot_opp_l by lia. rewrite Z.quot_div_nonneg by lia.
    pose proof (Z.div_mod (- (x + y)) 2 ltac:(lia)).
    pose proof (Z.mod_pos_bound (- (x + y)) 2 ltac:(lia)). lia.
Qed.

(** Within the bounds of exact arithmetic the interpolated value lies
    between the two values. *)
Lemma interpolate_within (a b : temperature_sample_t) (t : Z) :
  typed_sample a -> typed_sample b ->
  uptime a <= t <= uptime b ->
  uptime b - uptime a < 2 ^ 24 ->
  Z.abs (temperature b - temperature a) * (uptime b - uptime a) < 2 ^ 24 ->
  exists s,
    interpolate a b t = Done s /\ uptime s = t /\
    Z.min (temperature a) (temperature b)
      <= temperature s
      <= Z.max (temperature a) (temperature b).
Proof.
  intros Hta Htb Ht HT Hsmall.
  destruct (Z.eq_dec (uptime a) (uptime b)) as [E|Hne].
  - eexists. split; [by apply interpolate_same_time|]. split; [done|].
    cbn [temperature]. apply mean_between; lia.
  - eexists. split; [apply interpolate_exact; [done|done|lia|done|done|]|].
    + rewrite Z.abs_mul, (Z.abs_eq (t - uptime a)) by lia.
      pose proof (Z.abs_nonneg (temperature b - temperature a)). nia.
    + split; [done|]. cbn [temperature].
      destruct (quot_fraction_between (temperature b - temperature a)
                  (t - uptime a) (uptime b - uptime a)) as [Hpos Hneg];
        [lia|lia|].
      destruct (Z_le_gt_dec 0 (temperature b - temperature a)) as [Hd|Hd].
      * specialize (Hpos Hd). lia.
      * specialize (Hneg ltac:(lia)). lia.
Qed.

(** X11.  Between two samples in time order, [interpolate] does not
    overshoot: for a target between the two timestamps it has a result,
    whose value lies between the two values, and at either timestamp the
    result is the sample there (for equal timestamps the value is their
    mean).  This holds whenever the single-precision arithmetic is exact,
    that is for a time difference below 2^24 minutes whose product with
    the value difference is below 2^24. *)
Theorem interpolate_between (a b : temperature_sample_t) (t : Z) :
  typed_sample a -> typed_sample b ->
  uptime a <= t <= uptime b ->
  uptime b - uptime a < 2 ^ 24 ->
  Z.abs (temperature b - temperature a) * (uptime b - uptime a) < 2 ^ 24 ->
  (exists s,
     interpolate a b t = Done s /\ uptime s = t /\
     Z.min (temperature a) (temperature b)
       <= temperature s
       <= Z.max (temperature a) (temperature b)) /\
  (uptime a < uptime b ->
   interpolate a b (uptime a) = Done a /\
   interpolate a b (uptime b) = Done b).
Proof.
  intros Hta Htb Ht HT Hsmall.
  split; [by apply interpolate_within|]. intros Hlt.
  assert (Hprod : forall t', uptime a <= t' <= uptime b ->
            Z.abs ((temperature b - temperature a) * (t' - uptime a)) < 2 ^ 24).
  { intros t' Ht'. rewrite Z.abs_mul, (Z.abs_eq (t' - uptime a)) by lia.
    pose proof (Z.abs_nonneg (temperature b - temperature a)). nia. }
  split.
  - rewrite interpolate_exact by (done || lia || apply Hprod; lia).
    rewrite Z.sub_diag, Z.mul_0_r, Z.quot_0_l, Z.add_0_r by lia.
    by destruct a.
  - rewrite interpolate_exact by (done || lia || apply Hprod; lia).
    rewrite Z.quot_mul by lia.
    replace (temperature a + (temperature b - temperature a))
      with (temperature b) by lia.
    by destruct b.
Qed.

Lemma interpolate_between_witness :
  let a := {| temperature := 160; uptime := 10 |} in
  let b := {| temperature := 100; uptime := 17 |} in
  typed_sample a /\ typed_sample b /\
  uptime a <= 12 <= uptime b /\
  uptime b - uptime a < 2 ^ 24 /\
  Z.abs (temperature b - temperature a) * (uptime b - uptime a) < 2 ^ 24 /\
  (exists s,
     interpolate a b 12 = Done s /\ uptime s = 12 /\
     Z.min (temperature a) (temperature b)
       <= temperature s
       <= Z.max (temperature a) (temperature b)) /\
  (uptime a < uptime b ->
   interpolate a b (uptime a) = Done a /\
   interpolate a b (uptime b) = Done b).
Proof.
  intros a b.
  assert (Hta : typed_sample a) by (split; simpl; unfold in_s16, in_u32; lia).
  assert (Htb : typed_sample b) by (split; simpl; unfold in_s16, in_u32; lia).
  assert (Ht : uptime a <= 12 <= uptime b) by (simpl; lia).
  assert (HT : uptime b - uptime a < 2 ^ 24) by (simpl; lia).
  assert (Hsmall : Z.abs (temperature b - temperature a)
                   * (uptime b - uptime a) < 2 ^ 24) by (simpl; lia).
  do 5 (split; [assumption|]).
  exact (interpolate_between a b 12 Hta Htb Ht HT Hsmall).
Defined.

(** ** What the decimation loop emits *)

Section Emitted.
Variable N : nat.
Variable h : gmap Z temperature_list_t.
Variables p1 p2 : ptr.
Variables l1 l2 : temperature_list_t.
Hypothesis Hp1 : points_to h p1 l1.
Hypothesis Hp2 : points_to h p2 l2.
Hypothesis Hw1 : wf_list N l1.
Hypothesis Hw2 : wf_list N l2.

(** Every sample the loop stages is the result of [interpolate a b t]
    for two neighbouring cells [a], [b] of the merged run and a target
    [t] between their timestamps. *)
Lemma decimation_loop_emits (Q : temperature_sample_t -> Prop)
    (base long : Z) (dest : ptr) (d : temperature_list_t) (fuel : nat) :
  points_to h dest d ->
  forall (m : merge_iterator_t) (pc cc : sample_ptr * temperature_sample_t)
         (rest : list (sample_ptr * temperature_sample_t))
         (merged : list temperature_sample_t) (k : nat) (mu : Z)
         (h' : gmap Z temperature_list_t),
  iterator_pending h p1 p2 l1 l2 m rest ->
  Forall (fun c => read_sample h c.1 = Done c.2) (pc :: cc :: rest) ->
  (forall a b t i s, (pc :: cc :: rest).*2 !! i = Some a ->
                     (pc :: cc :: rest).*2 !! S i = Some b ->
                     uptime a <= t <= uptime b ->
                     interpolate a b t = Done s -> Q s) ->
  Forall Q (take k merged) -> List.length merged = N -> (k <= N)%nat ->
  decimation_loop N fuel h dest base long m pc.1 cc.1 merged k mu
    = Done (E_SUCCESS, h') ->
  exists merged',
    List.length merged' = N /\ Forall Q merged' /\
    h' = <[dest := {| data := memmove_samples (data d) merged' N;
                      length := N |}]> h.
Proof.
  intros Hd. induction fuel as [|fuel IH];
    intros m pc cc rest merged k mu h' Hpend Hread HQ Hdone Hlen Hk Hrun;
    [done|].
  simpl in Hrun. destruct (Nat.ltb_spec k N) as [Hlt|Hge].
  - pose proof Hread as Hread0.
    apply Forall_cons in Hread as [Hpc Hread].
    pose proof Hread as Hread'. apply Forall_cons in Hread' as [Hcc Hrest].
    rewrite Hpc, bind_Done, Hcc, in_range_eq, bind_Done in Hrun.
    destruct ((uptime pc.2 <=? mu) && (mu <=? uptime cc.2)) eqn:Hin.
    + rewrite !bind_Done in Hrun.
      apply andb_true_iff in Hin as [Hin1 Hin2].
      apply Z.leb_le in Hin1, Hin2.
      destruct (interpolate pc.2 cc.2 mu) as [s| |] eqn:Es; [|done|done].
      rewrite bind_Done in Hrun.
      eapply (IH m pc cc rest); [done|done|done| |by rewrite length_insert|
                                 |exact Hrun]; [|lia].
      rewrite (take_S_r _ _ s) by (apply list_lookup_insert_eq; lia).
      rewrite take_insert_ge by lia.
      apply Forall_app. split; [done|]. constructor; [|constructor].
      apply (HQ pc.2 cc.2 mu 0%nat); [done|done|lia|done].
    + destruct rest as [|c' rest'].
      * destruct Hpend as (_ & _ & Hcur).
        rewrite (merge_iterate_exhausted h m cc.1 Hcur), bind_Done in Hrun.
        done.
      * destruct (merge_iterate_pending N h p1 p2 l1 l2 Hp1 Hp2 Hw1 Hw2
                    m cc.1 c' rest' Hpend) as (m' & Hstep & Hpend').
        rewrite Hstep, bind_Done in Hrun.
        eapply (IH m' cc c' rest'); [done|done| |done|done|done|exact Hrun].
        intros a b t i s Ha Hb. by apply (HQ a b t (S i)).
  - rewrite (read_list_points_to _ _ _ Hd), bind_Done in Hrun.
    injection Hrun as <-. exists merged. split; [done|]. split; [|done].
    by rewrite take_ge in Hdone by lia.
Qed.

End Emitted.

Section EmittedPath.
Variable N : nat.
Variable h : gmap Z temperature_list_t.
Variables p1 p2 : ptr.
Variables l1 l2 : temperature_list_t.
Hypothesis Hp1 : points_to h p1 l1.
Hypothesis Hp2 : points_to h p2 l2.
Hypothesis Hw1 : wf_list N l1.
Hypothesis Hw2 : wf_list N l2.
Hypothesis HN : (2 <= N)%nat.
Hypothesis HN32 : Z.of_nat N < 2 ^ 32.
Variables f1 f2 e1 e2 : temperature_sample_t.
Hypothesis Hf1 : head (samples l1) = Some f1.
Hypothesis Hf2 : head (samples l2) = Some f2.
Hypothesis He1 : last (samples l1) = Some e1.
Hypothesis He2 : last (samples l2) = Some e2.
Hypothesis Hs1 : Sorted by_uptime (samples l1).
Hypothesis Hs2 : Sorted by_uptime (samples l2).

(** The decimation path, with what it stages: the targets as timestamps,
    and values interpolated between neighbouring samples of the merged
    sources. *)
Lemma merge_with_decimation_emitted (Q : temperature_sample_t -> Prop)
    (fuel : nat) (dest : ptr) (d : temperature_list_t) :
  let start := Z.min (uptime f1) (uptime f2) in
  let end_uptime := Z.max (uptime e1) (uptime e2) in
  let base := (end_uptime - start) / (Z.of_nat N - 1) in
  let long := (end_uptime - start) mod (Z.of_nat N - 1) in
  (forall a b t i s,
     merge_by uptime (samples l1) (samples l2) !! i = Some a ->
     merge_by uptime (samples l1) (samples l2) !! S i = Some b ->
     uptime a <= t <= uptime b -> interpolate a b t = Done s -> Q s) ->
  (N + length l1 + length l2 <= fuel)%nat ->
  points_to h dest d ->
  exists merged',
    start <= end_uptime /\
    List.length merged' = N /\
    (forall i, (i < N)%nat ->
       uptime <$> merged' !! i = Some (target start base long i)) /\
    Forall Q merged' /\
    merge_with_decimation N fuel h p1 p2 dest
    = Done (E_SUCCESS,
            <[dest := {| data := memmove_samples (data d) merged' N;
                         length := N |}]> h).
Proof.
  intros start end_uptime base long HQ Hfuel Hd.
  destruct (merge_with_decimation_staged N h p1 p2 l1 l2 Hp1 Hp2 Hw1 Hw2
              HN HN32 f1 f2 e1 e2 Hf1 Hf2 He1 He2 Hs1 Hs2 fuel Hfuel)
    as (merged1 & Hle & Hlen1 & Htargets & Hrun).
  specialize (Hrun dest d Hd).
  exists merged1. split; [done|]. split; [done|]. split; [done|].
  split; [|done].
  destruct (head_samples_nonempty l1 f1 Hf1) as [Hn1 Hd1].
  destruct (head_samples_nonempty l2 f2 Hf2) as [Hn2 Hd2].
  destruct (decimation_cursors N h p1 p2 l1 l2 Hp1 Hp2 Hw1 Hw2 f1 f2 Hf1 Hf2)
    as (pc & cc & rest & m & EM & Hpc & Hrun0 & Hpend).
  assert (Hread : Forall (fun c => read_sample h c.1 = Done c.2)
                         (pc :: cc :: rest)).
  { rewrite <- EM. by apply pending_readable. }
  assert (EV : (pc :: cc :: rest).*2
               = merge_by uptime (samples l1) (samples l2)).
  { rewrite <- EM.
    change cell_uptime with (uptime ∘ (snd : sample_ptr * _ -> _)).
    by rewrite merge_by_fmap, !cells_values. }
  pose proof Hrun as Hloop. unfold merge_with_decimation in Hloop.
  rewrite (points_to_not_null _ _ _ Hp1), (points_to_not_null _ _ _ Hp2),
          (points_to_not_null _ _ _ Hd) in Hloop. simpl in Hloop.
  rewrite (read_list_points_to _ _ _ Hp1), (read_list_points_to _ _ _ Hp2)
    in Hloop.
  rewrite !bind_Done, Hd1, Hd2 in Hloop. simpl in Hloop.
  rewrite (last_sample_samples N l1 e1), (last_sample_samples N l2 e2)
    in Hloop by done.
  simpl in Hloop.
  destruct (wrap_u32 (Z.of_nat N - 1) =? 0); [done|].
  destruct (init_merge_iterator h iterator_init p1 p2) as [m0| |];
    simpl in Hrun0; try discriminate.
  rewrite bind_Done in Hloop.
  destruct (merge_iterate h m0 NULL_sample) as [[[r1 m1] s1]| |];
    simpl in Hrun0; try discriminate.
  rewrite bind_Done in Hloop.
  destruct (merge_iterate h m1 NULL_sample) as [[[r2 m2] s2]| |];
    simpl in Hrun0; try discriminate.
  rewrite bind_Done in Hloop. injection Hrun0 as -> -> ->.
  assert (HQ' : forall a b t i s, (pc :: cc :: rest).*2 !! i = Some a ->
                  (pc :: cc :: rest).*2 !! S i = Some b ->
                  uptime a <= t <= uptime b ->
                  interpolate a b t = Done s -> Q s).
  { rewrite EV. exact HQ. }
  assert (Hnone : Forall Q (take 0 (merged_init N)))
    by (rewrite take_0; constructor).
  assert (Hlen0 : List.length (merged_init N) = N)
    by (unfold merged_init; by rewrite length_replicate).
  destruct (decimation_loop_emits N h p1 p2 l1 l2 Hp1 Hp2 Hw1 Hw2 Q
              _ _ dest d fuel Hd m pc cc rest (merged_init N) 0%nat _ _
              Hpend Hread HQ' Hnone Hlen0 ltac:(lia) Hloop)
    as (merged2 & Hlen2 & HQ2 & Eh).
  assert (E : memmove_samples (data d) merged1 N
              = memmove_samples (data d) merged2 N).
  { apply (f_equal (fun g => data <$> g !! dest)) in Eh.
    rewrite !lookup_insert_eq in Eh. simpl in Eh. by injection Eh. }
  apply (f_equal (take N)) in E.
  rewrite !memmove_samples_take in E by lia.
  rewrite !take_ge in E by lia. by rewrite E.
Qed.

End EmittedPath.

Lemma merge_temperature_lists_decimation_path
    (N fuel : nat) (h : gmap Z temperature_list_t) (src1' src2' dest : ptr)
    (l1 l2 : temperature_list_t) :
  points_to h src1' l1 -> points_to h src2' l2 -> dest <> NULL ->
  (N < length l1 + length l2)%nat ->
  merge_temperature_lists N fuel h src1' src2' dest
  = merge_with_decimation N fuel h src1' src2' dest.
Proof.
  intros Hp1 Hp2 Hd Hover. unfold merge_temperature_lists.
  rewrite (points_to_not_null _ _ _ Hp1), (points_to_not_null _ _ _ Hp2).
  apply Z.eqb_neq in Hd. rewrite Hd. simpl.
  rewrite (read_list_points_to _ _ _ Hp1), (read_list_points_to _ _ _ Hp2).
  rewrite !bind_Done.
  by destruct (Nat.leb_spec (length l1 + length l2) N); [lia|].
Qed.

Lemma sorted_head_min (xs : list temperature_sample_t)
    (f x : temperature_sample_t) :
  Sorted by_uptime xs -> head xs = Some f -> x ∈ xs -> uptime f <= uptime x.
Proof.
  intros Hs Hf Hx.
  apply (Sorted_StronglySorted by_uptime_transitive) in Hs.
  destruct Hs as [|y ys Hs Hall]; [done|]. simpl in Hf. injection Hf as ->.
  apply elem_of_cons in Hx as [->|Hx]; [lia|].
  rewrite Forall_forall in Hall. by apply Hall.
Qed.

Lemma sorted_between_ends (xs : list temperature_sample_t)
    (f e x : temperature_sample_t) :
  Sorted by_uptime xs -> head xs = Some f -> last xs = Some e -> x ∈ xs ->
  uptime f <= uptime x <= uptime e.
Proof.
  intros Hs Hf He Hx. split; [by eapply sorted_head_min|].
  eapply sorted_last_max; [|done|done].
  by apply (Sorted_StronglySorted by_uptime_transitive).
Qed.

Lemma interpolate_typed (a b s : temperature_sample_t) (t : Z) :
  in_u32 t -> interpolate a b t = Done s -> typed_sample s.
Proof.
  intros Ht Es. split; [|by rewrite (interpolate_uptime _ _ _ _ Es)].
  revert Es. unfold interpolate.
  destruct (uptime a =? uptime b);
    [intros [= <-]; apply wrap_s16_in_s16|].
  cbv zeta. destruct (s16_of_f32 _); [|done|done].
  intros [= <-]. apply wrap_s16_in_s16.
Qed.

Lemma samples_decimated (d : temperature_list_t)
    (merged' : list temperature_sample_t) (N : nat) :
  List.length merged' = N ->
  samples {| data := memmove_samples (data d) merged' N; length := N |}
  = merged'.
Proof.
  intros Hlen. unfold samples. simpl. rewrite memmove_samples_take by lia.
  apply take_ge. lia.
Qed.

Lemma merge_by_lookup_elem (xs ys : list temperature_sample_t) (i : nat)
    (a : temperature_sample_t) :
  merge_by uptime xs ys !! i = Some a -> a ∈ xs ++ ys.
Proof.
  intros Ha. rewrite <- merge_by_perm. by eapply list_elem_of_lookup_2.
Qed.

(** X12.  Decimation does not overshoot: when the two sorted sources hold
    more than [N] samples together, all with values between [lo] and [hi],
    over a time span [end - start] below 2^24 minutes with
    [(hi - lo) * (end - start)] below 2^24, every one of the [N] samples
    that [merge_temperature_lists] stores has a value between [lo] and
    [hi]. *)
Theorem merge_temperature_lists_decimation_bounded
    (N fuel : nat) (h : gmap Z temperature_list_t) (src1' src2' dest : ptr)
    (l1 l2 d : temperature_list_t) (f1 f2 e1 e2 : temperature_sample_t)
    (lo hi : Z) :
  points_to h src1' l1 -> points_to h src2' l2 -> points_to h dest d ->
  wf_list N l1 -> wf_list N l2 ->
  (2 <= N)%nat -> Z.of_nat N < 2 ^ 32 ->
  Sorted by_uptime (samples l1) -> Sorted by_uptime (samples l2) ->
  (N < length l1 + length l2)%nat ->
  head (samples l1) = Some f1 -> head (samples l2) = Some f2 ->
  last (samples l1) = Some e1 -> last (samples l2) = Some e2 ->
  (N + length l1 + length l2 <= fuel)%nat ->
  let start := Z.min (uptime f1) (uptime f2) in
  let end_uptime := Z.max (uptime e1) (uptime e2) in
  Forall (fun x => lo <= temperature x <= hi) (samples l1 ++ samples l2) ->
  end_uptime - start < 2 ^ 24 ->
  (hi - lo) * (end_uptime - start) < 2 ^ 24 ->
  exists d',
    merge_temperature_lists N fuel h src1' src2' dest
      = Done (E_SUCCESS, <[dest := d']> h) /\
    length d' = N /\
    List.length (samples d') = N /\
    Forall (fun x => lo <= temperature x <= hi) (samples d').
Proof.
  intros Hp1 Hp2 Hd Hw1 Hw2 HN HN32 Hs1 Hs2 Htotal Hf1 Hf2 He1 He2 Hfuel
         start end_uptime Hval Hspan Hprod.
  rewrite Forall_forall in Hval.
  assert (Hin : forall x, x ∈ samples l1 ++ samples l2 ->
            typed_sample x /\ start <= uptime x <= end_uptime).
  { intros x Hx. apply elem_of_app in Hx as [Hx|Hx].
    - split; [by apply (samples_typed N l1)|].
      pose proof (sorted_between_ends _ f1 e1 x Hs1 Hf1 He1 Hx).
      unfold start, end_uptime. lia.
    - split; [by apply (samples_typed N l2)|].
      pose proof (sorted_between_ends _ f2 e2 x Hs2 Hf2 He2 Hx).
      unfold start, end_uptime. lia. }
  destruct (merge_with_decimation_emitted N h src1' src2' l1 l2
              Hp1 Hp2 Hw1 Hw2 HN HN32 f1 f2 e1 e2 Hf1 Hf2 He1 He2 Hs1 Hs2
              (fun x => lo <= temperature x <= hi) fuel dest d)
    as (merged' & _ & Hlen & _ & HQ & Hrun); [|done|done|].
  { intros a b t i s Ha Hb Ht Es.
    apply merge_by_lookup_elem in Ha, Hb.
    destruct (Hin a Ha) as [Hta Hua], (Hin b Hb) as [Htb Hub].
    pose proof (Hval a Ha) as Va. pose proof (Hval b Hb) as Vb.
    simpl in Va, Vb.
    destruct (interpolate_within a b t) as (s' & Es' & _ & Hbetween);
      [done|done|done|lia| |].
    - assert (Z.abs (temperature b - temperature a) <= hi - lo) by lia.
      pose proof (Z.abs_nonneg (temperature b - temperature a)). nia.
    - assert (s' = s) as -> by congruence. lia. }
  eexists. split.
  { rewrite (merge_temperature_lists_decimation_path N fuel h src1' src2' dest
               l1 l2) by (done || apply Hd).
    exact Hrun. }
  rewrite samples_decimated by done. done.
Qed.

Lemma merge_temperature_lists_decimation_bounded_witness :
  let l1 := {| data := [ {| temperature := 160; uptime := 0 |};
                         {| temperature := 480; uptime := 30 |};
                         {| temperature := 320; uptime := 90 |} ];
               length := 3 |} in
  let l2 := {| data := [ {| temperature := 200; uptime := 10 |};
                         {| temperature := 400; uptime := 50 |};
                         zero_sample ];
               length := 2 |} in
  let d := {| data := replicate 3 zero_sample; length := 0 |} in
  let h : gmap Z temperature_list_t := <[16 := l1]> (<[32 := l2]> (<[48 := d]> ∅)) in
  let f1 := {| temperature := 160; uptime := 0 |} in
  let f2 := {| temperature := 200; uptime := 10 |} in
  let e1 := {| temperature := 320; uptime := 90 |} in
  let e2 := {| temperature := 400; uptime := 50 |} in
  points_to h 16 l1 /\ points_to h 32 l2 /\ points_to h 48 d /\
  wf_list 3 l1 /\ wf_list 3 l2 /\ (2 <= 3)%nat /\ Z.of_nat 3 < 2 ^ 32 /\
  Sorted by_uptime (samples l1) /\ Sorted by_uptime (samples l2) /\
  (3 < length l1 + length l2)%nat /\
  head (samples l1) = Some f1 /\ head (samples l2) = Some f2 /\
  last (samples l1) = Some e1 /\ last (samples l2) = Some e2 /\
  (3 + length l1 + length l2 <= 8)%nat /\
  let start := Z.min (uptime f1) (uptime f2) in
  let end_uptime := Z.max (uptime e1) (uptime e2) in
  Forall (fun x => 160 <= temperature x <= 480) (samples l1 ++ samples l2) /\
  end_uptime - start < 2 ^ 24 /\
  (480 - 160) * (end_uptime - start) < 2 ^ 24 /\
  exists d',
    merge_temperature_lists 3 8 h 16 32 48 = Done (E_SUCCESS, <[48 := d']> h) /\
    length d' = 3%nat /\
    List.length (samples d') = 3%nat /\
    Forall (fun x => 160 <= temperature x <= 480) (samples d').
Proof.
  intros l1 l2 d h f1 f2 e1 e2.
  assert (Hp1 : points_to h 16 l1) by (split; [discriminate | reflexivity]).
  assert (Hp2 : points_to h 32 l2) by (split; [discriminate | reflexivity]).
  assert (Hd : points_to h 48 d) by (split; [discriminate | reflexivity]).
  assert (Hw1 : wf_list 3 l1).
  { split; [reflexivity|]. split; [simpl; lia|].
    repeat constructor; simpl; lia. }
  assert (Hw2 : wf_list 3 l2).
  { split; [reflexivity|]. split; [simpl; lia|].
    repeat constructor; simpl; lia. }
  assert (HN : (2 <= 3)%nat) by lia.
  assert (HN32 : Z.of_nat 3 < 2 ^ 32) by (simpl; lia).
  assert (Hs1 : Sorted by_uptime (samples l1)).
  { repeat constructor; unfold by_uptime; simpl; lia. }
  assert (Hs2 : Sorted by_uptime (samples l2)).
  { repeat constructor; unfold by_uptime; simpl; lia. }
  assert (Htotal : (3 < length l1 + length l2)%nat) by (simpl; lia).
  assert (Hf1 : head (samples l1) = Some f1) by reflexivity.
  assert (Hf2 : head (samples l2) = Some f2) by reflexivity.
  assert (He1 : last (samples l1) = Some e1) by reflexivity.
  assert (He2 : last (samples l2) = Some e2) by reflexivity.
  assert (Hfuel : (3 + length l1 + length l2 <= 8)%nat) by (simpl; lia).
  do 15 (split; [assumption|]).
  intros start end_uptime.
  assert (Hval : Forall (fun x => 160 <= temperature x <= 480)
                        (samples l1 ++ samples l2))
    by (repeat constructor; simpl; lia).
  assert (Hspan : end_uptime - start < 2 ^ 24) by reflexivity.
  assert (Hprod : (480 - 160) * (end_uptime - start) < 2 ^ 24) by reflexivity.
  do 3 (split; [assumption|]).
  exact (merge_temperature_lists_decimation_bounded 3 8 h 16 32 48 l1 l2 d
           f1 f2 e1 e2 160 480
           Hp1 Hp2 Hd Hw1 Hw2 HN HN32 Hs1 Hs2 Htotal Hf1 Hf2 He1 He2 Hfuel
           Hval Hspan Hprod).
Defined.

(** The decimation path stores, at each index, the interpolation between
    two neighbours of the merged sources at the target of that index. *)
Lemma merge_temperature_lists_decimation_stored
    (N fuel : nat) (h : gmap Z temperature_list_t) (src1' src2' dest : ptr)
    (l1 l2 d : temperature_list_t) (f1 f2 e1 e2 : temperature_sample_t) :
  points_to h src1' l1 -> points_to h src2' l2 -> points_to h dest d ->
  wf_list N l1 -> wf_list N l2 ->
  (2 <= N)%nat -> Z.of_nat N < 2 ^ 32 ->
  Sorted by_uptime (samples l1) -> Sorted by_uptime (samples l2) ->
  (N < length l1 + length l2)%nat ->
  head (samples l1) = Some f1 -> head (samples l2) = Some f2 ->
  last (samples l1) = Some e1 -> last (samples l2) = Some e2 ->
  (N + length l1 + length l2 <= fuel)%nat ->
  let start := Z.min (uptime f1) (uptime f2) in
  let end_uptime := Z.max (uptime e1) (uptime e2) in
  let base_period := (end_uptime - start) / (Z.of_nat N - 1) in
  let remainder := (end_uptime - start) mod (Z.of_nat N - 1) in
  let merged := merge_by uptime (samples l1) (samples l2) in
  exists d',
    merge_temperature_lists N fuel h src1' src2' dest
      = Done (E_SUCCESS, <[dest := d']> h) /\
    forall k, (k < N)%nat ->
      let t := target start base_period remainder k in
      exists a b i s,
        merged !! i = Some a /\ merged !! S i = Some b /\
        uptime a <= t <= uptime b /\
        interpolate a b t = Done s /\
        samples d' !! k = Some s.
Proof.
  intros Hp1 Hp2 Hd Hw1 Hw2 HN HN32 Hs1 Hs2 Htotal Hf1 Hf2 He1 He2 Hfuel
         start end_uptime base_period remainder merged.
  destruct (merge_with_decimation_emitted N h src1' src2' l1 l2
              Hp1 Hp2 Hw1 Hw2 HN HN32 f1 f2 e1 e2 Hf1 Hf2 He1 He2 Hs1 Hs2
              (fun s => exists a b i,
                 merged !! i = Some a /\ merged !! S i = Some b /\
                 uptime a <= uptime s <= uptime b /\
                 interpolate a b (uptime s) = Done s)
              fuel dest d)
    as (merged' & _ & Hlen & Htargets & HQ & Hrun); [|done|done|].
  { intros a b t i s Ha Hb Ht Es. exists a, b, i.
    rewrite (interpolate_uptime _ _ _ _ Es). done. }
  fold start end_uptime base_period remainder in Htargets.
  eexists. split.
  { rewrite (merge_temperature_lists_decimation_path N fuel h src1' src2' dest
               l1 l2) by (done || apply Hd).
    exact Hrun. }
  rewrite samples_decimated by done. intros k Hk t.
  destruct (lookup_lt_is_Some_2 merged' k ltac:(lia)) as [s Hs].
  specialize (Htargets k Hk). rewrite Hs in Htargets. simpl in Htargets.
  injection Htargets as Ht. fold t in Ht.
  rewrite Forall_forall in HQ.
  destruct (HQ s (list_elem_of_lookup_2 _ _ _ Hs))
    as (a & b & i & Ha & Hb & Hbetween & Es).
  rewrite Ht in Hbetween, Es. exists a, b, i, s. done.
Qed.

(** X13.  What decimation stores: when the two sorted sources hold more
    than [N] samples together, the [k]-th sample that
    [merge_temperature_lists] stores is the result of [interpolate a b t]
    for the [k]-th target timestamp [t] and two neighbouring samples [a],
    [b] of the merged sources, in this order, whose timestamps enclose
    [t].  No stored sample thus comes from a call of [interpolate] with
    the later sample first. *)
Theorem merge_temperature_lists_decimation_values
    (N fuel : nat) (h : gmap Z temperature_list_t) (src1' src2' dest : ptr)
    (l1 l2 d : temperature_list_t) (f1 f2 e1 e2 : temperature_sample_t) :
  points_to h src1' l1 -> points_to h src2' l2 -> points_to h dest d ->
  wf_list N l1 -> wf_list N l2 ->
  (2 <= N)%nat -> Z.of_nat N < 2 ^ 32 ->
  Sorted by_uptime (samples l1) -> Sorted by_uptime (samples l2) ->
  (N < length l1 + length l2)%nat ->
  head (samples l1) = Some f1 -> head (samples l2) = Some f2 ->
  last (samples l1) = Some e1 -> last (samples l2) = Some e2 ->
  (N + length l1 + length l2 <= fuel)%nat ->
  let start := Z.min (uptime f1) (uptime f2) in
  let end_uptime := Z.max (uptime e1) (uptime e2) in
  let base_period := (end_uptime - start) / (Z.of_nat N - 1) in
  let remainder := (end_uptime - start) mod (Z.of_nat N - 1) in
  let merged := merge_by uptime (samples l1) (samples l2) in
  exists d',
    merge_temperature_lists N fuel h src1' src2' dest
      = Done (E_SUCCESS, <[dest := d']> h) /\
    forall k, (k < N)%nat ->
      let t := target start base_period remainder k in
      exists a b i s,
        merged !! i = Some a /\ merged !! S i = Some b /\
        uptime a <= t <= uptime b /\
        interpolate a b t = Done s /\
        samples d' !! k = Some s.
Proof. apply merge_temperature_lists_decimation_stored. Qed.

Lemma merge_temperature_lists_decimation_values_witness :
  let l1 := {| data := [ {| temperature := 160; uptime := 0 |};
                         {| temperature := 480; uptime := 30 |};
                         {| temperature := 320; uptime := 90 |} ];
               length := 3 |} in
  let l2 := {| data := [ {| temperature := 200; uptime := 10 |};
                         {| temperature := 400; uptime := 50 |};
                         zero_sample ];
               length := 2 |} in
  let d := {| data := replicate 3 zero_sample; length := 0 |} in
  let h : gmap Z temperature_list_t := <[16 := l1]> (<[32 := l2]> (<[48 := d]> ∅)) in
  let f1 := {| temperature := 160; uptime := 0 |} in
  let f2 := {| temperature := 200; uptime := 10 |} in
  let e1 := {| temperature := 320; uptime := 90 |} in
  let e2 := {| temperature := 400; uptime := 50 |} in
  points_to h 16 l1 /\ points_to h 32 l2 /\ points_to h 48 d /\
  wf_list 3 l1 /\ wf_list 3 l2 /\ (2 <= 3)%nat /\ Z.of_nat 3 < 2 ^ 32 /\
  Sorted by_uptime (samples l1) /\ Sorted by_uptime (samples l2) /\
  (3 < length l1 + length l2)%nat /\
  head (samples l1) = Some f1 /\ head (samples l2) = Some f2 /\
  last (samples l1) = Some e1 /\ last (samples l2) = Some e2 /\
  (3 + length l1 + length l2 <= 8)%nat /\
  let start := Z.min (uptime f1) (uptime f2) in
  let end_uptime := Z.max (uptime e1) (uptime e2) in
  let base_period := (end_uptime - start) / (Z.of_nat 3 - 1) in
  let remainder := (end_uptime - start) mod (Z.of_nat 3 - 1) in
  let merged := merge_by uptime (samples l1) (samples l2) in
  exists d',
    merge_temperature_lists 3 8 h 16 32 48 = Done (E_SUCCESS, <[48 := d']> h) /\
    forall k, (k < 3)%nat ->
      let t := target start base_period remainder k in
      exists a b i s,
        merged !! i = Some a /\ merged !! S i = Some b /\
        uptime a <= t <= uptime b /\
        interpolate a b t = Done s /\
        samples d' !! k = Some s.
Proof.
  intros l1 l2 d h f1 f2 e1 e2.
  assert (Hp1 : points_to h 16 l1) by (split; [discriminate | reflexivity]).
  assert (Hp2 : points_to h 32 l2) by (split; [discriminate | reflexivity]).
  assert (Hd : points_to h 48 d) by (split; [discriminate | reflexivity]).
  assert (Hw1 : wf_list 3 l1).
  { split; [reflexivity|]. split; [simpl; lia|].
    repeat constructor; simpl; lia. }
  assert (Hw2 : wf_list 3 l2).
  { split; [reflexivity|]. split; [simpl; lia|].
    repeat constructor; simpl; lia. }
  assert (HN : (2 <= 3)%nat) by lia.
  assert (HN32 : Z.of_nat 3 < 2 ^ 32) by (simpl; lia).
  assert (Hs1 : Sorted by_uptime (samples l1)).
  { repeat constructor; unfold by_uptime; simpl; lia. }
  assert (Hs2 : Sorted by_uptime (samples l2)).
  { repeat constructor; unfold by_uptime; simpl; lia. }
  assert (Htotal : (3 < length l1 + length l2)%nat) by (simpl; lia).
  assert (Hf1 : head (samples l1) = Some f1) by reflexivity.
  assert (Hf2 : head (samples l2) = Some f2) by reflexivity.
  assert (He1 : last (samples l1) = Some e1) by reflexivity.
  assert (He2 : last (samples l2) = Some e2) by reflexivity.
  assert (Hfuel : (3 + length l1 + length l2 <= 8)%nat) by (simpl; lia).
  do 15 (split; [assumption|]).
  exact (merge_temperature_lists_decimation_values 3 8 h 16 32 48 l1 l2 d
           f1 f2 e1 e2
           Hp1 Hp2 Hd Hw1 Hw2 HN HN32 Hs1 Hs2 Htotal Hf1 Hf2 He1 He2 Hfuel).
Defined.

(** Both paths keep the destination well-formed and sorted. *)
Lemma merge_temperature_lists_wf_sorted
    (N fuel : nat) (h : gmap Z temperature_list_t) (src1' src2' dest : ptr)
    (l1 l2 d : temperature_list_t) :
  points_to h src1' l1 -> points_to h src2' l2 -> points_to h dest d ->
  wf_list N l1 -> wf_list N l2 -> wf_list N d ->
  (2 <= N)%nat -> Z.of_nat N < 2 ^ 32 ->
  Sorted by_uptime (samples l1) -> Sorted by_uptime (samples l2) ->
  (N + length l1 + length l2 <= fuel)%nat ->
  exists d',
    merge_temperature_lists N fuel h src1' src2' dest
      = Done (E_SUCCESS, <[dest := d']> h) /\
    wf_list N d' /\
    Sorted by_uptime (samples d') /\
    length d' = ((length l1 + length l2) `min` N)%nat /\
    drop (length d') (data d') = drop (length d') (data d).
Proof.
  intros Hp1 Hp2 Hd Hw1 Hw2 Hwd HN HN32 Hs1 Hs2 Hfuel.
  pose proof Hwd as (Hdlen & _ & Hdty).
  destruct (Nat.leb_spec (length l1 + length l2) N) as [Hroom|Hover].
  - destruct (merge_temperature_lists_exact_samples N fuel h src1' src2' dest
                l1 l2 d Hp1 Hp2 Hd Hw1 Hw2 Hroom ltac:(lia))
      as (d' & Hrun & Hlen & Hsam & Hdrop & Hdata).
    exists d'. split; [done|].
    assert (Hty : Forall typed_sample (samples d')).
    { rewrite Hsam. apply merge_by_Forall; apply Forall_forall; intros x Hx.
      - by apply (samples_typed N l1).
      - by apply (samples_typed N l2). }
    assert (Hslen : List.length (samples d') = (length l1 + length l2)%nat).
    { by rewrite Hsam, merge_by_length, !(samples_length N). }
    split; [|split; [|split; [lia|done]]].
    + split; [|split].
      * rewrite Hdata, length_app, length_drop, Hslen. lia.
      * lia.
      * rewrite Hdata. apply Forall_app. split; [done|]. by apply Forall_drop.
    + rewrite Hsam. by apply merge_by_uptime_sorted.
  - assert (Hn1 : (0 < length l1)%nat) by (destruct Hw2 as (_ & ? & _); lia).
    assert (Hn2 : (0 < length l2)%nat) by (destruct Hw1 as (_ & ? & _); lia).
    destruct (nonempty_head_last N l1 Hw1 Hn1) as (f1 & e1 & Hf1 & He1).
    destruct (nonempty_head_last N l2 Hw2 Hn2) as (f2 & e2 & Hf2 & He2).
    set (start := Z.min (uptime f1) (uptime f2)).
    set (end_uptime := Z.max (uptime e1) (uptime e2)).
    assert (Hin : forall x, x ∈ samples l1 ++ samples l2 -> typed_sample x).
    { intros x Hx. apply elem_of_app in Hx as [Hx|Hx].
      - by apply (samples_typed N l1).
      - by apply (samples_typed N l2). }
    destruct (merge_with_decimation_emitted N h src1' src2' l1 l2
                Hp1 Hp2 Hw1 Hw2 HN HN32 f1 f2 e1 e2 Hf1 Hf2 He1 He2 Hs1 Hs2
                typed_sample fuel dest d)
      as (merged' & Hle & Hlen & Htargets & HQ & Hrun); [|done|done|].
    { intros a b t i s Ha Hb Ht Es. apply (interpolate_typed a b s t); [|done].
      apply merge_by_lookup_elem in Ha, Hb.
      destruct (Hin a Ha) as [_ Hua], (Hin b Hb) as [_ Hub].
      unfold in_u32 in *. lia. }
    fold start end_uptime in Hle, Htargets.
    eexists. split.
    { rewrite (merge_temperature_lists_decimation_path N fuel h src1' src2'
                 dest l1 l2) by (done || apply Hd).
      exact Hrun. }
    rewrite samples_decimated by done. simpl.
    split; [|split; [|split; [lia|apply memmove_samples_drop; lia]]].
    + split; [|split]; simpl.
      * rewrite memmove_samples_length; lia.
      * lia.
      * unfold memmove_samples. apply Forall_app.
        split; [by apply Forall_take|by apply Forall_drop].
    + set (base := (end_uptime - start) / (Z.of_nat N - 1)) in *.
      set (long := (end_uptime - start) mod (Z.of_nat N - 1)) in *.
      apply (sorted_by_lookup merged' (target start base long)).
      * intros k x Hx.
        assert (k < N)%nat by (rewrite <- Hlen; by eapply lookup_lt_Some).
        specialize (Htargets k ltac:(done)). rewrite Hx in Htargets.
        by injection Htargets.
      * intros k. apply target_mono; [|lia]. apply Z.div_pos; lia.
Qed.

(** X14.  Compaction keeps the representation invariant, so that its
    result can be a source of the next compaction: for well-formed sources
    with non-decreasing timestamps and a well-formed destination (which may
    be one of the sources), [merge_temperature_lists] succeeds and the
    destination is again well-formed -- [N] cells of the right types,
    [length <= N] -- with non-decreasing timestamps, holding
    [min (length1 + length2) N] samples; the cells behind them and every
    other list object are as before. *)
Theorem merge_temperature_lists_keeps_invariant
    (N fuel : nat) (h : gmap Z temperature_list_t) (src1' src2' dest : ptr)
    (l1 l2 d : temperature_list_t) :
  points_to h src1' l1 -> points_to h src2' l2 -> points_to h dest d ->
  wf_list N l1 -> wf_list N l2 -> wf_list N d ->
  (2 <= N)%nat -> Z.of_nat N < 2 ^ 32 ->
  Sorted by_uptime (samples l1) -> Sorted by_uptime (samples l2) ->
  (N + length l1 + length l2 <= fuel)%nat ->
  exists d',
    merge_temperature_lists N fuel h src1' src2' dest
      = Done (E_SUCCESS, <[dest := d']> h) /\
    wf_list N d' /\
    Sorted by_uptime (samples d') /\
    length d' = ((length l1 + length l2) `min` N)%nat /\
    drop (length d') (data d') = drop (length d') (data d).
Proof. apply merge_temperature_lists_wf_sorted. Qed.

Lemma merge_temperature_lists_keeps_invariant_witness :
  let l1 := {| data := [ {| temperature := 160; uptime := 0 |};
                         {| temperature := 480; uptime := 30 |};
                         {| temperature := 320; uptime := 90 |} ];
               length := 3 |} in
  let l2 := {| data := [ {| temperature := 200; uptime := 10 |};
                         {| temperature := 400; uptime := 50 |};
                         zero_sample ];
               length := 2 |} in
  let h : gmap Z temperature_list_t := <[16 := l1]> (<[32 := l2]> ∅) in
  points_to h 16 l1 /\ points_to h 32 l2 /\ points_to h 32 l2 /\
  wf_list 3 l1 /\ wf_list 3 l2 /\ wf_list 3 l2 /\
  (2 <= 3)%nat /\ Z.of_nat 3 < 2 ^ 32 /\
  Sorted by_uptime (samples l1) /\ Sorted by_uptime (samples l2) /\
  (3 + length l1 + length l2 <= 8)%nat /\
  exists d',
    merge_temperature_lists 3 8 h 16 32 32 = Done (E_SUCCESS, <[32 := d']> h) /\
    wf_list 3 d' /\
    Sorted by_uptime (samples d') /\
    length d' = ((length l1 + length l2) `min` 3)%nat /\
    drop (length d') (data d') = drop (length d') (data l2).
Proof.
  intros l1 l2 h.
  assert (Hp1 : points_to h 16 l1) by (split; [discriminate | reflexivity]).
  assert (Hp2 : points_to h 32 l2) by (split; [discriminate | reflexivity]).
  assert (Hw1 : wf_list 3 l1).
  { split; [reflexivity|]. split; [simpl; lia|].
    repeat constructor; simpl; lia. }
  assert (Hw2 : wf_list 3 l2).
  { split; [reflexivity|]. split; [simpl; lia|].
    repeat constructor; simpl; lia. }
  assert (HN : (2 <= 3)%nat) by lia.
  assert (HN32 : Z.of_nat 3 < 2 ^ 32) by (simpl; lia).
  assert (Hs1 : Sorted by_uptime (samples l1)).
  { repeat constructor; unfold by_uptime; simpl; lia. }
  assert (Hs2 : Sorted by_uptime (samples l2)).
  { repeat constructor; unfold by_uptime; simpl; lia. }
  assert (Hfuel : (3 + length l1 + length l2 <= 8)%nat) by (simpl; lia).
  do 11 (split; [assumption|]).
  exact (merge_temperature_lists_keeps_invariant 3 8 h 16 32 32 l1 l2 l2
           Hp1 Hp2 Hp2 Hw1 Hw2 Hw2 HN HN32 Hs1 Hs2 Hfuel).
Defined.

(** ** More on the ordered multi-lock *)

(** X15.  [DOUBLE_LOCK] takes the mutex with the smaller address first and
    [DOUBLE_UNLOCK] gives the two back in the reverse order, in whatever
    order the two are passed. *)
Theorem DOUBLE_LOCK_ascending (lock1 lock2 : Z) :
  Lock.DOUBLE_LOCK lock1 lock2
  = [Lock.k_mutex_lock (Z.min lock1 lock2);
     Lock.k_mutex_lock (Z.max lock1 lock2)] /\
  Lock.DOUBLE_UNLOCK lock1 lock2
  = [Lock.k_mutex_unlock (Z.max lock1 lock2);
     Lock.k_mutex_unlock (Z.min lock1 lock2)] /\
  Lock.DOUBLE_LOCK lock1 lock2 = Lock.DOUBLE_LOCK lock2 lock1 /\
  Lock.DOUBLE_UNLOCK lock1 lock2 = Lock.DOUBLE_UNLOCK lock2 lock1.
Proof.
  unfold Lock.DOUBLE_LOCK, Lock.DOUBLE_UNLOCK.
  destruct (Z.ltb_spec lock1 lock2), (Z.ltb_spec lock2 lock1); try lia;
    rewrite ?Z.min_l, ?Z.max_r by lia;
    rewrite ?Z.min_r, ?Z.max_l by lia;
    repeat split; try reflexivity;
    assert (lock1 = lock2) as -> by lia; reflexivity.
Qed.

Ltac order_locks :=
  unfold Lock.TRIPLE_LOCK, Lock.TRIPLE_UNLOCK, Lock.DOUBLE_LOCK,
         Lock.DOUBLE_UNLOCK, Lock.bubble_sort, Lock.compare_swap; simpl;
  repeat match goal with
         | |- context [?u >? ?v] => destruct (Z.gtb_spec u v); simpl
         | |- context [?u <? ?v] => destruct (Z.ltb_spec u v); simpl
         end.

(** X16.  The two macros agree on one order: the two mutexes that
    [DOUBLE_LOCK] takes are taken in the same relative order by
    [TRIPLE_LOCK] whenever they are among its three arguments, in any
    position and with any third mutex. *)
Theorem DOUBLE_LOCK_within_TRIPLE_LOCK (lock1 lock2 lock3 : Z) :
  Lock.DOUBLE_LOCK lock1 lock2 `sublist_of` Lock.TRIPLE_LOCK lock1 lock2 lock3 /\
  Lock.DOUBLE_LOCK lock1 lock2 `sublist_of` Lock.TRIPLE_LOCK lock1 lock3 lock2 /\
  Lock.DOUBLE_LOCK lock1 lock2 `sublist_of` Lock.TRIPLE_LOCK lock3 lock1 lock2 /\
  Lock.DOUBLE_LOCK lock1 lock2 `sublist_of` Lock.TRIPLE_LOCK lock2 lock1 lock3 /\
  Lock.DOUBLE_LOCK lock1 lock2 `sublist_of` Lock.TRIPLE_LOCK lock2 lock3 lock1 /\
  Lock.DOUBLE_LOCK lock1 lock2 `sublist_of` Lock.TRIPLE_LOCK lock3 lock2 lock1.
Proof.
  destruct (Z.eq_dec lock1 lock2) as [->|H12];
    destruct (Z.eq_dec lock2 lock3) as [->|H23];
    try destruct (Z.eq_dec lock1 lock3) as [->|H13];
    repeat split; order_locks;
    first [ exfalso; lia
          | solve [repeat first [ apply sublist_nil
                                | apply sublist_skip
                                | apply sublist_cons ]] ].
Qed.

(** X17.  [TRIPLE_LOCK] with repeated arguments, as when the destination
    of a merge is one of its sources: for any three addresses the mutexes
    are taken in non-decreasing order of address, a mutex passed twice
    being taken twice in a row, and [TRIPLE_UNLOCK] gives back exactly the
    mutexes taken, last taken first. *)
Theorem TRIPLE_LOCK_balanced (lock1 lock2 lock3 : Z) :
  exists l0 l1 l2,
    Lock.TRIPLE_LOCK lock1 lock2 lock3
    = [Lock.k_mutex_lock l0; Lock.k_mutex_lock l1; Lock.k_mutex_lock l2] /\
    Lock.TRIPLE_UNLOCK lock1 lock2 lock3
    = [Lock.k_mutex_unlock l2; Lock.k_mutex_unlock l1;
       Lock.k_mutex_unlock l0] /\
    l0 <= l1 <= l2 /\
    [l0; l1; l2] ≡ₚ [lock1; lock2; lock3].
Proof.
  destruct (bubble_sort_three lock1 lock2 lock3)
    as (x & y & z & E & Hord & Hperm).
  exists x, y, z. unfold Lock.TRIPLE_LOCK, Lock.TRIPLE_UNLOCK. rewrite E.
  done.
Qed.

(** ** The clock and the sensor *)

(** X18.  For an uptime that has not reached 2^32 minutes,
    [get_uptime_in_minutes] is the number of whole minutes,
    [milliseconds / 60000], and it never runs backwards: a later reading of
    the millisecond clock gives a timestamp that is not smaller. *)
Theorem get_uptime_in_minutes_monotone (io io' : sensor_io) :
  0 <= k_uptime_get io <= k_uptime_get io' ->
  k_uptime_get io' < 60000 * 2 ^ 32 ->
  get_uptime_in_minutes io = k_uptime_get io / 60000 /\
  in_u32 (get_uptime_in_minutes io) /\
  get_uptime_in_minutes io <= get_uptime_in_minutes io'.
Proof.
  intros Hle Hmax.
  assert (Hmin : forall ms, 0 <= ms < 60000 * 2 ^ 32 ->
            wrap_u32 (ms ÷ 1000 ÷ 60) = ms / 60000 /\ in_u32 (ms / 60000)).
  { intros ms Hms.
    assert (0 <= ms / 1000) by (apply Z.div_pos; lia).
    rewrite (Z.quot_div_nonneg ms) by lia.
    rewrite Z.quot_div_nonneg by lia.
    rewrite Z.div_div by lia. change (1000 * 60) with 60000.
    assert (in_u32 (ms / 60000)).
    { unfold in_u32. split; [apply Z.div_pos; lia|].
      apply Z.div_lt_upper_bound; lia. }
    split; [by apply wrap_u32_id|done]. }
  unfold get_uptime_in_minutes.
  destruct (Hmin (k_uptime_get io) ltac:(lia)) as [-> ?].
  destruct (Hmin (k_uptime_get io') ltac:(lia)) as [-> ?].
  split; [done|]. split; [done|]. apply Z.div_le_mono; lia.
Qed.

Lemma get_uptime_in_minutes_monotone_witness :
  let io := {| sensor_sample_fetch := 0; k_uptime_get := 119999;
               sensor_channel_get := (0, {| val1 := 21; val2 := 500000 |}) |} in
  let io' := {| sensor_sample_fetch := 0; k_uptime_get := 120000;
                sensor_channel_get := (0, {| val1 := 21; val2 := 500000 |}) |} in
  0 <= k_uptime_get io <= k_uptime_get io' /\
  k_uptime_get io' < 60000 * 2 ^ 32 /\
  get_uptime_in_minutes io = k_uptime_get io / 60000 /\
  in_u32 (get_uptime_in_minutes io) /\
  get_uptime_in_minutes io <= get_uptime_in_minutes io'.
Proof.
  intros io io'.
  assert (Hle : 0 <= k_uptime_get io <= k_uptime_get io') by (simpl; lia).
  assert (Hmax : k_uptime_get io' < 60000 * 2 ^ 32) by reflexivity.
  do 2 (split; [assumption|]).
  exact (get_uptime_in_minutes_monotone io io' Hle Hmax).
Defined.

Lemma forallb_Z_range (lo : Z) (n : nat) (f : Z -> bool) :
  forallb f (map (fun i => lo + Z.of_nat i) (seq 0 n)) = true ->
  forall z, lo <= z < lo + Z.of_nat n -> f z = true.
Proof.
  intros H z Hz. rewrite List.forallb_forall in H. apply H.
  apply in_map_iff. exists (Z.to_nat (z - lo)).
  split; [lia|]. apply in_seq. lia.
Qed.

(** X19.  Readings of the DS18B20 convert without error: over the
    measuring range of the sensor, -55 to 125 degrees, a reading of
    [val1] whole degrees and [j] sixteenths, that is
    [val2 = 62500 * j] millionths, becomes [16 * val1 + j]; the
    single-precision arithmetic loses nothing on these values. *)
Theorem sensor_value_to_temperature_sixteenths (whole j : Z) :
  -55 <= whole <= 125 -> -15 <= j <= 15 ->
  sensor_value_to_temperature {| val1 := whole; val2 := 62500 * j |}
  = Done (16 * whole + j).
Proof.
  intros Hw Hj.
  assert (Hall :
    forallb (fun v1 =>
      forallb (fun j =>
        match sensor_value_to_temperature {| val1 := v1; val2 := 62500 * j |}
        with
        | Done z => z =? 16 * v1 + j
        | _ => false
        end)
        (map (fun i => -15 + Z.of_nat i) (seq 0 31)))
      (map (fun i => -55 + Z.of_nat i) (seq 0 181)) = true)
    by (vm_compute; reflexivity).
  pose proof (forallb_Z_range _ _ _ Hall whole ltac:(lia)) as Hrow.
  cbv beta in Hrow.
  pose proof (forallb_Z_range _ _ _ Hrow j ltac:(lia)) as Hcell.
  cbv beta in Hcell.
  destruct (sensor_value_to_temperature _) as [z| |]; [|done|done].
  apply Z.eqb_eq in Hcell. by subst z.
Qed.

Lemma sensor_value_to_temperature_sixteenths_witness :
  -55 <= -10 <= 125 /\ -15 <= -1 <= 15 /\
  sensor_value_to_temperature {| val1 := -10; val2 := 62500 * -1 |}
  = Done (16 * -10 + -1).
Proof.
  assert (Hw : -55 <= -10 <= 125) by lia.
  assert (Hj : -15 <= -1 <= 15) by lia.
  do 2 (split; [assumption|]).
  exact (sensor_value_to_temperature_sixteenths (-10) (-1) Hw Hj).
Defined.

(** X20.  The two revisions of [interpolate] compute the same sample:
    with the target timestamp stored in [result->uptime] beforehand, the
    revision that writes through [result] has a result exactly when the
    other revision has one, and then returns [E_SUCCESS] and leaves in
    [*result] what the other revision returns by value; a [NULL] argument
    gives [E_NULL_PTR] and leaves [*result] alone. *)
Theorem Revised_interpolate_agrees (t1 t2 result : temperature_sample_t) :
  Revised.interpolate (Some t1) (Some t2) (Some result)
  = (s ← interpolate t1 t2 (uptime result); Done (E_SUCCESS, Some s)) /\
  Revised.interpolate None (Some t2) (Some result)
  = Done (E_NULL_PTR, Some result) /\
  Revised.interpolate (Some t1) None (Some result)
  = Done (E_NULL_PTR, Some result) /\
  Revised.interpolate (Some t1) (Some t2) None = Done (E_NULL_PTR, None).
Proof.
  unfold Revised.interpolate, interpolate.
  destruct (uptime t1 =? uptime t2); [done|]. cbv zeta.
  by destruct (s16_of_f32 _).
Qed.

(** ** The sampling task *)

Lemma get_temperature_sample_ok (io : sensor_io) (t : temperature_sample_t) :
  sensor_sample_fetch io = 0 -> (sensor_channel_get io).1 = 0 ->
  get_temperature_sample io (Some t)
  = (v ← sensor_value_to_temperature (sensor_channel_get io).2;
     Done (E_SUCCESS,
           Some {| temperature := v; uptime := get_uptime_in_minutes io |})).
Proof.
  intros Hf Hc. unfold get_temperature_sample. rewrite Hf. simpl.
  destruct (sensor_channel_get io) as [rc reading]. simpl in Hc.
  by rewrite Hc.
Qed.

Lemma get_temperature_sample_failed (io : sensor_io) (t : temperature_sample_t) :
  sensor_sample_fetch io <> 0 \/ (sensor_channel_get io).1 <> 0 ->
  get_temperature_sample io (Some t)
  = Done (E_ERROR,
          Some {| temperature := temperature t;
                  uptime := get_uptime_in_minutes io |}).
Proof.
  intros Hfail. unfold get_temperature_sample.
  destruct (Z.eqb_spec (sensor_sample_fetch io) 0) as [Hf|Hf]; simpl; [|done].
  destruct (sensor_channel_get io) as [rc reading]. simpl in Hfail.
  destruct (Z.eqb_spec rc 0) as [Hc|Hc]; simpl; [|done].
  destruct Hfail; done.
Qed.

Lemma reset_temperature_list_points_to (N : nat)
    (h : gmap Z temperature_list_t) (t : ptr) (l : temperature_list_t) :
  points_to h t l ->
  reset_temperature_list N h t
  = Done (E_SUCCESS,
          <[t := {| data := replicate N zero_sample; length := 0 |}]> h).
Proof.
  intros Hp. unfold reset_temperature_list.
  by rewrite (points_to_not_null _ _ _ Hp), (read_list_points_to _ _ _ Hp).
Qed.

Lemma points_to_insert_ne (h : gmap Z temperature_list_t) (t t' : ptr)
    (l l' : temperature_list_t) :
  t <> t' -> points_to h t l -> points_to (<[t' := l']> h) t l.
Proof.
  intros Hne [Hn Hl]. split; [done|]. by rewrite lookup_insert_ne.
Qed.

Lemma temperature_list_is_full_points_to (N : nat)
    (h : gmap Z temperature_list_t) (t : ptr) (l : temperature_list_t) :
  points_to h t l ->
  temperature_list_is_full N h t = Done (length l =? N)%nat.
Proof.
  intros Hp. unfold temperature_list_is_full.
  by rewrite (points_to_not_null _ _ _ Hp), (read_list_points_to _ _ _ Hp).
Qed.

Section SamplingTaskFacts.
Context {nvs_fs : Type} `{!NvsStore nvs_fs}.
Variable N : nat.
Variable offsetof_lock : Z.
Variables temperature_list scratch_temperature_list : ptr.
Variable io : sensor_io.
Variable fs : nvs_fs.
Variable h : gmap Z temperature_list_t.
Variables l s : temperature_list_t.
Hypothesis Hl : points_to h temperature_list l.
Hypothesis Hs : points_to h scratch_temperature_list s.
Hypothesis Hne : temperature_list <> scratch_temperature_list.

(** The tail of a run, from [get_temperature_sample] on, when the sensor
    answers and the list in RAM has room. *)
Lemma sampling_tail (h1 : gmap Z temperature_list_t) (l1 : temperature_list_t)
    (fs1 : nvs_fs) :
  points_to h1 temperature_list l1 -> (length l1 < N)%nat ->
  sensor_sample_fetch io = 0 -> (sensor_channel_get io).1 = 0 ->
  let sample v :=
    {| temperature := v; uptime := get_uptime_in_minutes io |} in
  (sampled ← get_temperature_sample io (Some zero_sample);
   match sampled with
   | (E_SUCCESS, Some sample) =>
     '(err, h) ← append_temperature_sample N h1 temperature_list sample;
     Done (err, h, fs1)
   | (err, _) => Done (err, h1, fs1)
   end)
  = (v ← sensor_value_to_temperature (sensor_channel_get io).2;
     Done (E_SUCCESS,
           <[temperature_list :=
               {| data := <[length l1 := sample v]> (data l1);
                  length := S (length l1) |}]> h1,
           fs1)).
Proof using Type.
  intros Hp Hroom Hf Hc sample. rewrite get_temperature_sample_ok by done.
  destruct (sensor_value_to_temperature _) as [v| |]; [|done|done].
  rewrite !bind_Done.
  by rewrite (append_temperature_sample_room N h1 temperature_list l1).
Qed.

(** X21.  A run that finds room in the list in RAM only samples: with
    both sensor calls answering 0 it converts the reading and, the
    conversion having a result, appends the sample -- the converted
    reading, stamped with the uptime in minutes -- and returns
    [E_SUCCESS]; with a failing sensor call it ends with [E_ERROR] and
    changes nothing.  Either way the store and the scratch list are not
    touched. *)
Theorem perform_sampling_task_room (fuel : nat) :
  (length l < N)%nat ->
  let sample v :=
    {| temperature := v; uptime := get_uptime_in_minutes io |} in
  perform_sampling_task N offsetof_lock temperature_list
    scratch_temperature_list fuel io fs h
  = if (sensor_sample_fetch io =? 0) && ((sensor_channel_get io).1 =? 0)
    then v ← sensor_value_to_temperature (sensor_channel_get io).2;
         Done (E_SUCCESS,
               <[temperature_list :=
                   {| data := <[length l := sample v]> (data l);
                      length := S (length l) |}]> h,
               fs)
    else Done (E_ERROR, h, fs).
Proof using Hl.
  intros Hroom sample. unfold perform_sampling_task.
  rewrite (temperature_list_is_full_points_to N h _ l Hl), bind_Done.
  destruct (Nat.eqb_spec (length l) N) as [?|_]; [lia|]. rewrite bind_Done.
  destruct (Z.eqb_spec (sensor_sample_fetch io) 0) as [Hf|Hf];
    [destruct (Z.eqb_spec (sensor_channel_get io).1 0) as [Hc|Hc]|];
    cbn [andb].
  - by apply sampling_tail.
  - by rewrite (get_temperature_sample_failed io zero_sample) by (by right).
  - by rewrite (get_temperature_sample_failed io zero_sample) by (by left).
Qed.

(** X22.  A run that finds the list in RAM full and cannot read the
    stored record -- [nvs_read] answers neither the full size nor
    [-ENOENT] -- ends with [E_ERROR] before anything is merged, stored or
    sampled: the list in RAM keeps its [N] samples, the store is as
    before, and only the scratch list holds what the read left in it. *)
Theorem perform_sampling_task_load_failure (fuel : nat) :
  length l = N ->
  let answer :=
    nvs_read fs NVS_KEY_TEMPERATURE_DATA s offsetof_lock in
  answer.1 <> - ENOENT -> answer.1 <> offsetof_lock ->
  perform_sampling_task N offsetof_lock temperature_list
    scratch_temperature_list fuel io fs h
  = Done (E_ERROR, <[scratch_temperature_list := answer.2]> h, fs).
Proof using Hl Hs.
  intros Hfull answer Hn1 Hn2. unfold perform_sampling_task.
  rewrite (temperature_list_is_full_points_to N h _ l Hl), bind_Done.
  rewrite Hfull, Nat.eqb_refl.
  unfold load_temperature_list.
  rewrite (points_to_not_null _ _ _ Hs), (read_list_points_to _ _ _ Hs).
  rewrite bind_Done. fold answer. destruct answer as [bytes_read buf].
  simpl in *.
  destruct (Z.eqb_spec bytes_read (- ENOENT)); [done|].
  by destruct (Z.eqb_spec bytes_read offsetof_lock).
Qed.

(** X23.  A run that finds the list in RAM full and a well-formed, sorted
    record [r] in the store compacts: the scratch list becomes [d'], the
    result of [merge_temperature_lists] on the list in RAM and [r], and
    [d'] is what is written to the store.  [d'] is well-formed, sorted
    and has [min (N + length r) N] samples.  When [r] is empty these are
    the samples in RAM.  When [r] is not empty, the [k]-th of them is
    the interpolation, at the [k]-th of [N] timestamps spread from the
    earliest to the latest timestamp of the two lists, between two
    neighbours of the merge by timestamp of the samples in RAM with those
    of [r].  If the store reports the write as done, the list in RAM is
    reset and, the conversion of the reading having a result, holds just
    the new sample; if not, the run ends with [E_ERROR] and the list in
    RAM keeps its [N] samples. *)
Theorem perform_sampling_task_compaction (fuel : nat)
    (r : temperature_list_t) :
  length l = N -> (2 <= N)%nat -> Z.of_nat N < 2 ^ 32 ->
  wf_list N l -> Sorted by_uptime (samples l) ->
  offsetof_lock <> - ENOENT ->
  nvs_read fs NVS_KEY_TEMPERATURE_DATA s offsetof_lock = (offsetof_lock, r) ->
  wf_list N r -> Sorted by_uptime (samples r) ->
  (N + N + length r <= fuel)%nat ->
  sensor_sample_fetch io = 0 -> (sensor_channel_get io).1 = 0 ->
  exists d',
    wf_list N d' /\ Sorted by_uptime (samples d') /\
    length d' = ((N + length r) `min` N)%nat /\
    (length r = 0%nat -> samples d' = samples l) /\
    merge_temperature_lists N fuel (<[scratch_temperature_list := r]> h)
      temperature_list scratch_temperature_list scratch_temperature_list
    = Done (E_SUCCESS, <[scratch_temperature_list := d']> h) /\
    (forall f1 f2 e1 e2,
       head (samples l) = Some f1 -> head (samples r) = Some f2 ->
       last (samples l) = Some e1 -> last (samples r) = Some e2 ->
       let start := Z.min (uptime f1) (uptime f2) in
       let end_uptime := Z.max (uptime e1) (uptime e2) in
       let base_period := (end_uptime - start) / (Z.of_nat N - 1) in
       let remainder := (end_uptime - start) mod (Z.of_nat N - 1) in
       let merged := merge_by uptime (samples l) (samples r) in
       forall k, (k < N)%nat ->
         let t := target start base_period remainder k in
         exists a b i x,
           merged !! i = Some a /\ merged !! S i = Some b /\
           uptime a <= t <= uptime b /\
           interpolate a b t = Done x /\ samples d' !! k = Some x) /\
    let sample v :=
      {| temperature := v; uptime := get_uptime_in_minutes io |} in
    let written :=
      nvs_write fs NVS_KEY_TEMPERATURE_DATA d' offsetof_lock in
    perform_sampling_task N offsetof_lock temperature_list
      scratch_temperature_list fuel io fs h
    = if (written.1 =? offsetof_lock) || (written.1 =? 0)
      then v ← sensor_value_to_temperature (sensor_channel_get io).2;
           Done (E_SUCCESS,
                 <[temperature_list :=
                     {| data := <[0%nat := sample v]> (replicate N zero_sample);
                        length := 1 |}]>
                   (<[scratch_temperature_list := d']> h),
                 written.2)
      else Done (E_ERROR, <[scratch_temperature_list := d']> h, written.2).
Proof using Hl Hs Hne.
  intros Hfull HN HN32 Hwl Hsl Hsize Hread Hwr Hsr Hfuel Hf Hc.
  set (h1 := <[scratch_temperature_list := r]> h).
  assert (Hl1 : points_to h1 temperature_list l)
    by (by apply points_to_insert_ne).
  assert (Hs1 : points_to h1 scratch_temperature_list r)
    by (by eapply points_to_insert).
  destruct (merge_temperature_lists_wf_sorted N fuel h1 temperature_list
              scratch_temperature_list scratch_temperature_list l r r
              Hl1 Hs1 Hs1 Hwl Hwr Hwr HN HN32 Hsl Hsr ltac:(lia))
    as (d' & Hmerge & Hwd & Hsd & Hlen & _).
  unfold h1 in Hmerge. rewrite insert_insert_eq in Hmerge.
  set (h2 := <[scratch_temperature_list := d']> h) in *.
  assert (Hl2 : points_to h2 temperature_list l)
    by (by apply points_to_insert_ne).
  assert (Hs2 : points_to h2 scratch_temperature_list d')
    by (by eapply points_to_insert).
  assert (Hsame : forall d'',
            merge_temperature_lists N fuel h1 temperature_list
              scratch_temperature_list scratch_temperature_list
            = Done (E_SUCCESS, <[scratch_temperature_list := d'']> h1) ->
            d'' = d').
  { intros d'' Hmerge'. unfold h1 in Hmerge'.
    rewrite insert_insert_eq in Hmerge'.
    assert (E : <[scratch_temperature_list := d'']> h = h2) by congruence.
    apply (f_equal (fun g => g !! scratch_temperature_list)) in E.
    unfold h2 in E. rewrite !lookup_insert_eq in E. congruence. }
  exists d'. split; [done|]. split; [done|].
  split; [by rewrite Hlen, Hfull|]. split.
  { intros Hr.
    destruct (merge_temperature_lists_exact_samples N fuel h1 temperature_list
                scratch_temperature_list scratch_temperature_list l r r
                Hl1 Hs1 Hs1 Hwl Hwr ltac:(lia) ltac:(lia))
      as (d'' & Hmerge' & _ & Hsam & _).
    apply Hsame in Hmerge' as ->.
    rewrite Hsam. replace (samples r) with (@nil temperature_sample_t).
    - apply merge_by_nil_r.
    - unfold samples. by rewrite Hr. }
  split; [done|]. split.
  { intros f1 f2 e1 e2 Hf1 Hf2 He1 He2.
    assert (Hr : (0 < length r)%nat).
    { unfold samples in Hf2. destruct (length r); [|lia].
      by rewrite take_0 in Hf2. }
    destruct (merge_temperature_lists_decimation_stored N fuel h1
                temperature_list scratch_temperature_list
                scratch_temperature_list l r r f1 f2 e1 e2
                Hl1 Hs1 Hs1 Hwl Hwr HN HN32 Hsl Hsr ltac:(lia)
                Hf1 Hf2 He1 He2 ltac:(lia))
      as (d'' & Hmerge' & Hstored).
    apply Hsame in Hmerge' as ->. exact Hstored. }
  intros sample written. unfold perform_sampling_task.
  rewrite (temperature_list_is_full_points_to N h _ l Hl), bind_Done.
  rewrite Hfull, Nat.eqb_refl.
  assert (Hload : load_temperature_list N offsetof_lock fs h
                    scratch_temperature_list = Done (E_SUCCESS, h1, fs)).
  { unfold load_temperature_list.
    rewrite (points_to_not_null _ _ _ Hs), (read_list_points_to _ _ _ Hs).
    rewrite bind_Done, Hread.
    destruct (Z.eqb_spec offsetof_lock (- ENOENT)); [done|].
    by rewrite Z.eqb_refl. }
  rewrite Hload, !bind_Done. unfold h1. rewrite Hmerge, bind_Done.
  unfold store_temperature_list.
  rewrite (points_to_not_null _ _ _ Hs2), (read_list_points_to _ _ _ Hs2).
  rewrite bind_Done. fold written. destruct written as [rc fs2]. simpl.
  destruct ((rc =? offsetof_lock) || (rc =? 0)); [|done].
  rewrite (reset_temperature_list_points_to N h2 _ l Hl2), !bind_Done.
  rewrite (sampling_tail _ {| data := replicate N zero_sample; length := 0 |})
    by (done || (by eapply points_to_insert) || (simpl; lia)).
  destruct (sensor_value_to_temperature _) as [v| |]; [|done|done].
  by rewrite !bind_Done, insert_insert_eq.
Qed.

(** X24.  The first compaction, when the store has no record yet
    ([nvs_read] answers [-ENOENT]): the record is created empty, the full
    list in RAM is copied as it is into the scratch list and written to
    the store, cell for cell, whatever the order of its timestamps.  If
    the store reports that write as done, the list in RAM is reset and,
    the conversion of the reading having a result, holds just the new
    sample; if not, the run ends with [E_ERROR] and the list in RAM keeps
    its [N] samples. *)
Theorem perform_sampling_task_first_compaction (fuel : nat) :
  length l = N -> (0 < N)%nat -> wf_list N l ->
  let answer := nvs_read fs NVS_KEY_TEMPERATURE_DATA s offsetof_lock in
  answer.1 = - ENOENT ->
  (N < fuel)%nat ->
  sensor_sample_fetch io = 0 -> (sensor_channel_get io).1 = 0 ->
  let empty := {| data := replicate N zero_sample; length := 0 |} in
  let sample v :=
    {| temperature := v; uptime := get_uptime_in_minutes io |} in
  let created :=
    nvs_write fs NVS_KEY_TEMPERATURE_DATA empty offsetof_lock in
  let written :=
    nvs_write created.2 NVS_KEY_TEMPERATURE_DATA l offsetof_lock in
  perform_sampling_task N offsetof_lock temperature_list
    scratch_temperature_list fuel io fs h
  = if (written.1 =? offsetof_lock) || (written.1 =? 0)
    then v ← sensor_value_to_temperature (sensor_channel_get io).2;
         Done (E_SUCCESS,
               <[temperature_list :=
                   {| data := <[0%nat := sample v]> (replicate N zero_sample);
                      length := 1 |}]>
                 (<[scratch_temperature_list := l]> h),
               written.2)
    else Done (E_ERROR, <[scratch_temperature_list := l]> h, written.2).
Proof using Hl Hs Hne.
  intros Hfull HN Hwl answer Hread Hfuel Hf Hc empty sample created written.
  set (h1 := <[scratch_temperature_list := empty]> h).
  assert (Hl1 : points_to h1 temperature_list l)
    by (by apply points_to_insert_ne).
  assert (Hs1 : points_to h1 scratch_temperature_list empty)
    by (by eapply points_to_insert).
  assert (Hwe : wf_list N empty).
  { split; [apply length_replicate|]. split; [simpl; lia|].
    apply Forall_replicate. split; simpl; unfold in_s16, in_u32; lia. }
  destruct (merge_temperature_lists_exact_samples N fuel h1 temperature_list
              scratch_temperature_list scratch_temperature_list l empty empty
              Hl1 Hs1 Hs1 Hwl Hwe ltac:(simpl; lia) ltac:(simpl; lia))
    as (d' & Hmerge & Hlen & Hsam & _ & Hdata).
  assert (d' = l) as ->.
  { assert (Hsl : samples l = data l).
    { unfold samples. rewrite Hfull. apply take_ge.
      destruct Hwl as (-> & _). lia. }
    assert (Hse : samples empty = []) by reflexivity.
    rewrite Hse, merge_by_nil_r, Hsl in Hsam.
    rewrite Hsam, Hlen in Hdata.
    rewrite drop_ge, app_nil_r in Hdata
      by (unfold empty; simpl; rewrite length_replicate; lia).
    change (length empty) with 0%nat in Hlen.
    destruct d', l. simpl in *. f_equal; [done|lia]. }
  unfold h1 in Hmerge. rewrite insert_insert_eq in Hmerge.
  set (h2 := <[scratch_temperature_list := l]> h) in *.
  assert (Hl2 : points_to h2 temperature_list l)
    by (by apply points_to_insert_ne).
  assert (Hs2 : points_to h2 scratch_temperature_list l)
    by (by eapply points_to_insert).
  unfold perform_sampling_task.
  rewrite (temperature_list_is_full_points_to N h _ l Hl), bind_Done.
  rewrite Hfull, Nat.eqb_refl.
  assert (Hload : load_temperature_list N offsetof_lock fs h
                    scratch_temperature_list
                  = Done (E_SUCCESS, h1, created.2)).
  { unfold load_temperature_list.
    rewrite (points_to_not_null _ _ _ Hs), (read_list_points_to _ _ _ Hs).
    rewrite bind_Done. fold answer. destruct answer as [bytes_read buf].
    simpl in Hread. subst bytes_read. rewrite Z.eqb_refl.
    rewrite (reset_temperature_list_points_to N _ _ buf)
      by (by eapply points_to_insert).
    rewrite bind_Done, insert_insert_eq. fold empty. fold h1.
    rewrite (read_list_points_to _ _ _ Hs1), bind_Done. fold created.
    by destruct created. }
  rewrite Hload, !bind_Done. unfold h1. rewrite Hmerge, bind_Done.
  unfold store_temperature_list.
  rewrite (points_to_not_null _ _ _ Hs2), (read_list_points_to _ _ _ Hs2).
  rewrite bind_Done. fold written. destruct written as [rc fs2]. simpl.
  destruct ((rc =? offsetof_lock) || (rc =? 0)); [|done].
  rewrite (reset_temperature_list_points_to N h2 _ l Hl2), !bind_Done.
  rewrite (sampling_tail _ empty) by
    (done || (by eapply points_to_insert) || (simpl; lia)).
  destruct (sensor_value_to_temperature _) as [v| |]; [|done|done].
  by rewrite !bind_Done, insert_insert_eq.
Qed.

End SamplingTaskFacts.


Lemma perform_sampling_task_room_witness :
  let l := {| data := [ {| temperature := 160; uptime := 10 |}; zero_sample ];
              length := 1 |} in
  let h : gmap Z temperature_list_t := <[16 := l]> ∅ in
  let fs : gmap Z temperature_list_t := ∅ in
  let io := {| sensor_sample_fetch := 0; k_uptime_get := 720000;
               sensor_channel_get := (0, {| val1 := 21; val2 := 500000 |}) |} in
  points_to h 16 l /\ (length l < 2)%nat /\
  let sample v :=
    {| temperature := v; uptime := get_uptime_in_minutes io |} in
  perform_sampling_task 2 20 16 32 0 io fs h
  = if (sensor_sample_fetch io =? 0) && ((sensor_channel_get io).1 =? 0)
    then v ← sensor_value_to_temperature (sensor_channel_get io).2;
         Done (E_SUCCESS,
               <[16 := {| data := <[length l := sample v]> (data l);
                          length := S (length l) |}]> h,
               fs)
    else Done (E_ERROR, h, fs).
Proof.
  intros l h fs io.
  assert (Hl : points_to h 16 l) by (split; [discriminate | reflexivity]).
  assert (Hroom : (length l < 2)%nat) by (simpl; lia).
  do 2 (split; [assumption|]).
  exact (perform_sampling_task_room 2 20 16 32 io fs h l Hl 0 Hroom).
Defined.

Lemma perform_sampling_task_load_failure_witness :
  let l := {| data := [ {| temperature := 160; uptime := 10 |};
                        {| temperature := 170; uptime := 11 |} ];
              length := 2 |} in
  let s := {| data := [ zero_sample; zero_sample ]; length := 0 |} in
  let h : gmap Z temperature_list_t := <[16 := l]> (<[32 := s]> ∅) in
  let io := {| sensor_sample_fetch := 0; k_uptime_get := 720000;
               sensor_channel_get := (0, {| val1 := 21; val2 := 500000 |}) |} in
  points_to h 16 l /\ points_to h 32 s /\ length l = 2%nat /\
  let answer :=
    @nvs_read unit failing_store () NVS_KEY_TEMPERATURE_DATA s 20 in
  answer.1 <> - ENOENT /\ answer.1 <> 20 /\
  @perform_sampling_task 2 20 unit failing_store 16 32 9 io () h
  = Done (E_ERROR, <[32 := answer.2]> h, ()).
Proof.
  intros l s h io.
  assert (Hl : points_to h 16 l) by (split; [discriminate | reflexivity]).
  assert (Hs : points_to h 32 s) by (split; [discriminate | reflexivity]).
  assert (Hfull : length l = 2%nat) by reflexivity.
  do 3 (split; [assumption|]).
  intros answer.
  assert (Hn1 : answer.1 <> - ENOENT) by discriminate.
  assert (Hn2 : answer.1 <> 20) by discriminate.
  do 2 (split; [assumption|]).
  exact (@perform_sampling_task_load_failure unit failing_store
           2 20 16 32 io () h l s Hl Hs 9 Hfull Hn1 Hn2).
Defined.

Lemma perform_sampling_task_first_compaction_witness :
  let l := {| data := [ {| temperature := 160; uptime := 10 |};
                        {| temperature := 170; uptime := 11 |} ];
              length := 2 |} in
  let s := {| data := [ zero_sample; zero_sample ]; length := 0 |} in
  let h : gmap Z temperature_list_t := <[16 := l]> (<[32 := s]> ∅) in
  let fs : gmap Z temperature_list_t := ∅ in
  let io := {| sensor_sample_fetch := 0; k_uptime_get := 720000;
               sensor_channel_get := (0, {| val1 := 21; val2 := 500000 |}) |} in
  points_to h 16 l /\ points_to h 32 s /\ 16 <> 32 /\
  length l = 2%nat /\ (0 < 2)%nat /\ wf_list 2 l /\
  let answer := nvs_read fs NVS_KEY_TEMPERATURE_DATA s 20 in
  answer.1 = - ENOENT /\ (2 < 3)%nat /\
  sensor_sample_fetch io = 0 /\ (sensor_channel_get io).1 = 0 /\
  let empty := {| data := replicate 2 zero_sample; length := 0 |} in
  let sample v :=
    {| temperature := v; uptime := get_uptime_in_minutes io |} in
  let created := nvs_write fs NVS_KEY_TEMPERATURE_DATA empty 20 in
  let written := nvs_write created.2 NVS_KEY_TEMPERATURE_DATA l 20 in
  perform_sampling_task 2 20 16 32 3 io fs h
  = if (written.1 =? 20) || (written.1 =? 0)
    then v ← sensor_value_to_temperature (sensor_channel_get io).2;
         Done (E_SUCCESS,
               <[16 := {| data := <[0%nat := sample v]> (replicate 2 zero_sample);
                          length := 1 |}]> (<[32 := l]> h),
               written.2)
    else Done (E_ERROR, <[32 := l]> h, written.2).
Proof.
  intros l s h fs io.
  assert (Hl : points_to h 16 l) by (split; [discriminate | reflexivity]).
  assert (Hs : points_to h 32 s) by (split; [discriminate | reflexivity]).
  assert (Hne : 16 <> 32) by discriminate.
  assert (Hfull : length l = 2%nat) by reflexivity.
  assert (HN : (0 < 2)%nat) by lia.
  assert (Hwl : wf_list 2 l).
  { split; [reflexivity|]. split; [simpl; lia|].
    repeat constructor; simpl; lia. }
  do 6 (split; [assumption|]).
  intros answer.
  assert (Hread : answer.1 = - ENOENT) by reflexivity.
  assert (Hfuel : (2 < 3)%nat) by lia.
  assert (Hf : sensor_sample_fetch io = 0) by reflexivity.
  assert (Hc : (sensor_channel_get io).1 = 0) by reflexivity.
  do 4 (split; [assumption|]).
  exact (perform_sampling_task_first_compaction 2 20 16 32 io fs h l s
           Hl Hs Hne 3 Hfull HN Hwl Hread Hfuel Hf Hc).
Defined.

Lemma perform_sampling_task_compaction_witness :
  let l := {| data := [ {| temperature := 160; uptime := 10 |};
                        {| temperature := 170; uptime := 11 |} ];
              length := 2 |} in
  let s := {| data := [ zero_sample; zero_sample ]; length := 0 |} in
  let r := {| data := [ {| temperature := 100; uptime := 4 |}; zero_sample ];
              length := 1 |} in
  let h : gmap Z temperature_list_t := <[16 := l]> (<[32 := s]> ∅) in
  let fs : gmap Z temperature_list_t := <[NVS_KEY_TEMPERATURE_DATA := r]> ∅ in
  let io := {| sensor_sample_fetch := 0; k_uptime_get := 720000;
               sensor_channel_get := (0, {| val1 := 21; val2 := 500000 |}) |} in
  points_to h 16 l /\ points_to h 32 s /\ 16 <> 32 /\
  length l = 2%nat /\ (2 <= 2)%nat /\ Z.of_nat 2 < 2 ^ 32 /\
  wf_list 2 l /\ Sorted by_uptime (samples l) /\ 20 <> - ENOENT /\
  nvs_read fs NVS_KEY_TEMPERATURE_DATA s 20 = (20, r) /\
  wf_list 2 r /\ Sorted by_uptime (samples r) /\
  (2 + 2 + length r <= 5)%nat /\
  sensor_sample_fetch io = 0 /\ (sensor_channel_get io).1 = 0 /\
  exists d',
    wf_list 2 d' /\ Sorted by_uptime (samples d') /\
    length d' = ((2 + length r) `min` 2)%nat /\
    (length r = 0%nat -> samples d' = samples l) /\
    merge_temperature_lists 2 5 (<[32 := r]> h) 16 32 32
    = Done (E_SUCCESS, <[32 := d']> h) /\
    (forall f1 f2 e1 e2,
       head (samples l) = Some f1 -> head (samples r) = Some f2 ->
       last (samples l) = Some e1 -> last (samples r) = Some e2 ->
       let start := Z.min (uptime f1) (uptime f2) in
       let end_uptime := Z.max (uptime e1) (uptime e2) in
       let base_period := (end_uptime - start) / (Z.of_nat 2 - 1) in
       let remainder := (end_uptime - start) mod (Z.of_nat 2 - 1) in
       let merged := merge_by uptime (samples l) (samples r) in
       forall k, (k < 2)%nat ->
         let t := target start base_period remainder k in
         exists a b i x,
           merged !! i = Some a /\ merged !! S i = Some b /\
           uptime a <= t <= uptime b /\
           interpolate a b t = Done x /\ samples d' !! k = Some x) /\
    let sample v :=
      {| temperature := v; uptime := get_uptime_in_minutes io |} in
    let written := nvs_write fs NVS_KEY_TEMPERATURE_DATA d' 20 in
    perform_sampling_task 2 20 16 32 5 io fs h
    = if (written.1 =? 20) || (written.1 =? 0)
      then v ← sensor_value_to_temperature (sensor_channel_get io).2;
           Done (E_SUCCESS,
                 <[16 := {| data := <[0%nat := sample v]> (replicate 2 zero_sample);
                            length := 1 |}]> (<[32 := d']> h),
                 written.2)
      else Done (E_ERROR, <[32 := d']> h, written.2).
Proof.
  intros l s r h fs io.
  assert (Hl : points_to h 16 l) by (split; [discriminate | reflexivity]).
  assert (Hs : points_to h 32 s) by (split; [discriminate | reflexivity]).
  assert (Hne : 16 <> 32) by discriminate.
  assert (Hfull : length l = 2%nat) by reflexivity.
  assert (HN : (2 <= 2)%nat) by lia.
  assert (HN32 : Z.of_nat 2 < 2 ^ 32) by reflexivity.
  assert (Hwl : wf_list 2 l).
  { split; [reflexivity|]. split; [simpl; lia|].
    repeat constructor; simpl; lia. }
  assert (Hsl : Sorted by_uptime (samples l)).
  { repeat constructor; unfold by_uptime; simpl; lia. }
  assert (Hsize : 20 <> - ENOENT) by discriminate.
  assert (Hread : nvs_read fs NVS_KEY_TEMPERATURE_DATA s 20 = (20, r))
    by reflexivity.
  assert (Hwr : wf_list 2 r).
  { split; [reflexivity|]. split; [simpl; lia|].
    repeat constructor; simpl; lia. }
  assert (Hsr : Sorted by_uptime (samples r)) by repeat constructor.
  assert (Hfuel : (2 + 2 + length r <= 5)%nat) by (simpl; lia).
  assert (Hf : sensor_sample_fetch io = 0) by reflexivity.
  assert (Hc : (sensor_channel_get io).1 = 0) by reflexivity.
  do 15 (split; [assumption|]).
  exact (perform_sampling_task_compaction 2 20 16 32 io fs h l s
           Hl Hs Hne 5 r Hfull HN HN32 Hwl Hsl Hsize Hread Hwr Hsr Hfuel
           Hf Hc).
Defined.

(** On these lists the run stores the two samples [(4 min, 100)] and
    [(11 min, 170)], the ends of the merged run of three. *)
Example perform_sampling_task_compaction_example :
  let l := {| data := [ {| temperature := 160; uptime := 10 |};
                        {| temperature := 170; uptime := 11 |} ];
              length := 2 |} in
  let s := {| data := [ zero_sample; zero_sample ]; length := 0 |} in
  let r := {| data := [ {| temperature := 100; uptime := 4 |}; zero_sample ];
              length := 1 |} in
  let h : gmap Z temperature_list_t := <[16 := l]> (<[32 := s]> ∅) in
  let fs : gmap Z temperature_list_t := <[NVS_KEY_TEMPERATURE_DATA := r]> ∅ in
  let io := {| sensor_sample_fetch := 0; k_uptime_get := 720000;
               sensor_channel_get := (0, {| val1 := 21; val2 := 500000 |}) |} in
  let d' := {| data := [ {| temperature := 100; uptime := 4 |};
                         {| temperature := 170; uptime := 11 |} ];
               length := 2 |} in
  perform_sampling_task 2 20 16 32 5 io fs h
  = Done (E_SUCCESS,
          <[16 := {| data := [ {| temperature := 344; uptime := 12 |};
                               zero_sample ];
                     length := 1 |}]> (<[32 := d']> h),
          <[NVS_KEY_TEMPERATURE_DATA := d']> fs).
Proof. vm_compute. reflexivity. Qed.

(** ** Printable strings *)

Lemma is_printable_ascii_string_loop_spec (buffer : list Z) :
  forall (remaining i : nat),
  (i + remaining <= List.length buffer)%nat ->
  exists b,
    is_printable_ascii_string_loop buffer i remaining = Done b /\
    (b = true <->
     exists k, (i <= k < i + remaining)%nat /\ buffer !! k = Some 0 /\
       forall j, (i <= j < k)%nat ->
         exists c, buffer !! j = Some c /\ 32 <= c <= 126).
Proof.
  induction remaining as [|remaining IH]; intros i Hlen.
  - exists false. split; [done|]. split; [done|]. intros (k & Hk & _). lia.
  - simpl. destruct (lookup_lt_is_Some_2 buffer i ltac:(lia)) as [c Hc].
    rewrite Hc. simpl. destruct (Z.eqb_spec c 0) as [->|Hnz].
    + exists true. split; [done|]. split; [|done]. intros _.
      exists i. split; [lia|]. split; [done|]. intros j Hj. lia.
    + unfold is_printable_ascii_char.
      destruct (Z.leb_spec 32 c) as [Hlo|Hlo];
        [destruct (Z.leb_spec c 126) as [Hhi|Hhi]|]; simpl.
      * destruct (IH (S i) ltac:(lia)) as (b & Hrun & Hb).
        exists b. split; [done|]. rewrite Hb. split.
        -- intros (k & Hk & Hz & Hbefore). exists k.
           split; [lia|]. split; [done|]. intros j Hj.
           destruct (decide (j = i)) as [->|?]; [eauto|].
           apply Hbefore. lia.
        -- intros (k & Hk & Hz & Hbefore).
           assert (k <> i) by (intros ->; congruence).
           exists k. split; [lia|]. split; [done|]. intros j Hj.
           apply Hbefore. lia.
      * exists false. split; [done|]. split; [done|].
        intros (k & Hk & Hz & Hbefore).
        assert (k <> i) by (intros ->; congruence).
        destruct (Hbefore i ltac:(lia)) as (c' & Hc' & ?).
        assert (c' = c) by congruence. lia.
      * exists false. split; [done|]. split; [done|].
        intros (k & Hk & Hz & Hbefore).
        assert (k <> i) by (intros ->; congruence).
        destruct (Hbefore i ltac:(lia)) as (c' & Hc' & ?).
        assert (c' = c) by congruence. lia.
Qed.

(** X25.  [is_printable_ascii_string] on a buffer of at least
    [buffer_len] bytes returns [true] exactly when there is a NUL among the
    first [buffer_len] bytes and every byte before the first NUL is a
    printable ASCII character, 32 to 126.  In particular a buffer without
    a terminator within [buffer_len], a zero [buffer_len] and a [NULL]
    buffer give [false], and the empty string gives [true]. *)
Theorem is_printable_ascii_string_spec (buffer : list Z) (buffer_len : nat) :
  (buffer_len <= List.length buffer)%nat ->
  is_printable_ascii_string None buffer_len = Done false /\
  exists b,
    is_printable_ascii_string (Some buffer) buffer_len = Done b /\
    (b = true <->
     exists k, (k < buffer_len)%nat /\ buffer !! k = Some 0 /\
       forall j, (j < k)%nat ->
         exists c, buffer !! j = Some c /\ 32 <= c <= 126).
Proof.
  intros Hlen. split; [done|].
  destruct (is_printable_ascii_string_loop_spec buffer buffer_len 0 ltac:(lia))
    as (b & Hrun & Hb).
  exists b. split; [done|]. rewrite Hb. split.
  - intros (k & Hk & Hz & Hbefore). exists k.
    split; [lia|]. split; [done|]. intros j Hj. apply Hbefore. lia.
  - intros (k & Hk & Hz & Hbefore). exists k.
    split; [lia|]. split; [done|]. intros j Hj. apply Hbefore. lia.
Qed.

Lemma is_printable_ascii_string_spec_witness :
  let buffer := [104; 105; 0; 7] in
  (4 <= List.length buffer)%nat /\
  is_printable_ascii_string None 4 = Done false /\
  exists b,
    is_printable_ascii_string (Some buffer) 4 = Done b /\
    (b = true <->
     exists k, (k < 4)%nat /\ buffer !! k = Some 0 /\
       forall j, (j < k)%nat ->
         exists c, buffer !! j = Some c /\ 32 <= c <= 126).
Proof.
  intros buffer.
  assert (Hlen : (4 <= List.length buffer)%nat) by (simpl; lia).
  split; [assumption|].
  exact (is_printable_ascii_string_spec buffer 4 Hlen).
Defined.
